(** * hl-data-collector: liquidation-map pipeline

    A shallow embedding of the core of the collector (position scanner,
    liquidation aggregator, historical store, retention maintenance) and
    the properties its specification states about it, followed by the
    code around that core (maps of all coins, trading signals, current
    prices, the compression migration, the validators, the retry
    wrappers, order book liquidity, the wallet registry) and properties
    read off that code.

    Conventions of the embedding.
    - Python [float] values are modelled by exact rationals [Q]; equality
      of computed amounts is [Qeq] ([==]).  Rounding of IEEE doubles is
      outside the model except in [Module Binary64], which re-runs one
      boundary scenario on the kernel's binary64 numbers.
    - Python exceptions are values of [Py.result]; [try/except] is
      [Py.try_except].
    - A [str] is represented by the bytes of its UTF-8 encoding.
    - [str] is [string]; [int] is [Z]; a [dict] whose iteration order
      matters is an association list in insertion order. *)

From Stdlib Require Import ZArith QArith Qabs Qround List String Ascii Bool.
From Stdlib Require Import Lia Lqa Permutation Sorted.
From Stdlib Require Import PrimFloat FloatOps SpecFloat Uint63.
From Stdlib Require Import DecimalString.
From Stdlib Require OrderedTypeEx.
Import ListNotations.

Set Implicit Arguments.
Set Warnings "-register-all".

(* ================================================================== *)
(** * Python runtime: exceptions, truthiness, numeric helpers *)
(* ================================================================== *)

Module Py.

(** The exception classes the modelled code can meet, all of them
    subclasses of [Exception].  [KeyboardInterrupt], [SystemExit] and
    task cancellation are outside the model. *)
Inductive exn : Type :=
| ZeroDivisionError
| ValueError
| TypeError
| AttributeError
| BinasciiError
| ZlibError
| UnicodeDecodeError
| JSONDecodeError
| OverflowError
| ApiError.

Inductive result (A : Type) : Type :=
| Ok (a : A)
| Raise (e : exn).

Arguments Ok {A} a.
Arguments Raise {A} e.

Definition bind {A B} (m : result A) (k : A -> result B) : result B :=
  match m with
  | Ok a => k a
  | Raise e => Raise e
  end.

(** [try: body except Exception as e: handler] and the bare
    [try: body except: handler]. *)
Definition try_except {A} (body : result A) (handler : exn -> result A)
  : result A :=
  match body with
  | Ok a => Ok a
  | Raise e => handler e
  end.

Definition returns {A} (m : result A) : Prop := exists a, m = Ok a.

(** [x < y] on floats. *)
Definition Qltb (x y : Q) : bool := negb (Qle_bool y x).

(** [x / y] on floats: a zero divisor raises. *)
Definition div (x y : Q) : result Q :=
  if Qeq_bool y 0 then Raise ZeroDivisionError else Ok (x / y).

(** [int(x)] on a float: truncation toward zero. *)
Definition int_of_float (x : Q) : Z := Z.quot (Qnum x) (Zpos (Qden x)).

(** [math.floor(x)]. *)
Definition floor (x : Q) : Z := Qfloor x.

(** [sum(xs)]: left fold from [0]. *)
Definition sum (xs : list Q) : Q := fold_left Qplus xs 0.

Definition sumZ (xs : list Z) : Z := fold_left Z.add xs 0%Z.

(** [a or b] on an optional float argument: [None] and [0.0] are falsy. *)
Definition or_default (a : option Q) (b : Q) : Q :=
  match a with
  | Some v => if Qeq_bool v 0 then b else v
  | None => b
  end.

(** [list.sort(key=...)]: the stable sort, as insertion from the right. *)
Section Sort.
Variable A : Type.
Variable key : A -> Q.

Fixpoint insert_by (x : A) (l : list A) : list A :=
  match l with
  | [] => [x]
  | y :: l' =>
      if Qle_bool (key x) (key y) then x :: y :: l'
      else y :: insert_by x l'
  end.

Definition sort_by (l : list A) : list A := fold_right insert_by [] l.

(** The order a sort by [key] establishes. *)
Definition key_le (a b : A) : Prop := key a <= key b.
End Sort.

End Py.

Declare Scope py_scope.
Delimit Scope py_scope with py.
Notation "x <- m ;; k" := (Py.bind m (fun x => k))
  (at level 61, m at next level, right associativity) : py_scope.
Notation "'Ok'" := Py.Ok : py_scope.
Open Scope py_scope.

(* ================================================================== *)
(** * src/config.py *)
(* ================================================================== *)

Module Config.
Definition MAX_WALLETS_TO_TRACK : nat := 5000.
Definition MIN_POSITION_VALUE_USD : Q := 1000.
Definition PRICE_BUCKET_PERCENT : Q := 0.1.
Definition MIN_CLUSTER_SIZE_USD : Q := 100000.
Definition CLUSTER_MERGE_PERCENT : Q := 0.5.
Definition API_REQUESTS_PER_SECOND : nat := 10.
End Config.

(* ================================================================== *)
(** * JSON values and the dynamic operations the code applies to them *)
(* ================================================================== *)

Module Json.

(** What [json.loads] and [response.json()] produce.  A [dict] keeps its
    keys in insertion order; numbers are exact rationals. *)
Inductive value : Type :=
| JNull
| JBool (b : bool)
| JNum (q : Q)
| JStr (s : string)
| JArr (items : list value)
| JObj (fields : list (string * value)).

Definition empty_dict : value := JObj [].

Definition is_dict (v : value) : bool :=
  match v with
  | JObj _ => true
  | _ => false
  end.

(** Truth value of an object ([if v:], [not v]). *)
Definition truthy (v : value) : bool :=
  match v with
  | JNull => false
  | JBool b => b
  | JNum q => negb (Qeq_bool q 0)
  | JStr s => negb (String.eqb s EmptyString)
  | JArr l => match l with [] => false | _ => true end
  | JObj l => match l with [] => false | _ => true end
  end.

(** [v == s] for a string literal [s]. *)
Definition eq_str (v : value) (s : string) : bool :=
  match v with
  | JStr t => String.eqb t s
  | _ => false
  end.

Fixpoint lookup (k : string) (fields : list (string * value))
  : option value :=
  match fields with
  | [] => None
  | (k', v) :: rest => if String.eqb k k' then Some v else lookup k rest
  end.

(** [d[k] = v] on a dict: an existing key keeps its position. *)
Fixpoint update (k : string) (v : value) (fields : list (string * value))
  : list (string * value) :=
  match fields with
  | [] => [(k, v)]
  | (k', v') :: rest =>
      if String.eqb k k' then (k', v) :: rest
      else (k', v') :: update k v rest
  end.

(** Lists and dicts cannot be dictionary keys. *)
Definition hashable (v : value) : bool :=
  match v with
  | JArr _ | JObj _ => false
  | _ => true
  end.

Definition as_number (v : value) : option Q :=
  match v with
  | JNum q => Some q
  | JBool b => Some (if b then 1 else 0)
  | _ => None
  end.

(** [a == b] on hashable values ([True == 1 == 1.0]). *)
Definition key_eqb (a b : value) : bool :=
  match a, b with
  | JNull, JNull => true
  | JStr s, JStr t => String.eqb s t
  | _, _ =>
      match as_number a, as_number b with
      | Some x, Some y => Qeq_bool x y
      | _, _ => false
      end
  end.

(** [a == b] on values.  Numbers compare by value ([1 == 1.0],
    [True == 1]); dicts compare key by key, whatever the order. *)
Fixpoint eqb (a b : value) : bool :=
  match a, b with
  | JNull, JNull => true
  | JStr s, JStr t => String.eqb s t
  | JArr xs, JArr ys =>
      (fix all2 (l : list value) (r : list value) : bool :=
         match l, r with
         | [], [] => true
         | x :: l', y :: r' => eqb x y && all2 l' r'
         | _, _ => false
         end) xs ys
  | JObj fs, JObj gs =>
      Nat.eqb (List.length fs) (List.length gs)
      && (fix all (l : list (string * value)) : bool :=
            match l with
            | [] => true
            | (k, x) :: l' =>
                match lookup k gs with
                | Some y => eqb x y && all l'
                | None => false
                end
            end) fs
  | _, _ =>
      match as_number a, as_number b with
      | Some x, Some y => Qeq_bool x y
      | _, _ => false
      end
  end.

(** [v.get(k, default)]: only a dict has the method. *)
Definition get (v : value) (k : string) (default : value)
  : Py.result value :=
  match v with
  | JObj fields =>
      Ok (match lookup k fields with Some x => x | None => default end)
  | _ => Py.Raise Py.AttributeError
  end.

Fixpoint chars (s : string) : list value :=
  match s with
  | EmptyString => []
  | String c s' => JStr (String c EmptyString) :: chars s'
  end.

(** [for x in v]: lists yield their items, dicts their keys, strings
    their characters; nothing else is iterable. *)
Definition iter (v : value) : Py.result (list value) :=
  match v with
  | JArr l => Ok l
  | JObj fields => Ok (map (fun kv => JStr (fst kv)) fields)
  | JStr s => Ok (chars s)
  | _ => Py.Raise Py.TypeError
  end.

(** ** [float(s)] on a string

    Decimal literals: optional blanks, optional sign, digits with an
    optional fraction, optional exponent.  [inf], [nan] and digit
    separators have no rational value and are left out (they read as
    [ValueError] here). *)

Definition is_digit (c : ascii) : bool :=
  let n := nat_of_ascii c in (48 <=? n)%nat && (n <=? 57)%nat.

Definition digit_val (c : ascii) : Z := Z.of_nat (nat_of_ascii c - 48).

Definition is_blank (c : ascii) : bool :=
  let n := nat_of_ascii c in
  (n =? 32)%nat || ((9 <=? n)%nat && (n <=? 13)%nat).

Fixpoint skip_blanks (s : string) : string :=
  match s with
  | String c s' => if is_blank c then skip_blanks s' else s
  | EmptyString => s
  end.

(** Reads a run of digits: value so far, number of digits read, rest. *)
Fixpoint digits (s : string) (acc : Z) (n : nat) : Z * nat * string :=
  match s with
  | String c s' =>
      if is_digit c then digits s' (acc * 10 + digit_val c)%Z (S n)
      else (acc, n, s)
  | EmptyString => (acc, n, s)
  end.

Definition sign (s : string) : bool * string :=
  match s with
  | String "-"%char s' => (true, s')
  | String "+"%char s' => (false, s')
  | _ => (false, s)
  end.

Definition pow10 (e : Z) : Q :=
  match e with
  | Z0 => 1
  | Zpos p => inject_Z (10 ^ Zpos p)
  | Zneg p => 1 # (10 ^ p)
  end.

Definition exponent (s : string) : option (Z * string) :=
  match s with
  | String c s' =>
      if (Ascii.eqb c "e" || Ascii.eqb c "E")%bool then
        let '(neg, s1) := sign s' in
        let '(e, n, s2) := digits s1 0%Z 0%nat in
        match n with
        | O => None
        | _ => Some (if neg then (- e)%Z else e, s2)
        end
      else Some (0%Z, s)
  | EmptyString => Some (0%Z, s)
  end.

(** The number at the head of [s] and what follows it. *)
Definition number (s : string) : option (Q * string) :=
  let '(neg, s1) := sign s in
  let '(ip, ni, s2) := digits s1 0%Z 0%nat in
  let '(fp, nf, s3) :=
    match s2 with
    | String "."%char s' => digits s' 0%Z 0%nat
    | _ => (0%Z, 0%nat, s2)
    end in
  match ni, nf, s2 with
  | O, O, _ => None
  | _, _, _ =>
      match exponent s3 with
      | None => None
      | Some (e, s4) =>
          let m := (inject_Z ip + inject_Z fp * pow10 (- Z.of_nat nf))
                   * pow10 e in
          Some (Qred (if neg then - m else m), s4)
      end
  end.

Definition parse_float (s : string) : Py.result Q :=
  match number (skip_blanks s) with
  | Some (q, rest) =>
      match skip_blanks rest with
      | EmptyString => Ok q
      | _ => Py.Raise Py.ValueError
      end
  | None => Py.Raise Py.ValueError
  end.

(** [float(v)]. *)
Definition float (v : value) : Py.result Q :=
  match v with
  | JNum q => Ok q
  | JBool b => Ok (if b then 1 else 0)
  | JStr s => parse_float s
  | JNull | JArr _ | JObj _ => Py.Raise Py.TypeError
  end.

End Json.

(* ================================================================== *)
(** * src/hyperliquid_api.py *)
(* ================================================================== *)

Module HyperliquidAPI.
Import Json.

Record Position : Type := {
  wallet : string;
  coin : value;
  size : Q;
  entry_price : Q;
  liquidation_price : option Q;
  leverage : Q;
  notional_value : Q;
  unrealized_pnl : Q;
  margin_used : Q
}.

Definition is_long (p : Position) : bool := Py.Qltb 0 (size p).

Definition side (p : Position) : string :=
  if is_long p then "long"%string else "short"%string.

(** The venue, as the client sees it: what [get_clearinghouse_state]
    returns or raises for a wallet. *)
Definition venue : Type := string -> Py.result value.

(** The parsing of [liquidationPx] inside [get_user_positions]. *)
Definition parse_liquidation_px (liq_px : value) : Py.result (option Q) :=
  if truthy liq_px && negb (eq_str liq_px "null") then
    x <- float liq_px ;; Ok (Some x)
  else Ok None.

(** One turn of the loop over [assetPositions]: [None] is [continue]. *)
Definition parse_asset_position (w : string) (asset_pos : value)
  : Py.result (option Position) :=
  pos <- get asset_pos "position" empty_dict ;;
  if negb (truthy pos) then Ok None else
  szi <- get pos "szi" (JNum 0) ;;
  sz <- float szi ;;
  if Py.Qltb (Qabs sz) 0.0001 then Ok None else
  leverage_info <- get pos "leverage" empty_dict ;;
  lev_value <- get leverage_info "value" (JNum 1) ;;
  lev <- float lev_value ;;
  liq_raw <- get pos "liquidationPx" JNull ;;
  liq_px <- parse_liquidation_px liq_raw ;;
  c <- get pos "coin" (JStr "") ;;
  entry_raw <- get pos "entryPx" (JNum 0) ;;
  entry <- float entry_raw ;;
  value_raw <- get pos "positionValue" (JNum 0) ;;
  notional <- float value_raw ;;
  pnl_raw <- get pos "unrealizedPnl" (JNum 0) ;;
  pnl <- float pnl_raw ;;
  margin_raw <- get pos "marginUsed" (JNum 0) ;;
  margin <- float margin_raw ;;
  Ok (Some {| wallet := w;
              coin := c;
              size := sz;
              entry_price := entry;
              liquidation_price := liq_px;
              leverage := lev;
              notional_value := Qabs notional;
              unrealized_pnl := pnl;
              margin_used := margin |}).

Fixpoint parse_asset_positions (w : string) (items : list value)
  (positions : list Position) : Py.result (list Position) :=
  match items with
  | [] => Ok positions
  | asset_pos :: rest =>
      r <- parse_asset_position w asset_pos ;;
      match r with
      | Some p => parse_asset_positions w rest (positions ++ [p])
      | None => parse_asset_positions w rest positions
      end
  end.

Definition get_user_positions (api : venue) (w : string)
  : Py.result (list Position) :=
  Py.try_except
    (state <- api w ;;
     asset_positions <- get state "assetPositions" (JArr []) ;;
     items <- iter asset_positions ;;
     parse_asset_positions w items [])
    (fun _ => Ok []).

End HyperliquidAPI.

(* ================================================================== *)
(** * src/position_scanner.py *)
(* ================================================================== *)

Module PositionScanner.
Import HyperliquidAPI.

Record LiquidationLevel : Type := {
  price : Q;
  size_usd : Q;
  side : string;
  wallet : string;
  coin : Json.value;
  leverage : Q
}.

Record ScanResult : Type := {
  total_wallets_scanned : nat;
  total_positions_found : nat;
  total_long_exposure_usd : Q;
  total_short_exposure_usd : Q;
  liquidation_levels : list LiquidationLevel;
  positions_by_coin : list (Json.value * list Position);
  errors : nat
}.

Definition scan_wallet (api : venue) (w : string)
  : Py.result (list Position) :=
  Py.try_except (get_user_positions api w) (fun _ => Ok []).

(** The local state of [scan_wallets]. *)
Record scan_state : Type := {
  st_all_positions : list Position;
  st_by_coin : list (Json.value * list Position);
  st_levels : list LiquidationLevel;
  st_errors : nat
}.

Definition initial_state : scan_state :=
  {| st_all_positions := []; st_by_coin := [];
     st_levels := []; st_errors := 0 |}.

Definition level_of_position (p : Position) (px : Q) : LiquidationLevel :=
  {| price := px;
     size_usd := notional_value p;
     side := HyperliquidAPI.side p;
     wallet := HyperliquidAPI.wallet p;
     coin := HyperliquidAPI.coin p;
     leverage := HyperliquidAPI.leverage p |}.

(** [positions_by_coin[c].append(p)] on a [defaultdict(list)] kept in
    insertion order. *)
Fixpoint index_append (c : Json.value) (p : Position)
  (idx : list (Json.value * list Position))
  : list (Json.value * list Position) :=
  match idx with
  | [] => [(c, [p])]
  | (c', ps) :: rest =>
      if Json.key_eqb c' c then (c', ps ++ [p]) :: rest
      else (c', ps) :: index_append c p rest
  end.

(** Body of [for position in result]. *)
Definition visit_position (st : scan_state) (p : Position)
  : Py.result scan_state :=
  if Py.Qltb (notional_value p) Config.MIN_POSITION_VALUE_USD then Ok st
  else if negb (Json.hashable (HyperliquidAPI.coin p)) then
    Py.Raise Py.TypeError
  else
    Ok {| st_all_positions := st_all_positions st ++ [p];
          st_by_coin :=
            index_append (HyperliquidAPI.coin p) p (st_by_coin st);
          st_levels :=
            match liquidation_price p with
            | Some px => st_levels st ++ [level_of_position p px]
            | None => st_levels st
            end;
          st_errors := st_errors st |}.

Fixpoint visit_positions (st : scan_state) (ps : list Position)
  : Py.result scan_state :=
  match ps with
  | [] => Ok st
  | p :: rest => st' <- visit_position st p ;; visit_positions st' rest
  end.

(** Body of [for wallet, result in zip(batch, results)].  [gather] was
    called with [return_exceptions=True]: a task that raised shows up
    as its exception object, which [isinstance(result, Exception)]
    recognises. *)
Definition visit_result (st : scan_state) (r : Py.result (list Position))
  : Py.result scan_state :=
  match r with
  | Py.Raise e =>
      Ok {| st_all_positions := st_all_positions st;
            st_by_coin := st_by_coin st;
            st_levels := st_levels st;
            st_errors := S (st_errors st) |}
  | Py.Ok positions => visit_positions st positions
  end.

Fixpoint visit_results (st : scan_state)
  (rs : list (Py.result (list Position))) : Py.result scan_state :=
  match rs with
  | [] => Ok st
  | r :: rest => st' <- visit_result st r ;; visit_results st' rest
  end.

(** [for i in range(0, total, batch_size)] with
    [batch = wallet_list[i:i + batch_size]]; [fuel] bounds the number
    of turns ([total] turns always suffice). *)
Fixpoint scan_batches (api : venue) (batch_size fuel : nat)
  (wallet_list : list string) (st : scan_state) : Py.result scan_state :=
  match fuel, wallet_list with
  | O, _ | _, [] => Ok st
  | S fuel', _ =>
      let batch := firstn batch_size wallet_list in
      let results := map (scan_wallet api) batch in
      st' <- visit_results st results ;;
      scan_batches api batch_size fuel' (skipn batch_size wallet_list) st'
  end.

Definition exposure (long : bool) (ps : list Position) : Q :=
  Py.sum (map notional_value
            (filter (fun p => Bool.eqb (is_long p) long) ps)).

(** [wallets] is the set in its iteration order. *)
Definition scan_wallets (api : venue) (wallets : list string)
  : Py.result ScanResult :=
  let wallet_list := firstn Config.MAX_WALLETS_TO_TRACK wallets in
  let total := List.length wallet_list in
  st <- scan_batches api Config.API_REQUESTS_PER_SECOND total wallet_list
          initial_state ;;
  Ok {| total_wallets_scanned := List.length wallet_list;
        total_positions_found := List.length (st_all_positions st);
        total_long_exposure_usd := exposure true (st_all_positions st);
        total_short_exposure_usd := exposure false (st_all_positions st);
        liquidation_levels := st_levels st;
        positions_by_coin := st_by_coin st;
        errors := st_errors st |}.

End PositionScanner.

(* ================================================================== *)
(** * src/liquidation_aggregator.py *)
(* ================================================================== *)

Module LiquidationAggregator.

Abbreviation LiquidationLevel := PositionScanner.LiquidationLevel.
Abbreviation level_price := PositionScanner.price.
Abbreviation level_size := PositionScanner.size_usd.
Abbreviation level_side := PositionScanner.side.
Abbreviation level_coin := PositionScanner.coin.
Abbreviation level_leverage := PositionScanner.leverage.

Record LiquidationCluster : Type := {
  coin : Json.value;
  side : string;
  price_low : Q;
  price_high : Q;
  price_center : Q;
  total_size_usd : Q;
  position_count : Z;
  avg_leverage : Q
}.

Record LiquidationMap : Type := {
  map_coin : string;
  current_price : Q;
  long_liquidations : list LiquidationCluster;
  short_liquidations : list LiquidationCluster;
  total_long_at_risk_usd : Q;
  total_short_at_risk_usd : Q;
  nearest_long_cluster : option LiquidationCluster;
  nearest_short_cluster : option LiquidationCluster
}.

(** The instance state of [LiquidationAggregator] that the aggregation
    reads. *)
Record aggregator : Type := {
  bucket_percent : Q;
  min_cluster_size : Q
}.

(** [__init__]. *)
Definition init (bucket_percent_arg min_cluster_size_arg : option Q)
  : aggregator :=
  {| bucket_percent :=
       Py.or_default bucket_percent_arg Config.PRICE_BUCKET_PERCENT;
     min_cluster_size :=
       Py.or_default min_cluster_size_arg Config.MIN_CLUSTER_SIZE_USD |}.

Definition _price_to_bucket (self : aggregator)
  (price reference_price : Q) : Py.result Z :=
  if Qle_bool reference_price 0 then Ok 0%Z
  else
    let pct_diff := ((price - reference_price) / reference_price) * 100 in
    q <- Py.div pct_diff (bucket_percent self) ;;
    Ok (Py.int_of_float q).

Definition _bucket_to_price_range (self : aggregator) (bucket : Z)
  (reference_price : Q) : Q * Q :=
  let pct_low := inject_Z bucket * bucket_percent self in
  let pct_high := inject_Z (bucket + 1) * bucket_percent self in
  let price_low := reference_price * (1 + pct_low / 100) in
  let price_high := reference_price * (1 + pct_high / 100) in
  (price_low, price_high).

(** [buckets[bucket].append(level)] on the [defaultdict(list)]. *)
Fixpoint bucket_append (bucket : Z) (level : LiquidationLevel)
  (buckets : list (Z * list LiquidationLevel))
  : list (Z * list LiquidationLevel) :=
  match buckets with
  | [] => [(bucket, [level])]
  | (b, ls) :: rest =>
      if Z.eqb b bucket then (b, ls ++ [level]) :: rest
      else (b, ls) :: bucket_append bucket level rest
  end.

(** The loop [for level in levels] that fills [buckets]. *)
Fixpoint group_by_bucket (self : aggregator) (reference_price : Q)
  (levels : list LiquidationLevel)
  (buckets : list (Z * list LiquidationLevel))
  : Py.result (list (Z * list LiquidationLevel)) :=
  match levels with
  | [] => Ok buckets
  | level :: rest =>
      bucket <- _price_to_bucket self (level_price level) reference_price ;;
      group_by_bucket self reference_price rest
        (bucket_append bucket level buckets)
  end.

(** Body of [for bucket, bucket_levels in buckets.items()]; [None] is
    [continue].  The divisor [total_size] is at least 10000 where it
    is used, and a bucket is never empty. *)
Definition cluster_of_bucket (self : aggregator) (reference_price : Q)
  (side_arg : string) (bucket : Z) (bucket_levels : list LiquidationLevel)
  : option LiquidationCluster :=
  let total_size := Py.sum (map level_size bucket_levels) in
  if Py.Qltb total_size 10000 then None
  else
    let '(low, high) := _bucket_to_price_range self bucket reference_price in
    let avg :=
      Py.sum (map (fun l => level_leverage l * level_size l) bucket_levels)
      / total_size in
    Some {| coin := match bucket_levels with
                    | l :: _ => level_coin l
                    | [] => Json.JNull
                    end;
            side := side_arg;
            price_low := low;
            price_high := high;
            price_center := (low + high) / 2;
            total_size_usd := total_size;
            position_count := Z.of_nat (List.length bucket_levels);
            avg_leverage := avg |}.

Fixpoint clusters_of_buckets (self : aggregator) (reference_price : Q)
  (side_arg : string) (buckets : list (Z * list LiquidationLevel))
  : list LiquidationCluster :=
  match buckets with
  | [] => []
  | (bucket, bucket_levels) :: rest =>
      match cluster_of_bucket self reference_price side_arg
              bucket bucket_levels with
      | Some c =>
          c :: clusters_of_buckets self reference_price side_arg rest
      | None => clusters_of_buckets self reference_price side_arg rest
      end
  end.

Definition should_merge (self : aggregator) (gap_percent : Q)
  (current next_cluster : LiquidationCluster) : bool :=
  Py.Qltb gap_percent Config.CLUSTER_MERGE_PERCENT
  && Py.Qltb (total_size_usd current) (min_cluster_size self)
  && Py.Qltb (total_size_usd next_cluster) (min_cluster_size self).

(** The loop [for next_cluster in clusters[1:]] and the final
    [merged.append(current)]. *)
Fixpoint merge_loop (self : aggregator) (merged : list LiquidationCluster)
  (current : LiquidationCluster) (rest : list LiquidationCluster)
  : Py.result (list LiquidationCluster) :=
  match rest with
  | [] => Ok (merged ++ [current])
  | next_cluster :: rest' =>
      gap <- Py.div (price_low next_cluster - price_high current)
               (price_center current) ;;
      let gap_percent := gap * 100 in
      if should_merge self gap_percent current next_cluster then
        let total_size :=
          total_size_usd current + total_size_usd next_cluster in
        avg <- Py.div
                 (avg_leverage current * total_size_usd current
                  + avg_leverage next_cluster * total_size_usd next_cluster)
                 total_size ;;
        merge_loop self merged
          {| coin := coin current;
             side := side current;
             price_low := price_low current;
             price_high := price_high next_cluster;
             price_center :=
               (price_low current + price_high next_cluster) / 2;
             total_size_usd := total_size;
             position_count :=
               position_count current + position_count next_cluster;
             avg_leverage := avg |}
          rest'
      else merge_loop self (merged ++ [current]) next_cluster rest'
  end.

Definition _merge_adjacent_clusters (self : aggregator)
  (clusters : list LiquidationCluster)
  : Py.result (list LiquidationCluster) :=
  match clusters with
  | [] | [_] => Ok clusters
  | _ =>
      match Py.sort_by price_center clusters with
      | [] => Ok []
      | current :: rest => merge_loop self [] current rest
      end
  end.

Definition _aggregate_to_clusters (self : aggregator)
  (levels : list LiquidationLevel) (reference_price : Q) (side_arg : string)
  : Py.result (list LiquidationCluster) :=
  match levels with
  | [] => Ok []
  | _ =>
      buckets <- group_by_bucket self reference_price levels [] ;;
      let clusters :=
        clusters_of_buckets self reference_price side_arg buckets in
      _merge_adjacent_clusters self clusters
  end.

Definition nearest_significant (self : aggregator)
  (clusters : list LiquidationCluster) : option LiquidationCluster :=
  find (fun c => Qle_bool (min_cluster_size self) (total_size_usd c))
    clusters.

Definition is_side (s : string) (l : LiquidationLevel) : bool :=
  String.eqb (level_side l) s.

Definition aggregate_levels (self : aggregator)
  (levels : list LiquidationLevel) (current_price_arg : Q)
  (coin_arg : string) : Py.result LiquidationMap :=
  if match levels with [] => true | _ => false end
     || Qle_bool current_price_arg 0
  then
    Ok {| map_coin := coin_arg;
          current_price := current_price_arg;
          long_liquidations := [];
          short_liquidations := [];
          total_long_at_risk_usd := 0;
          total_short_at_risk_usd := 0;
          nearest_long_cluster := None;
          nearest_short_cluster := None |}
  else
    let long_levels := filter (is_side "long") levels in
    let short_levels := filter (is_side "short") levels in
    long_clusters <-
      _aggregate_to_clusters self long_levels current_price_arg "long" ;;
    short_clusters <-
      _aggregate_to_clusters self short_levels current_price_arg "short" ;;
    let long_sorted :=
      Py.sort_by (fun c => current_price_arg - price_center c)
        long_clusters in
    let short_sorted :=
      Py.sort_by (fun c => price_center c - current_price_arg)
        short_clusters in
    Ok {| map_coin := coin_arg;
          current_price := current_price_arg;
          long_liquidations := long_sorted;
          short_liquidations := short_sorted;
          total_long_at_risk_usd :=
            Py.sum (map total_size_usd long_sorted);
          total_short_at_risk_usd :=
            Py.sum (map total_size_usd short_sorted);
          nearest_long_cluster := nearest_significant self long_sorted;
          nearest_short_cluster := nearest_significant self short_sorted |}.

End LiquidationAggregator.

(* ================================================================== *)
(** * The libraries the store calls: [json], [zlib], [base64] *)
(* ================================================================== *)

Module Lib.

(** The calls of [historical_storage.py] into the three libraries.  A
    [bytes] object is a [string] of octets, and so is a [str] (its UTF-8
    octets). *)
Class Libraries : Type := {
  (** [json.dumps(data, separators=(',', ':'))] *)
  json_dumps : Json.value -> Py.result string;
  (** [json.loads(s)] *)
  json_loads : string -> Py.result Json.value;
  (** [zlib.compress(data, level=level)] *)
  zlib_compress : Z -> string -> string;
  (** [zlib.decompress(data)] *)
  zlib_decompress : string -> Py.result string;
  (** [base64.b64encode(data)] *)
  b64encode : string -> string;
  (** [base64.b64decode(s)] *)
  b64decode : string -> Py.result string
}.

Definition byte (c : ascii) : N := N_of_ascii c.

Definition in_range (lo hi : N) (c : ascii) : bool :=
  (lo <=? byte c)%N && (byte c <=? hi)%N.

Definition continuation : ascii -> bool := in_range 128 191.

Fixpoint is_ascii (s : string) : bool :=
  match s with
  | EmptyString => true
  | String c rest => (byte c <? 128)%N && is_ascii rest
  end.

(** Well-formed UTF-8 (Unicode, table 3-7). *)
Fixpoint valid_utf8 (s : string) : bool :=
  match s with
  | EmptyString => true
  | String a r1 =>
      if (byte a <? 128)%N then valid_utf8 r1
      else
        match r1 with
        | EmptyString => false
        | String b r2 =>
            if in_range 194 223 a then continuation b && valid_utf8 r2
            else
              match r2 with
              | EmptyString => false
              | String c r3 =>
                  if in_range 224 239 a then
                    (if (byte a =? 224)%N then in_range 160 191 b
                     else if (byte a =? 237)%N then in_range 128 159 b
                     else continuation b)
                    && continuation c && valid_utf8 r3
                  else
                    match r3 with
                    | EmptyString => false
                    | String d r4 =>
                        in_range 240 244 a
                        && (if (byte a =? 240)%N then in_range 144 191 b
                            else if (byte a =? 244)%N then in_range 128 143 b
                            else continuation b)
                        && continuation c && continuation d
                        && valid_utf8 r4
                    end
              end
        end
  end.

(** [s.encode('utf-8')]: a [str] already is its UTF-8 octets. *)
Definition encode_utf8 (s : string) : string := s.

(** [b.decode('utf-8')] *)
Definition decode_utf8 (b : string) : Py.result string :=
  if valid_utf8 b then Ok b else Py.Raise Py.UnicodeDecodeError.

(** [b.decode('ascii')] *)
Definition decode_ascii (b : string) : Py.result string :=
  if is_ascii b then Ok b else Py.Raise Py.UnicodeDecodeError.

(** [s[n:]] *)
Fixpoint drop (n : nat) (s : string) : string :=
  match n, s with
  | S n', String _ rest => drop n' rest
  | _, _ => s
  end.

(** [s.startswith(p)] *)
Fixpoint startswith (s p : string) {struct p} : bool :=
  match p with
  | EmptyString => true
  | String a p' =>
      match s with
      | String b s' => Ascii.eqb a b && startswith s' p'
      | EmptyString => false
      end
  end.

End Lib.

(* ================================================================== *)
(** * src/historical_storage.py *)
(* ================================================================== *)

Module HistoricalStorage.
Import Lib.

Section Compression.
Context {L : Libraries}.

Definition COMPRESSION_MARKER : string := "ZLIB:".

Definition compress_json (data : Json.value) : Py.result string :=
  dumped <- json_dumps data ;;
  let json_bytes := encode_utf8 dumped in
  let compressed := zlib_compress 6 json_bytes in
  encoded <- decode_ascii (b64encode compressed) ;;
  Ok (COMPRESSION_MARKER ++ encoded)%string.

(** The body of the [try] of the compressed branch, given
    [data[len(COMPRESSION_MARKER):]]. *)
Definition decode_payload (encoded : string) : Py.result Json.value :=
  compressed <- b64decode encoded ;;
  json_bytes <- zlib_decompress compressed ;;
  text <- decode_utf8 json_bytes ;;
  json_loads text.

(** [data] is [None] or a [str]. *)
Definition decompress_json (data : option string) : Py.result Json.value :=
  match data with
  | None => Ok Json.empty_dict
  | Some data =>
      if startswith data COMPRESSION_MARKER then
        Py.try_except
          (decode_payload (drop (String.length COMPRESSION_MARKER) data))
          (fun _ => Ok Json.empty_dict)
      else
        Py.try_except (json_loads data) (fun _ => Ok Json.empty_dict)
  end.

End Compression.

End HistoricalStorage.

(* ================================================================== *)
(** * Reference codecs *)
(* ================================================================== *)

(** Executable counterparts of the library calls, used to evaluate the
    store on concrete rows.  [loads] follows the JSON grammar of
    [json.loads]; [dumps] prints what [json.dumps] prints for integers,
    finite decimals and strings; [b64encode]/[b64decode] are RFC 4648
    with the lenient decoding of [binascii.a2b_base64]; [zlib_store]
    writes a zlib stream of stored blocks, which [zlib.decompress]
    accepts but which is not the output of the level-6 encoder. *)
Module Reference.
Import Lib Json.

Definition quote : ascii := ascii_of_nat 34.
Definition backslash : ascii := ascii_of_nat 92.
Definition chr (n : N) : string := String (ascii_of_N n) EmptyString.

(** ** [json.loads] *)

Definition is_ws (c : ascii) : bool :=
  let n := byte c in
  ((n =? 32) || (n =? 9) || (n =? 10) || (n =? 13))%N.

Fixpoint skip_ws (s : string) : string :=
  match s with
  | String c rest => if is_ws c then skip_ws rest else s
  | EmptyString => s
  end.

Definition hex_val (c : ascii) : option N :=
  let n := byte c in
  if in_range 48 57 c then Some (n - 48)%N
  else if in_range 97 102 c then Some (n - 87)%N
  else if in_range 65 70 c then Some (n - 55)%N
  else None.

Definition hex4 (s : string) : option (N * string) :=
  match s with
  | String a (String b (String c (String d rest))) =>
      match hex_val a, hex_val b, hex_val c, hex_val d with
      | Some x, Some y, Some z, Some w =>
          Some (((x * 16 + y) * 16 + z) * 16 + w, rest)%N
      | _, _, _, _ => None
      end
  | _ => None
  end.

Definition utf8_of_code_point (cp : N) : string :=
  (if cp <? 128 then chr cp
   else if cp <? 2048 then chr (192 + cp / 64) ++ chr (128 + cp mod 64)
   else if cp <? 65536 then
     chr (224 + cp / 4096) ++ chr (128 + (cp / 64) mod 64)
     ++ chr (128 + cp mod 64)
   else
     chr (240 + cp / 262144) ++ chr (128 + (cp / 4096) mod 64)
     ++ chr (128 + (cp / 64) mod 64) ++ chr (128 + cp mod 64))%N%string.

Definition simple_escape (e : ascii) : option string :=
  if Ascii.eqb e quote then Some (String quote EmptyString)
  else if Ascii.eqb e backslash then Some (String backslash EmptyString)
  else if Ascii.eqb e "/" then Some "/"%string
  else if Ascii.eqb e "b" then Some (chr 8)
  else if Ascii.eqb e "f" then Some (chr 12)
  else if Ascii.eqb e "n" then Some (chr 10)
  else if Ascii.eqb e "r" then Some (chr 13)
  else if Ascii.eqb e "t" then Some (chr 9)
  else None.

(** A [\uXXXX] escape, after the [u]: one code point, or a surrogate
    pair.  A lone surrogate has no UTF-8 form and is refused here. *)
Definition unicode_escape (s : string) : option (string * string) :=
  match hex4 s with
  | None => None
  | Some (hi, r1) =>
      if ((55296 <=? hi) && (hi <=? 56319))%N then
        match r1 with
        | String b (String u r2) =>
            if Ascii.eqb b backslash && Ascii.eqb u "u" then
              match hex4 r2 with
              | Some (lo, r3) =>
                  if ((56320 <=? lo) && (lo <=? 57343))%N then
                    Some (utf8_of_code_point
                            (65536 + (hi - 55296) * 1024 + (lo - 56320))%N,
                          r3)
                  else None
              | None => None
              end
            else None
        | _ => None
        end
      else if ((56320 <=? hi) && (hi <=? 57343))%N then None
      else Some (utf8_of_code_point hi, r1)
  end.

(** The characters of a string literal after its opening quote. *)
Fixpoint string_body (fuel : nat) (s acc : string)
  : option (string * string) :=
  match fuel with
  | O => None
  | S fuel' =>
      match s with
      | EmptyString => None
      | String c rest =>
          if Ascii.eqb c quote then Some (acc, rest)
          else if Ascii.eqb c backslash then
            match rest with
            | EmptyString => None
            | String e rest' =>
                if Ascii.eqb e "u" then
                  match unicode_escape rest' with
                  | Some (bytes, r) =>
                      string_body fuel' r (acc ++ bytes)%string
                  | None => None
                  end
                else
                  match simple_escape e with
                  | Some bytes =>
                      string_body fuel' rest' (acc ++ bytes)%string
                  | None => None
                  end
            end
          else if (byte c <? 32)%N then None
          else string_body fuel' rest (acc ++ String c EmptyString)%string
      end
  end.

(** A JSON number: an optional minus sign, an integer part without
    leading zeros, an optional fraction, an optional exponent.  A dot
    or an exponent mark that no digit follows is left unread. *)
Definition json_number (s : string) : option (Q * string) :=
  let '(neg, s1) :=
    match s with
    | String "-"%char r => (true, r)
    | _ => (false, s)
    end in
  let '(ip, ni, s2) :=
    match s1 with
    | String "0"%char r => (0%Z, 1%nat, r)
    | _ => digits s1 0%Z 0%nat
    end in
  match ni with
  | O => None
  | _ =>
      let '(fp, nf, s3) :=
        match s2 with
        | String "."%char r =>
            let '(f, n, r') := digits r 0%Z 0%nat in
            match n with
            | O => (0%Z, 0%nat, s2)
            | _ => (f, n, r')
            end
        | _ => (0%Z, 0%nat, s2)
        end in
      let '(e, s4) :=
        match s3 with
        | String c r =>
            if (Ascii.eqb c "e" || Ascii.eqb c "E")%bool then
              let '(eneg, r1) := sign r in
              let '(ev, n, r2) := digits r1 0%Z 0%nat in
              match n with
              | O => (0%Z, s3)
              | _ => (if eneg then (- ev)%Z else ev, r2)
              end
            else (0%Z, s3)
        | EmptyString => (0%Z, s3)
        end in
      let m := (inject_Z ip + inject_Z fp * pow10 (- Z.of_nat nf))
               * pow10 e in
      Some (Qred (if neg then - m else m), s4)
  end.

Definition literal (word : string) (v : value) (s : string)
  : option (value * string) :=
  if startswith s word then Some (v, drop (String.length word) s)
  else None.

Fixpoint parse_value (fuel : nat) (s : string) : option (value * string) :=
  match fuel with
  | O => None
  | S fuel' =>
      match skip_ws s with
      | EmptyString => None
      | String c rest =>
          if Ascii.eqb c "{" then
            match skip_ws rest with
            | String "}"%char r => Some (JObj [], r)
            | r => parse_members fuel' r []
            end
          else if Ascii.eqb c "[" then
            match skip_ws rest with
            | String "]"%char r => Some (JArr [], r)
            | r => parse_elements fuel' r []
            end
          else if Ascii.eqb c quote then
            match string_body (S (String.length rest)) rest EmptyString with
            | Some (str, r) => Some (JStr str, r)
            | None => None
            end
          else if Ascii.eqb c "t" then
            literal "true" (JBool true) (String c rest)
          else if Ascii.eqb c "f" then
            literal "false" (JBool false) (String c rest)
          else if Ascii.eqb c "n" then
            literal "null" JNull (String c rest)
          else
            match json_number (String c rest) with
            | Some (q, r) => Some (JNum q, r)
            | None => None
            end
      end
  end

with parse_elements (fuel : nat) (s : string) (acc : list value)
  : option (value * string) :=
  match fuel with
  | O => None
  | S fuel' =>
      match parse_value fuel' s with
      | None => None
      | Some (v, r) =>
          match skip_ws r with
          | String ","%char r' => parse_elements fuel' r' (acc ++ [v])
          | String "]"%char r' => Some (JArr (acc ++ [v]), r')
          | _ => None
          end
      end
  end

with parse_members (fuel : nat) (s : string) (acc : list (string * value))
  : option (value * string) :=
  match fuel with
  | O => None
  | S fuel' =>
      match skip_ws s with
      | String c rest =>
          if Ascii.eqb c quote then
            match string_body (S (String.length rest)) rest EmptyString with
            | None => None
            | Some (k, r) =>
                match skip_ws r with
                | String ":"%char r1 =>
                    match parse_value fuel' r1 with
                    | None => None
                    | Some (v, r2) =>
                        match skip_ws r2 with
                        | String ","%char r3 =>
                            parse_members fuel' r3 (update k v acc)
                        | String "}"%char r3 =>
                            Some (JObj (update k v acc), r3)
                        | _ => None
                        end
                    end
                | _ => None
                end
            end
          else None
      | EmptyString => None
      end
  end.

Definition loads (s : string) : Py.result value :=
  match parse_value (2 * String.length s + 2) s with
  | Some (v, rest) =>
      match skip_ws rest with
      | EmptyString => Ok v
      | _ => Py.Raise Py.JSONDecodeError
      end
  | None => Py.Raise Py.JSONDecodeError
  end.

(** ** [json.dumps] with compact separators *)

Definition hex_digit (n : N) : string :=
  chr (if (n <? 10)%N then 48 + n else 87 + n)%N.

Definition hex4_of (n : N) : string :=
  (hex_digit (n / 4096 mod 16) ++ hex_digit (n / 256 mod 16)
   ++ hex_digit (n / 16 mod 16) ++ hex_digit (n mod 16))%N%string.

Definition u_escape (n : N) : string :=
  (String backslash "u" ++ hex4_of n)%string.

(** [\uXXXX] for a code point; a surrogate pair above the BMP. *)
Definition escape_code_point (cp : N) : string :=
  if (cp <? 65536)%N then u_escape cp
  else
    let v := (cp - 65536)%N in
    (u_escape (55296 + v / 1024) ++ u_escape (56320 + v mod 1024))%N%string.

(** The code point at the head of well-formed UTF-8. *)
Definition code_point (s : string) : option (N * string) :=
  match s with
  | EmptyString => None
  | String a r1 =>
      let x := byte a in
      if (x <? 128)%N then Some (x, r1)
      else
        match r1 with
        | EmptyString => None
        | String b r2 =>
            let y := (byte b mod 64)%N in
            if (x <? 224)%N then Some (((x mod 32) * 64 + y)%N, r2)
            else
              match r2 with
              | EmptyString => None
              | String c r3 =>
                  let z := (byte c mod 64)%N in
                  if (x <? 240)%N then
                    Some ((((x mod 16) * 64 + y) * 64 + z)%N, r3)
                  else
                    match r3 with
                    | EmptyString => None
                    | String d r4 =>
                        let w := (byte d mod 64)%N in
                        Some (((((x mod 8) * 64 + y) * 64 + z) * 64 + w)%N,
                              r4)
                    end
              end
        end
  end.

(** The inside of a string literal with [ensure_ascii]. *)
Fixpoint escape (fuel : nat) (s : string) : string :=
  match fuel with
  | O => EmptyString
  | S fuel' =>
      match code_point s with
      | None => EmptyString
      | Some (cp, rest) =>
          ((if (cp =? 34)%N then String backslash (String quote EmptyString)
            else if (cp =? 92)%N then
              String backslash (String backslash EmptyString)
            else if (cp =? 10)%N then String backslash "n"
            else if (cp =? 13)%N then String backslash "r"
            else if (cp =? 9)%N then String backslash "t"
            else if (cp =? 8)%N then String backslash "b"
            else if (cp =? 12)%N then String backslash "f"
            else if ((32 <=? cp) && (cp <=? 126))%N then chr cp
            else escape_code_point cp)
           ++ escape fuel' rest)%string
      end
  end.

Definition dumps_string (s : string) : string :=
  (String quote (escape (String.length s) s)
   ++ String quote EmptyString)%string.

Definition decimal (n : N) : string := NilZero.string_of_uint (N.to_uint n).

(** The least [k <= fuel] with [d] dividing [10 ^ k]. *)
Fixpoint decimal_places (fuel : nat) (d : Z) (k : nat) : option nat :=
  if ((10 ^ Z.of_nat k) mod d =? 0)%Z then Some k
  else match fuel with
       | O => None
       | S fuel' => decimal_places fuel' d (S k)
       end.

(** Integers as [int] prints them, other finite decimals digit by digit;
    a rational with no finite decimal expansion is not a float. *)
Definition dumps_number (q : Q) : Py.result string :=
  let r := Qred q in
  let n := Qnum r in
  let d := Zpos (Qden r) in
  let sgn := if (n <? 0)%Z then "-"%string else EmptyString in
  match decimal_places 1100 d 0 with
  | None => Py.Raise Py.ValueError
  | Some O => Ok (sgn ++ decimal (Z.to_N (Z.abs n)))%string
  | Some k =>
      let scaled := (Z.abs n * 10 ^ Z.of_nat k / d)%Z in
      let whole := (scaled / 10 ^ Z.of_nat k)%Z in
      let part := (scaled mod 10 ^ Z.of_nat k)%Z in
      Ok (sgn ++ decimal (Z.to_N whole) ++ "."
          ++ drop 1 (decimal (Z.to_N (10 ^ Z.of_nat k + part))))%string
  end.

Fixpoint dumps (v : value) : Py.result string :=
  match v with
  | JNull => Ok "null"%string
  | JBool true => Ok "true"%string
  | JBool false => Ok "false"%string
  | JNum q => dumps_number q
  | JStr s => Ok (dumps_string s)
  | JArr items =>
      body <-
        (fix go (l : list value) (first : bool) : Py.result string :=
           match l with
           | [] => Ok EmptyString
           | x :: rest =>
               sx <- dumps x ;;
               srest <- go rest false ;;
               Ok ((if first then EmptyString else ","%string)
                   ++ sx ++ srest)%string
           end) items true ;;
      Ok ("[" ++ body ++ "]")%string
  | JObj fields =>
      body <-
        (fix go (l : list (string * value)) (first : bool)
           : Py.result string :=
           match l with
           | [] => Ok EmptyString
           | (k, x) :: rest =>
               sx <- dumps x ;;
               srest <- go rest false ;;
               Ok ((if first then EmptyString else ","%string)
                   ++ dumps_string k ++ ":" ++ sx ++ srest)%string
           end) fields true ;;
      Ok ("{" ++ body ++ "}")%string
  end.

(** ** [base64] *)

Definition b64_char (i : N) : string :=
  chr (if (i <? 26)%N then 65 + i
       else if (i <? 52)%N then 71 + i
       else if (i <? 62)%N then i - 4
       else if (i =? 62)%N then 43 else 47)%N.

Definition b64_index (c : ascii) : option N :=
  let n := byte c in
  if in_range 65 90 c then Some (n - 65)%N
  else if in_range 97 122 c then Some (n - 71)%N
  else if in_range 48 57 c then Some (n + 4)%N
  else if (n =? 43)%N then Some 62%N
  else if (n =? 47)%N then Some 63%N
  else None.

Fixpoint b64encode (s : string) : string :=
  match s with
  | EmptyString => EmptyString
  | String a EmptyString =>
      let x := byte a in
      (b64_char (x / 4) ++ b64_char (x mod 4 * 16) ++ "==")%N%string
  | String a (String b EmptyString) =>
      let x := byte a in
      let y := byte b in
      (b64_char (x / 4) ++ b64_char (x mod 4 * 16 + y / 16)
       ++ b64_char (y mod 16 * 4) ++ "=")%N%string
  | String a (String b (String c rest)) =>
      let x := byte a in
      let y := byte b in
      let z := byte c in
      (b64_char (x / 4) ++ b64_char (x mod 4 * 16 + y / 16)
       ++ b64_char (y mod 16 * 4 + z / 64) ++ b64_char (z mod 64)
       ++ b64encode rest)%N%string
  end.

(** The decoding loop of [binascii.a2b_base64] without [strict_mode]:
    [quad_pos] counts the data characters of the current group of four,
    [left] holds the bits not yet written, [pads] the padding
    characters seen since the last data character. *)
Fixpoint b64decode_loop (s : string) (quad_pos left pads : N) (out : string)
  : Py.result string :=
  match s with
  | EmptyString =>
      if (quad_pos =? 0)%N then Ok out else Py.Raise Py.BinasciiError
  | String c rest =>
      if Ascii.eqb c "=" then
        if ((2 <=? quad_pos) && (4 - quad_pos <=? pads + 1))%N then Ok out
        else b64decode_loop rest quad_pos left
               (if (2 <=? quad_pos)%N then pads + 1 else pads)%N out
      else
        match b64_index c with
        | None => b64decode_loop rest quad_pos left pads out
        | Some v =>
            if (quad_pos =? 0)%N then b64decode_loop rest 1 v 0 out
            else if (quad_pos =? 1)%N then
              b64decode_loop rest 2 (v mod 16) 0
                (out ++ chr (left * 4 + v / 16))%N%string
            else if (quad_pos =? 2)%N then
              b64decode_loop rest 3 (v mod 4) 0
                (out ++ chr (left * 16 + v / 4))%N%string
            else
              b64decode_loop rest 0 0 0
                (out ++ chr (left * 64 + v))%N%string
        end
  end.

Definition b64decode (s : string) : Py.result string :=
  b64decode_loop s 0 0 0 EmptyString.

(** ** A zlib stream of stored blocks *)

Fixpoint adler32_loop (s : string) (a b : N) : N :=
  match s with
  | EmptyString => (b * 65536 + a)%N
  | String c rest =>
      let a' := ((a + byte c) mod 65521)%N in
      adler32_loop rest a' ((b + a') mod 65521)%N
  end.

Definition adler32 (s : string) : N := adler32_loop s 1 0.

Definition le16 (n : N) : string := (chr (n mod 256) ++ chr (n / 256))%N%string.

Definition be32 (n : N) : string :=
  (chr (n / 16777216) ++ chr (n / 65536 mod 256) ++ chr (n / 256 mod 256)
   ++ chr (n mod 256))%N%string.

Fixpoint take (n : nat) (s : string) : string :=
  match n, s with
  | S n', String c rest => String c (take n' rest)
  | _, _ => EmptyString
  end.

(** Stored blocks of at most 65535 octets, the last one marked final. *)
Fixpoint stored_blocks (fuel : nat) (s : string) : string :=
  let len := N.of_nat (String.length s) in
  match fuel with
  | O => EmptyString
  | S fuel' =>
      if (len <=? 65535)%N then
        (chr 1 ++ le16 len ++ le16 (65535 - len) ++ s)%string
      else
        (chr 0 ++ le16 65535 ++ le16 0 ++ take (N.to_nat 65535) s
         ++ stored_blocks fuel' (drop (N.to_nat 65535) s))%string
  end.

(** The level only names the encoder's effort; this encoder stores. *)
Definition zlib_store (level : Z) (s : string) : string :=
  (chr 120 ++ chr 156 ++ stored_blocks (S (String.length s)) s
   ++ be32 (adler32 s))%string.

Fixpoint inflate_stored (fuel : nat) (s out : string)
  : Py.result (string * string) :=
  match fuel with
  | O => Py.Raise Py.ZlibError
  | S fuel' =>
      match s with
      | String h (String l0 (String l1 (String n0 (String n1 rest)))) =>
          let len := (byte l0 + 256 * byte l1)%N in
          let nlen := (byte n0 + 256 * byte n1)%N in
          if negb (byte h / 2 =? 0)%N then Py.Raise Py.ZlibError
          else if negb (len + nlen =? 65535)%N then Py.Raise Py.ZlibError
          else if (String.length rest <? N.to_nat len)%nat then
            Py.Raise Py.ZlibError
          else
            let out' := (out ++ take (N.to_nat len) rest)%string in
            let rest' := drop (N.to_nat len) rest in
            if (byte h mod 2 =? 1)%N then Ok (out', rest')
            else inflate_stored fuel' rest' out'
      | _ => Py.Raise Py.ZlibError
      end
  end.

(** Inflation of streams whose blocks are all stored. *)
Definition zlib_inflate (s : string) : Py.result string :=
  match s with
  | String cmf (String flg body) =>
      if negb ((byte cmf mod 16 =? 8)%N
               && ((byte cmf * 256 + byte flg) mod 31 =? 0)%N
               && (byte flg / 32 mod 2 =? 0)%N)
      then Py.Raise Py.ZlibError
      else
        r <- inflate_stored (S (String.length body)) body EmptyString ;;
        let '(out, trailer) := r in
        if String.eqb (take 4 trailer) (be32 (adler32 out)) then Ok out
        else Py.Raise Py.ZlibError
  | _ => Py.Raise Py.ZlibError
  end.

#[export] Instance libraries : Libraries := {
  json_dumps := dumps;
  json_loads := loads;
  zlib_compress := zlib_store;
  zlib_decompress := zlib_inflate;
  b64encode := b64encode;
  b64decode := b64decode
}.

End Reference.

(* ================================================================== *)
(** * Timestamps: what Python writes and what SQLite computes *)
(* ================================================================== *)

Module Clock.

(** An instant is a number of seconds since 1970-01-01T00:00:00Z. *)
Definition instant : Type := Z.

Definition day : Z := 86400.
Definition hour : Z := 3600.

Record civil : Type := {
  year : Z; month : Z; mday : Z; hh : Z; mm : Z; ss : Z
}.

(** Days since the epoch to a date of the proleptic Gregorian
    calendar. *)
Definition date_of_days (days : Z) : Z * Z * Z :=
  let z := (days + 719468)%Z in
  let era := (z / 146097)%Z in
  let doe := (z - era * 146097)%Z in
  let yoe := ((doe - doe / 1460 + doe / 36524 - doe / 146096) / 365)%Z in
  let doy := (doe - (365 * yoe + yoe / 4 - yoe / 100))%Z in
  let mp := ((5 * doy + 2) / 153)%Z in
  let d := (doy - (153 * mp + 2) / 5 + 1)%Z in
  let m := (if mp <? 10 then mp + 3 else mp - 9)%Z in
  let y := (yoe + era * 400)%Z in
  ((if m <=? 2 then y + 1 else y)%Z, m, d).

Definition days_of_date (y m d : Z) : Z :=
  let y' := (if m <=? 2 then y - 1 else y)%Z in
  let era := (y' / 400)%Z in
  let yoe := (y' - era * 400)%Z in
  let mp := (if 2 <? m then m - 3 else m + 9)%Z in
  let doy := ((153 * mp + 2) / 5 + d - 1)%Z in
  let doe := (yoe * 365 + yoe / 4 - yoe / 100 + doy)%Z in
  (era * 146097 + doe - 719468)%Z.

Definition civil_of_instant (t : instant) : civil :=
  let '(y, m, d) := date_of_days (t / day) in
  let r := (t mod day)%Z in
  {| year := y; month := m; mday := d;
     hh := (r / 3600)%Z; mm := (r / 60 mod 60)%Z; ss := (r mod 60)%Z |}.

Definition instant_of (y m d h mi s : Z) : instant :=
  (days_of_date y m d * day + h * 3600 + mi * 60 + s)%Z.

(** [n] in decimal, left-padded with zeros to [width] digits. *)
Definition pad (width : nat) (n : Z) : string :=
  let digits := NilZero.string_of_uint (N.to_uint (Z.to_N n)) in
  (fix zeros (k : nat) : string :=
     match k with
     | O => digits
     | S k' => String "0" (zeros k')
     end) (width - String.length digits)%nat.

Definition date_text (c : civil) : string :=
  (pad 4 (year c) ++ "-" ++ pad 2 (month c) ++ "-" ++ pad 2 (mday c))%string.

Definition time_text (c : civil) : string :=
  (pad 2 (hh c) ++ ":" ++ pad 2 (mm c) ++ ":" ++ pad 2 (ss c))%string.

(** [datetime.isoformat()] of a UTC datetime: [T] between date and time,
    six digits of microseconds unless they are zero, and the offset
    [+00:00] when the datetime is timezone-aware (as the collector's
    [datetime.now(timezone.utc)] is). *)
Definition isoformat (t : instant) (microsecond : Z) (aware : bool)
  : string :=
  let c := civil_of_instant t in
  (date_text c ++ "T" ++ time_text c
   ++ (if (microsecond =? 0)%Z then EmptyString
       else "." ++ pad 6 microsecond)
   ++ (if aware then "+00:00" else EmptyString))%string.

End Clock.

(* ================================================================== *)
(** * The SQLite functions and comparisons of the maintenance script *)
(* ================================================================== *)

Module Sqlite.
Import Clock.

(** [datetime('now', '-N days')] evaluated at instant [now]: the text
    [YYYY-MM-DD HH:MM:SS]. *)
Definition datetime_now (now : instant) (minus_days : Z) : string :=
  let c := civil_of_instant (now - minus_days * day)%Z in
  (date_text c ++ " " ++ time_text c)%string.

(** [a < b] and [a >= b] on TEXT values: byte order (BINARY collation). *)
Definition text_lt (a b : string) : bool := String.ltb a b.
Definition text_ge (a b : string) : bool := negb (String.ltb a b).

Definition two_digits (s : string) : option (Z * string) :=
  match s with
  | String a (String b rest) =>
      if Json.is_digit a && Json.is_digit b
      then Some ((Json.digit_val a * 10 + Json.digit_val b)%Z, rest)
      else None
  | _ => None
  end.

Definition expect (c : ascii) (s : string) : option string :=
  match s with
  | String x rest => if Ascii.eqb x c then Some rest else None
  | EmptyString => None
  end.

Fixpoint skip_digits (s : string) : string :=
  match s with
  | String c rest => if Json.is_digit c then skip_digits rest else s
  | EmptyString => s
  end.

(** The zone suffix of a time: nothing, [Z], or [+HH:MM] / [-HH:MM];
    the result is the offset in minutes. *)
Definition zone (s : string) : option Z :=
  match Json.skip_blanks s with
  | EmptyString => Some 0%Z
  | String c rest =>
      if (Ascii.eqb c "Z" || Ascii.eqb c "z")%bool then
        match Json.skip_blanks rest with
        | EmptyString => Some 0%Z
        | _ => None
        end
      else if (Ascii.eqb c "+" || Ascii.eqb c "-")%bool then
        match two_digits rest with
        | Some (h, r1) =>
            match expect ":" r1 with
            | Some r2 =>
                match two_digits r2 with
                | Some (m, r3) =>
                    match Json.skip_blanks r3 with
                    | EmptyString =>
                        if ((h <=? 14) && (m <=? 59))%Z then
                          Some (if Ascii.eqb c "-" then - (h * 60 + m)
                                else h * 60 + m)%Z
                        else None
                    | _ => None
                    end
                | None => None
                end
            | None => None
            end
        | None => None
        end
      else None
  end.

(** The minute of the day, in UTC, of a timestamp text in one of the
    forms [YYYY-MM-DD], [YYYY-MM-DD HH:MM], [YYYY-MM-DD HH:MM:SS] and
    [YYYY-MM-DD HH:MM:SS.SSS], with a blank or [T] before the time and
    an optional zone suffix; [None] (SQL NULL) for a text that is not a
    date.  Time-only texts, Julian day numbers and [now] are not
    modelled. *)
Definition minute_of_day (ts : string) : option Z :=
  match two_digits ts with
  | None => None
  | Some (y1, r0) =>
  match two_digits r0 with
  | None => None
  | Some (y2, r1) =>
  match expect "-" r1 with
  | None => None
  | Some r2 =>
  match two_digits r2 with
  | None => None
  | Some (mo, r3) =>
  match expect "-" r3 with
  | None => None
  | Some r4 =>
  match two_digits r4 with
  | None => None
  | Some (d, r5) =>
      if negb ((1 <=? mo) && (mo <=? 12) && (1 <=? d) && (d <=? 31))%Z
      then None
      else
        match r5 with
        | EmptyString => Some 0%Z
        | String sep r6 =>
            if negb (Ascii.eqb sep " " || Ascii.eqb sep "T")%bool then None
            else
              match two_digits r6 with
              | None => None
              | Some (h, r7) =>
              match expect ":" r7 with
              | None => None
              | Some r8 =>
              match two_digits r8 with
              | None => None
              | Some (mi, r9) =>
                  if negb ((h <=? 24) && (mi <=? 59))%Z then None
                  else
                    let after_seconds :=
                      match expect ":" r9 with
                      | None => Some r9
                      | Some r10 =>
                          match two_digits r10 with
                          | None => None
                          | Some (s, r11) =>
                              if negb (s <=? 59)%Z then None
                              else
                                match r11 with
                                | String "."%char
                                    (String f r12) =>
                                    if Json.is_digit f
                                    then Some (skip_digits r12)
                                    else Some r11
                                | _ => Some r11
                                end
                          end
                      end in
                    match after_seconds with
                    | None => None
                    | Some r =>
                        match zone r with
                        | None => None
                        | Some offset =>
                            Some ((h * 60 + mi - offset) mod 1440)%Z
                        end
                    end
              end end end
        end
  end end end end end end.

(** [strftime('%H', ts)] and [strftime('%M', ts)]. *)
Definition strftime_H (ts : string) : option string :=
  option_map (fun m => pad 2 (m / 60)%Z) (minute_of_day ts).

Definition strftime_M (ts : string) : option string :=
  option_map (fun m => pad 2 (m mod 60)%Z) (minute_of_day ts).

(** [x != 'lit'] in a WHERE clause: a NULL operand does not select the
    row. *)
Definition differs (x : option string) (lit : string) : bool :=
  match x with
  | Some v => negb (String.eqb v lit)
  | None => false
  end.

End Sqlite.

(* ================================================================== *)
(** * scripts/db_maintenance.py *)
(* ================================================================== *)

Module DbMaintenance.
Import Clock Sqlite.

(** A row of [snapshots] or of [price_history], as far as retention
    reads it. *)
Record row : Type := {
  timestamp : string;
  coin : string
}.

Record database : Type := {
  snapshots : list row;
  price_history : list row
}.

(** The WHERE clauses of the three steps, at the instant [now] of the
    run. *)
Definition older_than_30_days (now : instant) (r : row) : bool :=
  text_lt (timestamp r) (datetime_now now 30).

Definition non_noon_7_to_30_days (now : instant) (r : row) : bool :=
  text_lt (timestamp r) (datetime_now now 7)
  && text_ge (timestamp r) (datetime_now now 30)
  && differs (strftime_H (timestamp r)) "12".

Definition non_hourly_1_to_7_days (now : instant) (r : row) : bool :=
  text_lt (timestamp r) (datetime_now now 1)
  && text_ge (timestamp r) (datetime_now now 7)
  && differs (strftime_M (timestamp r)) "00".

(** The count of the rows a WHERE clause selects, and the table after
    a DELETE with that clause. *)
Definition count_where (p : row -> bool) (table : list row) : nat :=
  List.length (filter p table).

Definition delete_where (p : row -> bool) (table : list row) : list row :=
  filter (fun r => negb (p r)) table.

(** A step on [snapshots]: count, then delete unless it is a dry run
    or nothing was counted. *)
Definition step (dry_run : bool) (p : row -> bool) (table : list row)
  : list row :=
  let found := count_where p table in
  if negb dry_run && (0 <? found)%nat then delete_where p table else table.

Definition run_maintenance (now : instant) (dry_run : bool) (db : database)
  : database :=
  let s1 := step dry_run (older_than_30_days now) (snapshots db) in
  let s2 := step dry_run (non_noon_7_to_30_days now) s1 in
  let s3 := step dry_run (non_hourly_1_to_7_days now) s2 in
  let p3 :=
    if dry_run then price_history db
    else
      delete_where (non_hourly_1_to_7_days now)
        (delete_where (non_noon_7_to_30_days now)
           (delete_where (older_than_30_days now) (price_history db))) in
  {| snapshots := s3; price_history := p3 |}.

(** The age of a row written at instant [written]. *)
Definition age (now written : instant) : Z := (now - written)%Z.

(** The retention invariant for a row written at [written]. *)
Definition retained_by_policy (now written : instant) (r : row) : Prop :=
  (age now written <= 1 * day)%Z
  \/ ((1 * day < age now written <= 7 * day)%Z
      /\ strftime_M (timestamp r) = Some "00"%string)
  \/ ((7 * day < age now written <= 30 * day)%Z
      /\ strftime_H (timestamp r) = Some "12"%string).

(** The row the collector writes for a cycle that starts at [written]
    (the store receives [datetime.now(timezone.utc)]). *)
Definition collector_row (written : instant) (microsecond : Z) (c : string)
  : row :=
  {| timestamp := isoformat written microsecond true; coin := c |}.

End DbMaintenance.

(* ================================================================== *)
(** * src/liquidation_aggregator.py: the maps of all coins *)
(* ================================================================== *)

Module LiquidationMaps.
Import Json LiquidationAggregator.
Local Open Scope string_scope.

(** The property [LiquidationCluster.price_range_percent]. *)
Definition price_range_percent (c : LiquidationCluster) : Py.result Q :=
  q <- Py.div (price_high c - price_low c) (price_center c) ;;
  Ok (q * 100).

(** [dataclasses.asdict] on a cluster. *)
Definition asdict (c : LiquidationCluster) : value :=
  JObj [("coin", coin c);
        ("side", JStr (side c));
        ("price_low", JNum (price_low c));
        ("price_high", JNum (price_high c));
        ("price_center", JNum (price_center c));
        ("total_size_usd", JNum (total_size_usd c));
        ("position_count", JNum (inject_Z (position_count c)));
        ("avg_leverage", JNum (avg_leverage c))].

(** [asdict(c) if c else None]: a dataclass instance is always true. *)
Definition asdict_or_none (c : option LiquidationCluster) : value :=
  match c with
  | Some c' => asdict c'
  | None => JNull
  end.

(** [LiquidationMap.to_dict]: the items of the dictionary, and the
    dictionary. *)
Definition to_dict_items (m : LiquidationMap) : list (string * value) :=
  [("coin", JStr (map_coin m));
   ("current_price", JNum (current_price m));
   ("long_liquidations", JArr (map asdict (long_liquidations m)));
   ("short_liquidations", JArr (map asdict (short_liquidations m)));
   ("total_long_at_risk_usd", JNum (total_long_at_risk_usd m));
   ("total_short_at_risk_usd", JNum (total_short_at_risk_usd m));
   ("nearest_long_cluster", asdict_or_none (nearest_long_cluster m));
   ("nearest_short_cluster", asdict_or_none (nearest_short_cluster m))].

Definition to_dict (m : LiquidationMap) : value := JObj (to_dict_items m).

(** A [Dict[str, V]] in insertion order: [d.get(k)] and [d[k] = v]. *)
Section Dict.
Variable V : Type.

Fixpoint dict_get (k : string) (d : list (string * V)) : option V :=
  match d with
  | [] => None
  | (k', v) :: rest => if String.eqb k k' then Some v else dict_get k rest
  end.

Fixpoint dict_set (k : string) (v : V) (d : list (string * V))
  : list (string * V) :=
  match d with
  | [] => [(k, v)]
  | (k', v') :: rest =>
      if String.eqb k k' then (k', v) :: rest
      else (k', v') :: dict_set k v rest
  end.
End Dict.

(** [prices.get(coin, default)] on a [Dict[str, float]]: a key that is
    not a string equals no key of [prices]. *)
Definition prices_get (prices : list (string * Q)) (coin_key : value)
  (default : Q) : Q :=
  match coin_key with
  | JStr c =>
      match dict_get c prices with
      | Some p => p
      | None => default
      end
  | _ => default
  end.

(** [levels_by_coin[level.coin].append(level)] on the
    [defaultdict(list)]. *)
Fixpoint coin_append (c : value) (level : LiquidationLevel)
  (groups : list (value * list LiquidationLevel))
  : list (value * list LiquidationLevel) :=
  match groups with
  | [] => [(c, [level])]
  | (c', ls) :: rest =>
      if key_eqb c' c then (c', (ls ++ [level])%list) :: rest
      else (c', ls) :: coin_append c level rest
  end.

(** The loop [for level in all_levels]; a coin that cannot be hashed
    cannot be a key. *)
Fixpoint group_by_coin (all_levels : list LiquidationLevel)
  (groups : list (value * list LiquidationLevel))
  : Py.result (list (value * list LiquidationLevel)) :=
  match all_levels with
  | [] => Ok groups
  | level :: rest =>
      if hashable (level_coin level) then
        group_by_coin rest (coin_append (level_coin level) level groups)
      else Py.Raise Py.TypeError
  end.

(** The loop [for coin, levels in levels_by_coin.items()]; [maps] is
    [self.liquidation_maps].  [aggregate_levels] receives the key as
    its [coin]; a key with a positive price is a string. *)
Fixpoint build_maps (self : aggregator)
  (groups : list (value * list LiquidationLevel))
  (prices : list (string * Q)) (maps : list (string * LiquidationMap))
  : Py.result (list (string * LiquidationMap)) :=
  match groups with
  | [] => Ok maps
  | (coin_key, levels) :: rest =>
      let price := prices_get prices coin_key 0 in
      if Py.Qltb 0 price then
        match coin_key with
        | JStr c =>
            m <- aggregate_levels self levels price c ;;
            build_maps self rest prices (dict_set c m maps)
        | _ => build_maps self rest prices maps
        end
      else build_maps self rest prices maps
  end.

(** [build_maps_from_levels]: the value of [self.liquidation_maps]
    that the call stores and returns. *)
Definition build_maps_from_levels (self : aggregator)
  (all_levels : list LiquidationLevel) (prices : list (string * Q))
  : Py.result (list (string * LiquidationMap)) :=
  levels_by_coin <- group_by_coin all_levels [] ;;
  build_maps self levels_by_coin prices [].

(** [config.ALERT_CLUSTER_SIZE_USD]: the [Config] dataclass declares no
    such field and nothing sets one, so the attribute read raises. *)
Definition ALERT_CLUSTER_SIZE_USD : Py.result Q :=
  Py.Raise Py.AttributeError.

(** The [reason] text of a signal, kept as its template and the two
    numbers it prints. *)
Record reason : Type := {
  template : string;
  size_in_millions : Q;
  at_price : Q
}.

(** The dictionary appended to [signals]. *)
Record signal : Type := {
  signal_coin : string;
  signal_direction : string;
  signal_reason : reason;
  target : Q;
  distance_percent : Q;
  cluster_size_usd : Q;
  signal_current_price : Q
}.

(** [0.5 <= distance_pct <= 3.0] *)
Definition in_alert_band (distance_pct : Q) : bool :=
  Qle_bool 0.5 distance_pct && Qle_bool distance_pct 3.

(** The block under [if liq_map.nearest_short_cluster:] ([short_side])
    and the one under [if liq_map.nearest_long_cluster:]. *)
Definition check_cluster (short_side : bool) (c : string)
  (current : Q) (cluster : LiquidationCluster) (signals : list signal)
  : Py.result (list signal) :=
  let diff :=
    if short_side then price_center cluster - current
    else current - price_center cluster in
  d <- Py.div diff current ;;
  let distance_pct := d * 100 in
  if in_alert_band distance_pct then
    alert <- ALERT_CLUSTER_SIZE_USD ;;
    if Qle_bool alert (total_size_usd cluster) then
      Ok (List.app signals
          [{| signal_coin := c;
              signal_direction := if short_side then "LONG" else "SHORT";
              signal_reason :=
                {| template :=
                     if short_side
                     then "Short liquidation cluster ${:.1f}M at {:.2f}"
                     else "Long liquidation cluster ${:.1f}M at {:.2f}";
                   size_in_millions := total_size_usd cluster / 1000000;
                   at_price := price_center cluster |};
              target := price_center cluster;
              distance_percent := distance_pct;
              cluster_size_usd := total_size_usd cluster;
              signal_current_price := current |}])
    else Ok signals
  else Ok signals.

Definition check_nearest (short_side : bool) (c : string) (current : Q)
  (nearest : option LiquidationCluster) (signals : list signal)
  : Py.result (list signal) :=
  match nearest with
  | Some cluster => check_cluster short_side c current cluster signals
  | None => Ok signals
  end.

(** The loop [for coin, liq_map in self.liquidation_maps.items()]. *)
Fixpoint scan_maps (maps : list (string * LiquidationMap))
  (prices : list (string * Q)) (signals : list signal)
  : Py.result (list signal) :=
  match maps with
  | [] => Ok signals
  | (c, liq_map) :: rest =>
      let current := prices_get prices (JStr c) (current_price liq_map) in
      s1 <- check_nearest true c current
              (nearest_short_cluster liq_map) signals ;;
      s2 <- check_nearest false c current
              (nearest_long_cluster liq_map) s1 ;;
      scan_maps rest prices s2
  end.

(** [get_trading_signals]; [maps] is [self.liquidation_maps].  The
    final sort is by decreasing [cluster_size_usd], stable. *)
Definition get_trading_signals (maps : list (string * LiquidationMap))
  (prices : list (string * Q)) : Py.result (list signal) :=
  signals <- scan_maps maps prices [] ;;
  Ok (Py.sort_by (fun s => - cluster_size_usd s) signals).

End LiquidationMaps.

(* ================================================================== *)
(** * src/position_scanner.py: the cache of the last scan *)
(* ================================================================== *)

Module ScannerCache.
Import HyperliquidAPI PositionScanner.

(** The instance state of [PositionScanner] besides the API client. *)
Record scanner : Type := {
  last_scan_result : option ScanResult;
  positions_cache : list (Json.value * list Position);
  cached_levels : list LiquidationLevel
}.

(** [__init__]. *)
Definition init : scanner :=
  {| last_scan_result := None; positions_cache := []; cached_levels := [] |}.

(** The three assignments under [# Cache results] at the end of
    [scan_wallets]. *)
Definition cache_results (r : ScanResult) : scanner :=
  {| last_scan_result := Some r;
     positions_cache := positions_by_coin r;
     cached_levels := liquidation_levels r |}.

(** [scan_wallets], with the state it leaves on the scanner. *)
Definition scan_and_cache (api : venue) (wallets : list string)
  : Py.result (ScanResult * scanner) :=
  r <- scan_wallets api wallets ;;
  Ok (r, cache_results r).

(** [get_liquidation_levels_for_coin(coin)] for a [str]. *)
Definition get_liquidation_levels_for_coin (self : scanner) (c : string)
  : list LiquidationLevel :=
  filter (fun l => Json.eq_str (PositionScanner.coin l) c)
    (cached_levels self).

(** [d.get(key, [])] on the cache: the first key equal to [key]. *)
Fixpoint cache_get (key : Json.value)
  (d : list (Json.value * list Position)) : list Position :=
  match d with
  | [] => []
  | (k, ps) :: rest => if Json.key_eqb k key then ps else cache_get key rest
  end.

(** [get_positions_for_coin(coin)] for a [str]. *)
Definition get_positions_for_coin (self : scanner) (c : string)
  : list Position :=
  cache_get (Json.JStr c) (positions_cache self).

End ScannerCache.

(* ================================================================== *)
(** * src/hyperliquid_api.py: current prices *)
(* ================================================================== *)

Module CurrentPrices.
Import Json.

(** [mids.items()]: only a dict has the method. *)
Definition items (v : value) : Py.result (list (string * value)) :=
  match v with
  | JObj fields => Ok fields
  | _ => Py.Raise Py.AttributeError
  end.

(** The comprehension
    [{k: float(v) for k, v in mids.items() if not k.startswith("@")}]. *)
Fixpoint comprehension (fields : list (string * value))
  (prices : list (string * Q)) : Py.result (list (string * Q)) :=
  match fields with
  | [] => Ok prices
  | (k, v) :: rest =>
      if Lib.startswith k "@" then comprehension rest prices
      else
        p <- float v ;;
        comprehension rest (LiquidationMaps.dict_set k p prices)
  end.

(** [get_current_prices]; [all_mids] is what [api.get_all_mids()]
    returns or raises. *)
Definition get_current_prices (all_mids : Py.result value)
  : Py.result (list (string * Q)) :=
  mids <- all_mids ;;
  fields <- items mids ;;
  comprehension fields [].

End CurrentPrices.

(* ================================================================== *)
(** * scripts/migrate_compress.py *)
(* ================================================================== *)

Module MigrateCompress.
Import Lib.

(** A row of [snapshots], as far as the migration reads and writes it:
    the primary key and the [clusters_json] column (NULL is [None]). *)
Record row : Type := {
  id : Z;
  clusters_json : option string
}.

(** Upper case of an ASCII letter: [LIKE] does not tell the case of
    ASCII letters apart. *)
Definition fold_case (c : ascii) : ascii :=
  let n := nat_of_ascii c in
  if ((97 <=? n) && (n <=? 122))%nat then ascii_of_nat (n - 32) else c.

(** [s LIKE 'p%'] for a prefix [p] without wildcards. *)
Fixpoint like_prefix (p s : string) {struct p} : bool :=
  match p with
  | EmptyString => true
  | String a p' =>
      match s with
      | String b s' =>
          Ascii.eqb (fold_case a) (fold_case b) && like_prefix p' s'
      | EmptyString => false
      end
  end.

Arguments like_prefix : simpl never.

(** [SELECT ... LIMIT n]: a negative [n] is no limit. *)
Definition limit (A : Type) (n : Z) (l : list A) : list A :=
  if (n <? 0)%Z then l else firstn (Z.to_nat n) l.

Section Migration.
Context {L : Libraries}.

Definition COMPRESSION_MARKER : string := "ZLIB:".

(** The script's own copy of [compress_json]. *)
Definition compress_json (data : Json.value) : Py.result string :=
  dumped <- json_dumps data ;;
  let json_bytes := encode_utf8 dumped in
  let compressed := zlib_compress 6 json_bytes in
  encoded <- decode_ascii (b64encode compressed) ;;
  Ok (COMPRESSION_MARKER ++ encoded)%string.

(** [is_compressed]. *)
Definition is_compressed (data : option string) : bool :=
  match data with
  | Some s => startswith s COMPRESSION_MARKER
  | None => false
  end.

(** [WHERE clusters_json IS NOT NULL AND clusters_json NOT LIKE
    'ZLIB:%'] *)
Definition needs_compression (r : row) : bool :=
  match clusters_json r with
  | Some s => negb (like_prefix "ZLIB:" s)
  | None => false
  end.

(** [SELECT id, clusters_json FROM snapshots WHERE ... LIMIT ?], in
    table order. *)
Fixpoint uncompressed (table : list row) : list (Z * string) :=
  match table with
  | [] => []
  | r :: rest =>
      match clusters_json r with
      | Some s =>
          if like_prefix "ZLIB:" s then uncompressed rest
          else (id r, s) :: uncompressed rest
      | None => uncompressed rest
      end
  end.

Definition select (batch_size : Z) (table : list row) : list (Z * string) :=
  limit batch_size (uncompressed table).

(** [UPDATE snapshots SET clusters_json = ? WHERE id = ?] *)
Definition update_row (compressed : string) (row_id : Z) (table : list row)
  : list row :=
  map (fun r =>
         if (id r =? row_id)%Z
         then {| id := id r; clusters_json := Some compressed |}
         else r)
    table.

(** The table and the two counters of the batch loop. *)
Record progress : Type := {
  table : list row;
  processed : nat;
  errors : nat
}.

(** The [try] inside [for row_id, clusters_json in rows]. *)
Definition recompress (text : string) : Py.result string :=
  data <- json_loads text ;;
  compress_json data.

Definition compress_row (st : progress) (selected : Z * string)
  : progress :=
  match recompress (snd selected) with
  | Py.Ok compressed =>
      {| table := update_row compressed (fst selected) (table st);
         processed := S (processed st);
         errors := errors st |}
  | Py.Raise _ =>
      {| table := table st;
         processed := processed st;
         errors := S (errors st) |}
  end.

(** The [while True] loop; [fuel] bounds the number of batches, and
    [None] is a loop still running when the fuel is spent. *)
Fixpoint batches (fuel : nat) (batch_size : Z) (st : progress)
  : option progress :=
  match fuel with
  | O => None
  | S fuel' =>
      match select batch_size (table st) with
      | [] => Some st
      | rows => batches fuel' batch_size (fold_left compress_row rows st)
      end
  end.

(** [migrate_compress]: the table it leaves and what it counted.  The
    sizes it prints and the [VACUUM] leave the rows as they are. *)
Definition migrate_compress (fuel : nat) (db : list row) (dry_run : bool)
  (batch_size : Z) : option progress :=
  let start := {| table := db; processed := 0; errors := 0 |} in
  let uncompressed_count := List.length (uncompressed db) in
  if (uncompressed_count =? 0)%nat then Some start
  else if dry_run then Some start
  else batches fuel batch_size start.

End Migration.

End MigrateCompress.

(* ================================================================== *)
(** * Vocabulary for the migration *)
(* ================================================================== *)

Module MigrationSpec.
Import Lib MigrateCompress.

Section Spec.
Context {L : Libraries}.

(** The row after a successful migration: a row that needed
    compression holds the compressed form of the document it held. *)
Definition migrated (r : row) : row :=
  match clusters_json r with
  | Some s =>
      if like_prefix "ZLIB:" s then r
      else
        match recompress s with
        | Py.Ok compressed =>
            {| id := id r; clusters_json := Some compressed |}
        | Py.Raise _ => r
        end
  | None => r
  end.

(** The table after the first [k] rows that need compression have
    been migrated. *)
Fixpoint compress_first (k : nat) (t : list row) : list row :=
  match t with
  | [] => []
  | r :: rest =>
      if needs_compression r then
        match k with
        | O => r :: rest
        | S k' => migrated r :: compress_first k' rest
        end
      else r :: compress_first k rest
  end.

(** What the [UPDATE]s of one batch do to a single row. *)
Definition row_after (rows : list (Z * string)) (r : row) : row :=
  fold_left
    (fun r selected =>
       match recompress (snd selected) with
       | Py.Ok compressed =>
           if (id r =? fst selected)%Z
           then {| id := id r; clusters_json := Some compressed |}
           else r
       | Py.Raise _ => r
       end)
    rows r.

(** The text of the row can be read and compressed again. *)
Definition convertible (r : row) : Prop :=
  forall s, clusters_json r = Some s -> like_prefix "ZLIB:" s = false ->
            Py.returns (recompress s).

(** A row the migration selects and cannot convert. *)
Definition stuck (r : row) : Prop :=
  exists s e,
    clusters_json r = Some s /\ like_prefix "ZLIB:" s = false
    /\ recompress s = Py.Raise e.

End Spec.

End MigrationSpec.

(* ================================================================== *)
(** * src/validation.py *)
(* ================================================================== *)

Module Validation.
Import Json.
Local Open Scope string_scope.

(** A warning or an error: the f-string that builds it, kept as its
    template and the values it prints.  The rendering of the numbers
    is not modelled. *)
Record message : Type := {
  template : string;
  strings : list string;
  numbers : list Q
}.

Record ValidationResult : Type := {
  is_valid : bool;
  warnings : list message;
  errors : list message
}.

(** [ValidationResult.__bool__] *)
Definition truth (r : ValidationResult) : bool := is_valid r.

(** The class attributes of [DataValidator]. *)
Definition PRICE_BOUNDS : list (string * (Q * Q)) :=
  [("BTC", (10000, 500000));
   ("ETH", (500, 50000));
   ("SOL", (5, 1000));
   ("DOGE", (0.01, 5));
   ("ARB", (0.1, 50));
   ("OP", (0.1, 50));
   ("AVAX", (5, 500));
   ("LINK", (1, 500));
   ("SUI", (0.1, 50));
   ("APT", (1, 100));
   ("INJ", (1, 200));
   ("TIA", (1, 100));
   ("SEI", (0.01, 10));
   ("WLD", (0.1, 50))].

Definition DEFAULT_PRICE_BOUNDS : Q * Q := (0.0001, 1000000).
Definition MIN_CLUSTER_SIZE_USD : Q := 10000.

(** [self.PRICE_BOUNDS.get(coin, self.DEFAULT_PRICE_BOUNDS)] *)
Definition bounds_of (c : string) : Q * Q :=
  match LiquidationMaps.dict_get c PRICE_BOUNDS with
  | Some b => b
  | None => DEFAULT_PRICE_BOUNDS
  end.

(** [x > y] on floats. *)
Definition Qgtb (x y : Q) : bool := Py.Qltb y x.

(** [abs(a - b) / c * 100] for [c > 0]. *)
Definition distance_pct (a b c : Q) : Q := Qabs (a - b) / c * 100.

(** [validate_price]; [price] is a float or [None]. *)
Definition validate_price (c : string) (price : option Q)
  : ValidationResult :=
  match price with
  | None =>
      {| is_valid := false; warnings := [];
         errors := [{| template := "{coin}: Price is None";
                       strings := [c]; numbers := [] |}] |}
  | Some p =>
      if Qle_bool p 0 then
        {| is_valid := false; warnings := [];
           errors :=
             [{| template :=
                   "{coin}: Invalid price {price} (must be positive)";
                 strings := [c]; numbers := [p] |}] |}
      else
        let '(min_price, max_price) := bounds_of c in
        let w1 :=
          if Py.Qltb p min_price then
            [{| template :=
                  "{coin}: Price ${price:,.4f} below expected minimum ${min_price:,.4f}";
                strings := [c]; numbers := [p; min_price] |}]
          else [] in
        let w2 :=
          if Qgtb p max_price then
            [{| template :=
                  "{coin}: Price ${price:,.4f} above expected maximum ${max_price:,.4f}";
                strings := [c]; numbers := [p; max_price] |}]
          else [] in
        {| is_valid := true; warnings := w1 ++ w2; errors := [] |}
  end.



(** A number where Python needs one ([total += size],
    [price_level > current_price], [abs(funding)]): anything else
    raises [TypeError]. *)
Definition number (v : value) : Py.result Q :=
  match as_number v with
  | Some q => Ok q
  | None => Py.Raise Py.TypeError
  end.

(** One of the two loops over the clusters of a side; [long_side]
    tells which.  The result is the total size and the warnings so
    far. *)
Fixpoint check_side (long_side : bool) (c : string) (current_price : Q)
  (clusters : list value) (total : Q) (ws : list message)
  : Py.result (Q * list message) :=
  match clusters with
  | [] => Ok (total, ws)
  | cluster :: rest =>
      price_level <- get cluster "price_center" (JNum 0) ;;
      size <- get cluster "total_size_usd" (JNum 0) ;;
      s <- number size ;;
      p <- number price_level ;;
      let misplaced :=
        if long_side then Qgtb p current_price
        else Py.Qltb p current_price in
      let w :=
        {| template :=
             if long_side
             then "{coin}: Long liquidation at ${price_level:,.2f} is ABOVE current ${current_price:,.2f}"
             else "{coin}: Short liquidation at ${price_level:,.2f} is BELOW current ${current_price:,.2f}";
           strings := [c]; numbers := [p; current_price] |} in
      check_side long_side c current_price rest (total + s)
        (if misplaced then ws ++ [w] else ws)
  end.

Definition Qmax (x y : Q) : Q := if Py.Qltb x y then y else x.
Definition Qmin (x y : Q) : Q := if Py.Qltb y x then y else x.

(** [validate_liquidation_map]; [liq_map] is a dict. *)
Definition validate_liquidation_map (c : string)
  (liq_map : list (string * value)) (current_price : Q)
  : Py.result ValidationResult :=
  match liq_map with
  | [] =>
      Ok {| is_valid := true;
            warnings := [{| template := "{coin}: Empty liquidation map";
                            strings := [c]; numbers := [] |}];
            errors := [] |}
  | _ =>
      let missing :=
        filter (fun key =>
                  match lookup key liq_map with
                  | Some _ => false
                  | None => true
                  end)
          ["long_liquidations"; "short_liquidations"] in
      match missing with
      | _ :: _ =>
          Ok {| is_valid := false; warnings := [];
                errors :=
                  map (fun key =>
                         {| template :=
                              "{coin}: Missing '{key}' in liquidation map";
                            strings := [c; key]; numbers := [] |})
                    missing |}
      | [] =>
          longs <- get (JObj liq_map) "long_liquidations" (JArr []) ;;
          long_items <- iter longs ;;
          r1 <- check_side true c current_price long_items 0 [] ;;
          shorts <- get (JObj liq_map) "short_liquidations" (JArr []) ;;
          short_items <- iter shorts ;;
          r2 <- check_side false c current_price short_items 0 (snd r1) ;;
          let total_long_size := fst r1 in
          let total_short_size := fst r2 in
          let ws :=
            if Qgtb total_long_size 0 && Qgtb total_short_size 0 then
              let ratio :=
                Qmax total_long_size total_short_size
                / Qmin total_long_size total_short_size in
              if Qgtb ratio 100 then
                List.app (snd r2)
                [{| template :=
                      "{coin}: Extreme long/short imbalance ({ratio:.0f}x)";
                    strings := [c]; numbers := [ratio] |}]
              else snd r2
            else snd r2 in
          Ok {| is_valid := true; warnings := ws; errors := [] |}
      end
  end.

(** [field not in data or data[field] is None] *)
Definition missing_field (data : list (string * value)) (field : string)
  : bool :=
  match lookup field data with
  | None => true
  | Some JNull => true
  | Some _ => false
  end.

(** [self.validate_price(coin, data.get("mark_price", 0))] on a value
    of the dict: [price <= 0] needs a number. *)
Definition validate_price_value (c : string) (v : value)
  : Py.result ValidationResult :=
  match v with
  | JNull => Ok (validate_price c None)
  | _ => p <- number v ;; Ok (validate_price c (Some p))
  end.

(** [x is not None and x < 0]: the number to report, if any. *)
Definition negative (v : value) : Py.result (option Q) :=
  match v with
  | JNull => Ok None
  | _ => x <- number v ;; Ok (if Py.Qltb x 0 then Some x else None)
  end.

Definition report (c template : string) (x : option Q) : list message :=
  match x with
  | Some q => [{| template := template; strings := [c]; numbers := [q] |}]
  | None => []
  end.

(** [validate_market_data]; [data] is a dict. *)
Definition validate_market_data (c : string)
  (data : list (string * value)) : Py.result ValidationResult :=
  let missing :=
    filter (missing_field data) ["mark_price"; "funding_rate"] in
  match missing with
  | _ :: _ =>
      Ok {| is_valid := false; warnings := [];
            errors :=
              map (fun field =>
                     {| template :=
                          "{coin}: Missing required field '{field}'";
                        strings := [c; field]; numbers := [] |})
                missing |}
  | [] =>
      mark_price <- get (JObj data) "mark_price" (JNum 0) ;;
      price_result <- validate_price_value c mark_price ;;
      funding_rate <- get (JObj data) "funding_rate" (JNum 0) ;;
      funding <- number funding_rate ;;
      let w :=
        if Qgtb (Qabs funding) 0.01 then
          [{| template :=
                "{coin}: Extreme funding rate {funding*100:.4f}%/hr";
              strings := [c]; numbers := [funding * 100] |}]
        else [] in
      oi <- get (JObj data) "open_interest_usd" (JNum 0) ;;
      bad_oi <- negative oi ;;
      volume <- get (JObj data) "volume_24h" (JNum 0) ;;
      bad_volume <- negative volume ;;
      let es :=
        List.app (errors price_result)
          (List.app (report c "{coin}: Invalid open interest {oi}" bad_oi)
             (report c "{coin}: Invalid volume {volume}" bad_volume)) in
      Ok {| is_valid := match es with [] => true | _ => false end;
            warnings := List.app (warnings price_result) w;
            errors := es |}
  end.

End Validation.

(* ================================================================== *)
(** * Vocabulary for the validators *)
(* ================================================================== *)

Module ValidationSpec.
Import Validation.

(** A result is consistent when it is valid exactly if it reports no
    error. *)
Definition consistent (r : ValidationResult) : Prop :=
  is_valid r = true <-> errors r = [].

(** The number of clusters of a list on the wrong side of the price. *)
Definition misplaced (long_side : bool) (current_price : Q)
  (clusters : list LiquidationAggregator.LiquidationCluster) : nat :=
  List.length
    (filter (fun c =>
               if long_side
               then Qgtb (LiquidationAggregator.price_center c)
                      current_price
               else Py.Qltb (LiquidationAggregator.price_center c)
                      current_price)
       clusters).

(** The total size that a loop of [validate_liquidation_map] adds up. *)
Definition total_size
  (clusters : list LiquidationAggregator.LiquidationCluster) : Q :=
  fold_left (fun t c => t + LiquidationAggregator.total_size_usd c)
    clusters 0.


(** The required keys of a liquidation map that [d] lacks. *)
Definition missing_keys (d : list (string * Json.value)) : list string :=
  filter (fun key =>
            match Json.lookup key d with
            | Some _ => false
            | None => true
            end)
    ["long_liquidations"%string; "short_liquidations"%string].

(** The required fields of market data that [data] lacks or holds as
    [None]. *)
Definition missing_fields (data : list (string * Json.value))
  : list string :=
  filter (missing_field data) ["mark_price"%string; "funding_rate"%string].

(** Every number that [data] holds under key [k] satisfies [P]. *)
Definition holds (P : Q -> Prop) (data : list (string * Json.value))
  (k : string) : Prop :=
  forall v x, Json.lookup k data = Some v -> Json.as_number v = Some x -> P x.

End ValidationSpec.

(* ================================================================== *)
(** * Vocabulary for the retention of the rows the collector writes *)
(* ================================================================== *)

Module RetentionSpec.
Import Clock Sqlite DbMaintenance.
Local Open Scope Z_scope.

(** A row survives a live run at [now] when none of the three clauses
    selects it. *)
Definition survives (now : instant) (r : row) : bool :=
  negb (older_than_30_days now r)
  && negb (non_noon_7_to_30_days now r)
  && negb (non_hourly_1_to_7_days now r).

(** The calendar day (counted from 1970-01-01), the hour and the
    minute of an instant. *)
Definition day_of (t : instant) : Z := t / day.
Definition hour_of (t : instant) : Z := (t mod day) / 3600.
Definition minute_of (t : instant) : Z := (t mod day) / 60 mod 60.

(** The instants from 2000-01-01 00:00:00 to 2099-12-31 23:59:59. *)
Definition first_day : Z := 10957.
Definition end_day : Z := 47482.

Definition in_range (t : instant) : Prop :=
  first_day <= day_of t < end_day.

(** Retention by calendar day: the row is dated at most 30 days before
    the day of the run; dated more than 7 days before, it is of hour
    12; dated 2 to 7 days before, it is of minute 0. *)
Definition kept_by_day (now written : instant) : Prop :=
  day_of now - 30 <= day_of written
  /\ (day_of written < day_of now - 7 -> hour_of written = 12)
  /\ (day_of now - 7 <= day_of written < day_of now - 1 ->
      minute_of written = 0).

(** The date of day [d], as [date_text] prints it. *)
Definition date_of (d : Z) : string :=
  let '(y, m, dd) := date_of_days d in
  (pad 4 y ++ "-" ++ pad 2 m ++ "-" ++ pad 2 dd)%string.

(** [minute_of_day] in two parts: the date at the head of the text,
    and the time after it. *)
Definition date_prefix (ts : string) : option string :=
  match two_digits ts with
  | None => None
  | Some (y1, r0) =>
  match two_digits r0 with
  | None => None
  | Some (y2, r1) =>
  match expect "-" r1 with
  | None => None
  | Some r2 =>
  match two_digits r2 with
  | None => None
  | Some (mo, r3) =>
  match expect "-" r3 with
  | None => None
  | Some r4 =>
  match two_digits r4 with
  | None => None
  | Some (d, r5) =>
      if negb ((1 <=? mo) && (mo <=? 12) && (1 <=? d) && (d <=? 31))%Z
      then None
      else Some r5
  end end end end end end.

Definition fraction (r11 : string) : string :=
  match r11 with
  | String "."%char (String f r12) =>
      if Json.is_digit f then skip_digits r12 else r11
  | _ => r11
  end.

Definition time_part (r5 : string) : option Z :=
  match r5 with
  | EmptyString => Some 0%Z
  | String sep r6 =>
      if negb (Ascii.eqb sep " " || Ascii.eqb sep "T")%bool then None
      else
        match two_digits r6 with
        | None => None
        | Some (h, r7) =>
        match expect ":" r7 with
        | None => None
        | Some r8 =>
        match two_digits r8 with
        | None => None
        | Some (mi, r9) =>
            if negb ((h <=? 24) && (mi <=? 59))%Z then None
            else
              let after_seconds :=
                match expect ":" r9 with
                | None => Some r9
                | Some r10 =>
                    match two_digits r10 with
                    | None => None
                    | Some (s, r11) =>
                        if negb (s <=? 59)%Z then None
                        else Some (fraction r11)
                    end
                end in
              match after_seconds with
              | None => None
              | Some r =>
                  match zone r with
                  | None => None
                  | Some offset =>
                      Some ((h * 60 + mi - offset) mod 1440)%Z
                  end
              end
        end end end
  end.

Fixpoint all_digits (s : string) : bool :=
  match s with
  | EmptyString => true
  | String c rest => Json.is_digit c && all_digits rest
  end.

(** The checks made on every day of the range and on every number
    below 60: the date has the form that [minute_of_day] reads, and
    comes before the date of the next day in byte order; two digits
    print a number below 60 and read back as it. *)
Definition date_shape (s : string) : bool :=
  match date_prefix s with
  | Some EmptyString => true
  | _ => false
  end
  && (String.length s =? 10)%nat.

Fixpoint days_checked (n : nat) (d : Z) (s : string) : bool :=
  match n with
  | O => true
  | S n' =>
      let s' := date_of (d + 1) in
      date_shape s && String.ltb s s' && days_checked n' (d + 1) s'
  end.

Definition two_checked (n : Z) : bool :=
  match two_digits (pad 2 n) with
  | Some (v, EmptyString) => (v =? n)%Z
  | _ => false
  end
  && Bool.eqb (String.eqb (pad 2 n) "12") (n =? 12)%Z
  && Bool.eqb (String.eqb (pad 2 n) "00") (n =? 0)%Z.

Fixpoint numbers_checked (n : nat) (k : Z) : bool :=
  match n with
  | O => true
  | S n' => two_checked k && numbers_checked n' (k + 1)
  end.

End RetentionSpec.

(* ================================================================== *)
(** * src/retry.py *)
(* ================================================================== *)

Module Retry.

(** The exception classes the module names or defines, and the
    built-in classes above them.  [asyncio.TimeoutError] is a class of
    its own before Python 3.11 and the built-in [TimeoutError] from
    3.11 on; it is kept apart here. *)
Inductive exception_class : Type :=
| BaseException
| Exception
| OSError
| ConnectionError
| TimeoutError
| AsyncioTimeoutError
| RetryableError
| APIError
| RateLimitError
| DataValidationError.

Definition class_eqb (c d : exception_class) : bool :=
  match c, d with
  | BaseException, BaseException | Exception, Exception
  | OSError, OSError | ConnectionError, ConnectionError
  | TimeoutError, TimeoutError
  | AsyncioTimeoutError, AsyncioTimeoutError
  | RetryableError, RetryableError | APIError, APIError
  | RateLimitError, RateLimitError
  | DataValidationError, DataValidationError => true
  | _, _ => false
  end.

(** The class and its bases, in method resolution order. *)
Definition mro (c : exception_class) : list exception_class :=
  match c with
  | BaseException => [BaseException]
  | Exception => [Exception; BaseException]
  | OSError => [OSError; Exception; BaseException]
  | ConnectionError => [ConnectionError; OSError; Exception; BaseException]
  | TimeoutError => [TimeoutError; OSError; Exception; BaseException]
  | AsyncioTimeoutError => [AsyncioTimeoutError; Exception; BaseException]
  | RetryableError => [RetryableError; Exception; BaseException]
  | APIError => [APIError; RetryableError; Exception; BaseException]
  | RateLimitError =>
      [RateLimitError; RetryableError; Exception; BaseException]
  | DataValidationError => [DataValidationError; Exception; BaseException]
  end.

Definition issubclass (c d : exception_class) : bool :=
  existsb (class_eqb d) (mro c).

Definition RETRYABLE_EXCEPTIONS : list exception_class :=
  [ConnectionError; TimeoutError; AsyncioTimeoutError].

(** The arguments of [retry_sync] and [retry_async], but for
    [exceptions]. *)
Record policy : Type := {
  max_attempts : Z;
  initial_delay : Q;
  max_delay : Q;
  exponential_base : Q
}.

Definition defaults : policy :=
  {| max_attempts := 3; initial_delay := 1; max_delay := 30;
     exponential_base := 2 |}.

(** [min(a, b)] *)
Definition min (a b : Q) : Q := if Py.Qltb b a then b else a.

(** [time.sleep(delay)] raises [ValueError] on a negative delay;
    [asyncio.sleep(delay)] returns at once.  [true] when the sleep
    returns. *)
Definition sleep (sync : bool) (delay : Q) : bool :=
  if sync then negb (Py.Qltb delay 0) else true.

Section Wrapper.

(** The values and the exceptions of the decorated function; [func k]
    is what its call number [k] does, counted from 0. *)
Variables A E : Type.
Variable class_of : E -> exception_class.

Inductive outcome : Type :=
| Returns (a : A)
| Raises (e : E).

(** What leaves the wrapper: an exception of the function, or the
    [ValueError] of [time.sleep]. *)
Inductive raised : Type :=
| Reraised (e : E)
| SleepValueError.

(** A call of the wrapper: what it returns ([None] when it falls off
    the end of its body) or raises, the number of calls of the
    function and the sleeps, in order. *)
Inductive result : Type :=
| Returned (v : option A)
| Raised (e : raised).

Record run : Type := {
  final : result;
  calls : nat;
  sleeps : list Q
}.

Variable sync : bool.
Variable p : policy.
Variable exceptions : list exception_class.
Variable func : nat -> outcome.

(** [except exceptions as e] *)
Definition caught (e : E) : bool :=
  existsb (issubclass (class_of e)) exceptions.

(** The loop [for attempt in range(1, max_attempts + 1)] with [n]
    iterations left, and the two lines after it. *)
Fixpoint attempts (n : nat) (attempt : Z) (k : nat) (delay : Q)
  (last_exception : option E) (slept : list Q) : run :=
  match n with
  | O =>
      {| final := match last_exception with
                  | Some e => Raised (Reraised e)
                  | None => Returned None
                  end;
         calls := k; sleeps := slept |}
  | S n' =>
      match func k with
      | Returns a =>
          {| final := Returned (Some a); calls := S k; sleeps := slept |}
      | Raises e =>
          if caught e then
            if (attempt =? max_attempts p)%Z then
              {| final := Raised (Reraised e); calls := S k;
                 sleeps := slept |}
            else if sleep sync delay then
              attempts n' (attempt + 1)%Z (S k)
                (min (delay * exponential_base p) (max_delay p))
                (Some e) (slept ++ [delay])
            else
              {| final := Raised SleepValueError; calls := S k;
                 sleeps := slept |}
          else
            {| final := Raised (Reraised e); calls := S k;
               sleeps := slept |}
      end
  end.

(** A call of the wrapper. *)
Definition wrapper : run :=
  attempts (Z.to_nat (max_attempts p)) 1 0 (initial_delay p) None [].

End Wrapper.

End Retry.

(* ================================================================== *)
(** * src/market_data.py: order book liquidity *)
(* ================================================================== *)

Module MarketData.

Record OrderBookLevel : Type := {
  price : Q;
  size : Q;
  num_orders : Z
}.

Record OrderBookLiquidity : Type := {
  coin : string;
  timestamp : Clock.instant;
  best_bid : Q;
  best_ask : Q;
  spread_percent : Q;
  bid_depth_0_5_pct : Q;
  ask_depth_0_5_pct : Q;
  bid_depth_1_pct : Q;
  ask_depth_1_pct : Q;
  bid_depth_2_pct : Q;
  ask_depth_2_pct : Q;
  imbalance_0_5_pct : Q;
  imbalance_1_pct : Q
}.

(** What [fetch_order_book] returns: the bids and the asks, or [None]
    (any exception of the request or of the parsing is caught
    there). *)
Definition book : Type :=
  option (list OrderBookLevel * list OrderBookLevel).

(** The local function [calc_depth] of [fetch_liquidity]. *)
Definition calc_depth (levels : list OrderBookLevel) (mid pct : Q)
  (is_bid : bool) : Q :=
  let threshold :=
    if is_bid then mid * (1 - pct / 100) else mid * (1 + pct / 100) in
  fold_left
    (fun total level =>
       if is_bid && Qle_bool threshold (price level) then
         total + size level * price level
       else if negb is_bid && Qle_bool (price level) threshold then
         total + size level * price level
       else total)
    levels 0.

(** [0], or [(bid - ask) / (bid + ask)] if [bid + ask > 0]. *)
Definition imbalance (bid ask : Q) : Q :=
  if Py.Qltb 0 (bid + ask) then (bid - ask) / (bid + ask) else 0.

(** [fetch_liquidity(coin, mark_price)]; [b] is what
    [fetch_order_book(coin)] returns and [now] is
    [datetime.utcnow()]. *)
Definition fetch_liquidity (now : Clock.instant) (b : book) (c : string)
  (mark_price : option Q) : Py.result (option OrderBookLiquidity) :=
  match b with
  | None => Ok None
  | Some ([], _) => Ok None
  | Some (_, []) => Ok None
  | Some ((first_bid :: _) as bids, (first_ask :: _) as asks) =>
      let best_bid := price first_bid in
      let best_ask := price first_ask in
      let mid_price :=
        Py.or_default mark_price ((best_bid + best_ask) / 2) in
      spread <- Py.div (best_ask - best_bid) mid_price ;;
      let bid_0_5 := calc_depth bids mid_price 0.5 true in
      let ask_0_5 := calc_depth asks mid_price 0.5 false in
      let bid_1 := calc_depth bids mid_price 1 true in
      let ask_1 := calc_depth asks mid_price 1 false in
      let bid_2 := calc_depth bids mid_price 2 true in
      let ask_2 := calc_depth asks mid_price 2 false in
      Ok (Some {| coin := c;
                  timestamp := now;
                  best_bid := best_bid;
                  best_ask := best_ask;
                  spread_percent := spread * 100;
                  bid_depth_0_5_pct := bid_0_5;
                  ask_depth_0_5_pct := ask_0_5;
                  bid_depth_1_pct := bid_1;
                  ask_depth_1_pct := ask_1;
                  bid_depth_2_pct := bid_2;
                  ask_depth_2_pct := ask_2;
                  imbalance_0_5_pct := imbalance bid_0_5 ask_0_5;
                  imbalance_1_pct := imbalance bid_1 ask_1 |})
  end.

(** [fetch_liquidity_batch(coins)]; [books c] is what
    [fetch_order_book(c)] returns and [clock k] is the time of call
    number [k]. *)
Fixpoint batch (clock : nat -> Clock.instant) (books : string -> book)
  (coins : list string) (k : nat)
  (results : list (string * OrderBookLiquidity))
  : Py.result (list (string * OrderBookLiquidity)) :=
  match coins with
  | [] => Ok results
  | c :: rest =>
      liquidity <- fetch_liquidity (clock k) (books c) c None ;;
      batch clock books rest (S k)
        match liquidity with
        | Some l => LiquidationMaps.dict_set c l results
        | None => results
        end
  end.

Definition fetch_liquidity_batch (clock : nat -> Clock.instant)
  (books : string -> book) (coins : list string)
  : Py.result (list (string * OrderBookLiquidity)) :=
  batch clock books coins 0 [].

End MarketData.

(* ================================================================== *)
(** * Vocabulary for the order book *)
(* ================================================================== *)

Module MarketSpec.
Import MarketData.

(** A side of a book without negative prices or sizes. *)
Definition sound_side (levels : list OrderBookLevel) : Prop :=
  Forall (fun l => 0 <= price l /\ 0 <= size l) levels.

(** A book with both sides, as [fetch_liquidity] needs it. *)
Definition two_sided (b : book) : Prop :=
  exists bid bids ask asks, b = Some (bid :: bids, ask :: asks).

(** The middle of the best bid and the best ask. *)
Definition middle (b : book) : Q :=
  match b with
  | Some (bid :: _, ask :: _) => (price bid + price ask) / 2
  | _ => 0
  end.

End MarketSpec.

(* ================================================================== *)
(** * src/wallet_discovery.py *)
(* ================================================================== *)

Module WalletDiscovery.
Import Json.

(** A naive [datetime], in microseconds since [datetime.min]; the
    last one is 9999-12-31 23:59:59.999999. *)
Definition datetime : Type := Z.
Definition datetime_max : datetime := 315537897599999999%Z.

(** The state of a [WalletDiscovery] that the methods below read and
    write, and the number of times the clock was read.  No callback is
    registered. *)
Record discovery : Type := {
  active_wallets : list string;
  wallet_last_seen : list (string * datetime);
  wallet_trade_count : list (string * Z);
  clock_reads : nat
}.

(** [__init__] *)
Definition init : discovery :=
  {| active_wallets := []; wallet_last_seen := [];
     wallet_trade_count := []; clock_reads := 0 |}.

Section Discovery.

(** [str.lower], and [datetime.now()] at its successive calls. *)
Variable lower : string -> string.
Variable clock : nat -> datetime.

(** [wallet in self.active_wallets] and [self.active_wallets.add]. *)
Definition tracked (w : string) (s : list string) : bool :=
  existsb (String.eqb w) s.

Definition set_add (w : string) (s : list string) : list string :=
  if tracked w s then s else (s ++ [w])%list.

(** [self.wallet_trade_count[wallet]] read as a value: the
    [defaultdict(int)] gives 0 for a missing key. *)
Definition trade_count (w : string) (counts : list (string * Z)) : Z :=
  match LiquidationMaps.dict_get w counts with
  | Some n => n
  | None => 0%Z
  end.

(** [add_wallet]: the returned flag and the state after the call. *)
Definition add_wallet (wallet : string) (self : discovery)
  : bool * discovery :=
  let w := lower wallet in
  let is_new := negb (tracked w (active_wallets self)) in
  (is_new,
   {| active_wallets := set_add w (active_wallets self);
      wallet_last_seen :=
        LiquidationMaps.dict_set w (clock (clock_reads self))
          (wallet_last_seen self);
      wallet_trade_count :=
        LiquidationMaps.dict_set w
          (trade_count w (wallet_trade_count self) + 1)%Z
          (wallet_trade_count self);
      clock_reads := S (clock_reads self) |}).

(** The loop [for user in users]: [user.lower()] needs a [str].  The
    state is returned also when the loop raises. *)
Fixpoint add_users (users : list value) (new_count : Z) (self : discovery)
  : Py.result Z * discovery :=
  match users with
  | [] => (Ok new_count, self)
  | JStr user :: rest =>
      let '(is_new, self') := add_wallet user self in
      add_users rest (if is_new then new_count + 1 else new_count)%Z self'
  | _ :: _ => (Py.Raise Py.AttributeError, self)
  end.

(** The loop [for trade in trades]. *)
Fixpoint add_trades (trades : list value) (new_count : Z)
  (self : discovery) : Py.result Z * discovery :=
  match trades with
  | [] => (Ok new_count, self)
  | trade :: rest =>
      match (users <- get trade "users" (JArr []) ;; iter users)%py with
      | Py.Raise e => (Py.Raise e, self)
      | Ok users =>
          match add_users users new_count self with
          | (Ok n, self') => add_trades rest n self'
          | (Py.Raise e, self') => (Py.Raise e, self')
          end
      end
  end.

(** [discover_from_trades(trades)]; [trades] is what the venue sent. *)
Definition discover_from_trades (trades : value) (self : discovery)
  : Py.result Z * discovery :=
  match iter trades with
  | Py.Raise e => (Py.Raise e, self)
  | Ok items => add_trades items 0 self
  end.

(** [datetime.now() - timedelta(hours=max_age_hours)]: a result
    outside the range of [datetime] is an [OverflowError]. *)
Definition cutoff (now : datetime) (max_age_hours : Z)
  : Py.result datetime :=
  let t := (now - max_age_hours * 3600000000)%Z in
  if ((t <? 0) || (datetime_max <? t))%Z then Py.Raise Py.OverflowError
  else Ok t.

(** Reading [self.wallet_trade_count[wallet]] for every active wallet
    leaves a count of 0 for a wallet that had none. *)
Definition touch_counts (wallets : list string)
  (counts : list (string * Z)) : list (string * Z) :=
  fold_left
    (fun c w =>
       match LiquidationMaps.dict_get w c with
       | Some _ => c
       | None => LiquidationMaps.dict_set w 0%Z c
       end)
    wallets counts.

(** [get_wallets(min_trades, max_age_hours)]: the set returned, and
    the state after the call.  A wallet without a last sighting
    compares as [datetime.min], which is above no cutoff. *)
Definition get_wallets (min_trades max_age_hours : Z) (self : discovery)
  : Py.result (list string) * discovery :=
  match cutoff (clock (clock_reads self)) max_age_hours with
  | Py.Raise e =>
      (Py.Raise e,
       {| active_wallets := active_wallets self;
          wallet_last_seen := wallet_last_seen self;
          wallet_trade_count := wallet_trade_count self;
          clock_reads := S (clock_reads self) |})
  | Ok limit =>
      (Ok (filter
             (fun w =>
                (min_trades <=? trade_count w (wallet_trade_count self))%Z
                && match LiquidationMaps.dict_get w (wallet_last_seen self)
                   with
                   | Some seen => (limit <? seen)%Z
                   | None => false
                   end)
             (active_wallets self)),
       {| active_wallets := active_wallets self;
          wallet_last_seen := wallet_last_seen self;
          wallet_trade_count :=
            touch_counts (active_wallets self) (wallet_trade_count self);
          clock_reads := S (clock_reads self) |})
  end.

End Discovery.

End WalletDiscovery.

(* ================================================================== *)
(** * Vocabulary for the wallet registry *)
(* ================================================================== *)

Module DiscoverySpec.
Import WalletDiscovery.

(** The three structures of a registry agree: the same wallets, each
    once, each with a last sighting and a count of at least one. *)
Definition coherent (self : discovery) : Prop :=
  NoDup (active_wallets self)
  /\ NoDup (map fst (wallet_last_seen self))
  /\ NoDup (map fst (wallet_trade_count self))
  /\ (forall w, In w (active_wallets self)
                <-> In w (map fst (wallet_last_seen self)))
  /\ (forall w, In w (active_wallets self)
                <-> In w (map fst (wallet_trade_count self)))
  /\ (forall w n, In (w, n) (wallet_trade_count self) -> (1 <= n)%Z).

(** The sightings counted so far. *)
Definition sightings (self : discovery) : Z :=
  Py.sumZ (map snd (wallet_trade_count self)).

(** What a loop of sightings that starts from [self] with the counter
    at [n0] keeps and counts: the registry stays coherent, also when
    the loop raises; no wallet is lost; the counter grows as the set
    does; every sighting is counted. *)
Definition grows (self self' : discovery) (r : Py.result Z) (n0 : Z)
  : Prop :=
  coherent self'
  /\ (forall w, In w (active_wallets self) -> In w (active_wallets self'))
  /\ (forall n, r = Ok n ->
        Z.of_nat (List.length (active_wallets self'))
        = (Z.of_nat (List.length (active_wallets self)) + (n - n0))%Z)
  /\ (forall e, r = Py.Raise e ->
        e = Py.AttributeError \/ e = Py.TypeError)
  /\ (sightings self' - sightings self
      = Z.of_nat (clock_reads self') - Z.of_nat (clock_reads self))%Z.

End DiscoverySpec.

(* ================================================================== *)
(** * Vocabulary for the retries *)
(* ================================================================== *)

Module RetrySpec.
Import Retry.

(** The delay before retry number [i], counted from 0. *)
Fixpoint backoff (p : policy) (i : nat) : Q :=
  match i with
  | O => initial_delay p
  | S i' => min (backoff p i' * exponential_base p) (max_delay p)
  end.

(** The first [k] calls of the function raise exceptions that the
    wrapper catches. *)
Definition fails_until (A E : Type) (class_of : E -> exception_class)
  (exceptions : list exception_class) (func : nat -> outcome A E)
  (k : nat) : Prop :=
  forall j, (j < k)%nat ->
    exists e, func j = Raises A e /\ caught class_of exceptions e = true.

End RetrySpec.

(* ================================================================== *)
(** * The bucketing functions on IEEE binary64 numbers *)
(* ================================================================== *)

(** The same two functions of [LiquidationAggregator], computed on the
    kernel's binary64 floats instead of exact rationals. *)
Module Binary64.

(** [int(x)] on a float. *)
Definition int_of_float (x : PrimFloat.float) : Py.result Z :=
  match Prim2SF x with
  | S754_zero _ => Ok 0%Z
  | S754_infinity _ => Py.Raise Py.OverflowError
  | S754_nan => Py.Raise Py.ValueError
  | S754_finite s m e =>
      let magnitude :=
        match e with
        | Zneg k => Z.shiftr (Zpos m) (Zpos k)
        | _ => Z.shiftl (Zpos m) e
        end in
      Ok (if s then (- magnitude)%Z else magnitude)
  end.

(** [float(n)] for an integer small enough to be exact. *)
Definition float_of_Z (n : Z) : PrimFloat.float :=
  match n with
  | Z0 => PrimFloat.zero
  | Zpos _ => PrimFloat.of_uint63 (Uint63.of_Z n)
  | Zneg p => PrimFloat.opp (PrimFloat.of_uint63 (Uint63.of_Z (Zpos p)))
  end.

Definition _price_to_bucket (bucket_percent price reference_price
  : PrimFloat.float) : Py.result Z :=
  if PrimFloat.leb reference_price PrimFloat.zero then Ok 0%Z
  else
    let pct_diff :=
      PrimFloat.mul
        (PrimFloat.div (PrimFloat.sub price reference_price)
           reference_price)
        100%float in
    if PrimFloat.eqb bucket_percent PrimFloat.zero
    then Py.Raise Py.ZeroDivisionError
    else int_of_float (PrimFloat.div pct_diff bucket_percent).

Definition _bucket_to_price_range (bucket_percent : PrimFloat.float)
  (bucket : Z) (reference_price : PrimFloat.float)
  : PrimFloat.float * PrimFloat.float :=
  let pct_low := PrimFloat.mul (float_of_Z bucket) bucket_percent in
  let pct_high := PrimFloat.mul (float_of_Z (bucket + 1)) bucket_percent in
  let price_low :=
    PrimFloat.mul reference_price
      (PrimFloat.add 1%float (PrimFloat.div pct_low 100%float)) in
  let price_high :=
    PrimFloat.mul reference_price
      (PrimFloat.add 1%float (PrimFloat.div pct_high 100%float)) in
  (price_low, price_high).

Definition price_center (range : PrimFloat.float * PrimFloat.float)
  : PrimFloat.float :=
  PrimFloat.div (PrimFloat.add (fst range) (snd range)) 2%float.

(** The literals [0.1], [99.9] and [99.95] as Python reads them: the
    nearest binary64 values. *)
Definition PRICE_BUCKET_PERCENT : PrimFloat.float :=
  0x1.999999999999ap-4%float.
Definition price_99_9 : PrimFloat.float := 0x1.8f9999999999ap+6%float.
Definition price_99_95 : PrimFloat.float := 0x1.8fccccccccccdp+6%float.

End Binary64.

(* ================================================================== *)
(** * Specification vocabulary for the aggregator *)
(* ================================================================== *)

Module AggregatorSpec.
Import LiquidationAggregator.

(** [gap%] between a cluster and the one after it. *)
Definition gap_percent (c c' : LiquidationCluster) : Q :=
  (price_low c' - price_high c) / price_center c * 100.

(** The pair would be merged: small gap, both below the significance
    threshold of the aggregator. *)
Definition mergeable (self : aggregator) (c c' : LiquidationCluster)
  : Prop :=
  gap_percent c c' < Config.CLUSTER_MERGE_PERCENT
  /\ total_size_usd c < min_cluster_size self
  /\ total_size_usd c' < min_cluster_size self.

(** No two neighbours of the list are mergeable. *)
Fixpoint no_mergeable_neighbours (self : aggregator)
  (l : list LiquidationCluster) : Prop :=
  match l with
  | c :: tl =>
      match tl with
      | c' :: _ => ~ mergeable self c c'
      | [] => True
      end /\ no_mergeable_neighbours self tl
  | [] => True
  end.

(** The cluster that replaces a merged pair, as the specification
    words it. *)
Definition merged_pair (cur next : LiquidationCluster)
  : LiquidationCluster :=
  {| coin := coin cur;
     side := side cur;
     price_low := price_low cur;
     price_high := price_high next;
     price_center := (price_low cur + price_high next) / 2;
     total_size_usd := total_size_usd cur + total_size_usd next;
     position_count := position_count cur + position_count next;
     avg_leverage :=
       (avg_leverage cur * total_size_usd cur
        + avg_leverage next * total_size_usd next)
       / (total_size_usd cur + total_size_usd next) |}.

(** [absorbs self cur run res]: starting from [cur], every cluster of
    [run] in turn is mergeable with the cluster accumulated so far, and
    [res] is what the successive merges leave. *)
Inductive absorbs (self : aggregator)
  : LiquidationCluster -> list LiquidationCluster -> LiquidationCluster
    -> Prop :=
| absorbs_nil : forall cur, absorbs self cur [] cur
| absorbs_cons : forall cur next run res,
    mergeable self cur next ->
    absorbs self (merged_pair cur next) run res ->
    absorbs self cur (next :: run) res.

(** [merged_runs self input output]: [input] splits into consecutive
    runs, each absorbed into one cluster of [output], in order. *)
Inductive merged_runs (self : aggregator)
  : list LiquidationCluster -> list LiquidationCluster -> Prop :=
| merged_runs_nil : merged_runs self [] []
| merged_runs_cons : forall cur run rest res out,
    absorbs self cur run res ->
    merged_runs self rest out ->
    merged_runs self (cur :: run ++ rest) (res :: out).

(** A cluster on which the divisions of the merge are defined. *)
Definition positive (c : LiquidationCluster) : Prop :=
  0 < price_low c /\ 0 < price_high c /\ 0 < price_center c
  /\ 0 < total_size_usd c.

Definition total_mass (l : list LiquidationCluster) : Q :=
  Py.sum (map total_size_usd l).


(** The bucket the code computes for a level (for a positive reference
    price and a non-zero bucket width). *)
Definition bucket_of (self : aggregator) (reference_price : Q)
  (l : LiquidationLevel) : Z :=
  Py.int_of_float
    ((level_price l - reference_price) / reference_price * 100
     / bucket_percent self).


(** The buckets dictionary after the levels [pre] have been filed:
    distinct keys, each holding, in order, the levels of its bucket,
    and every level filed under some key. *)
Definition filed (self : aggregator) (reference_price : Q)
  (buckets : list (Z * list LiquidationLevel))
  (pre : list LiquidationLevel) : Prop :=
  NoDup (map fst buckets)
  /\ (forall b ls, In (b, ls) buckets ->
        ls = filter (fun l => Z.eqb (bucket_of self reference_price l) b)
               pre)
  /\ (forall l, In l pre ->
        In (bucket_of self reference_price l) (map fst buckets)).

(** A bucket that becomes a candidate cluster. *)
Definition kept (bucket_levels : list LiquidationLevel) : bool :=
  negb (Py.Qltb (Py.sum (map level_size bucket_levels)) 10000).



(** Orderings of the two cluster lists of a map. *)
Definition by_decreasing_center (a b : LiquidationCluster) : Prop :=
  price_center b <= price_center a.

Definition by_increasing_center (a b : LiquidationCluster) : Prop :=
  price_center a <= price_center b.

Definition significant (self : aggregator) (c : LiquidationCluster)
  : Prop :=
  min_cluster_size self <= total_size_usd c.

End AggregatorSpec.

(* ================================================================== *)
(** * Specification vocabulary for the scanner *)
(* ================================================================== *)

Module ScannerSpec.
Import HyperliquidAPI PositionScanner.

(** The wallets a scan queries. *)
Definition scanned (wallets : list string) : list string :=
  firstn Config.MAX_WALLETS_TO_TRACK wallets.

(** A wallet query fails when the venue call raises. *)
Definition query_failed (api : venue) (w : string) : bool :=
  match api w with
  | Py.Raise _ => true
  | Py.Ok _ => false
  end.

Definition failed_queries (api : venue) (wallets : list string) : nat :=
  List.length (filter (query_failed api) (scanned wallets)).

(** The positions the client reports for a wallet. *)
Definition positions_of (api : venue) (w : string) : list Position :=
  match get_user_positions api w with
  | Py.Ok ps => ps
  | Py.Raise _ => []
  end.

(** A position large enough to be tracked. *)
Definition tracked (p : Position) : Prop :=
  Config.MIN_POSITION_VALUE_USD <= notional_value p.

(** The level, if any, that a position gives rise to. *)
Definition levels_of_position (p : Position) : list LiquidationLevel :=
  if Py.Qltb (notional_value p) Config.MIN_POSITION_VALUE_USD then []
  else match liquidation_price p with
       | Some px => [level_of_position p px]
       | None => []
       end.

Definition levels_of_positions (ps : list Position)
  : list LiquidationLevel :=
  flat_map levels_of_position ps.


End ScannerSpec.

(* ================================================================== *)
(** * Vocabulary for the maps of all coins *)
(* ================================================================== *)

Module MapSpec.
Import LiquidationAggregator.

(** The cluster covers a non-empty price interval. *)
Definition interval (c : LiquidationCluster) : Prop :=
  price_low c < price_high c.

(** Its centre is the middle of that interval. *)
Definition midpoint (c : LiquidationCluster) : Prop :=
  price_center c == (price_low c + price_high c) / 2.

(** It holds at least one position and at least the raw floor of
    $10,000. *)
Definition above_floor (c : LiquidationCluster) : Prop :=
  10000 <= total_size_usd c /\ (1 <= position_count c)%Z.

Definition well_formed (c : LiquidationCluster) : Prop :=
  interval c /\ midpoint c /\ above_floor c.

(** [c] ends where [c'] starts, or earlier. *)
Definition before (c c' : LiquidationCluster) : Prop :=
  price_high c <= price_low c'.

(** The price intervals of the two clusters share at most an edge. *)
Definition apart (c c' : LiquidationCluster) : Prop :=
  before c c' \/ before c' c.

(** No two clusters of the list overlap. *)
Definition disjoint (clusters : list LiquidationCluster) : Prop :=
  forall c c', In c clusters -> In c' clusters -> c = c' \/ apart c c'.

(** The levels of one coin, in the order of the scan. *)
Definition levels_of_coin (c : string) (all_levels : list LiquidationLevel)
  : list LiquidationLevel :=
  filter (fun l => Json.eq_str (level_coin l) c) all_levels.

(** The groups of [levels_by_coin] that are filed under a string. *)
Fixpoint string_groups (groups : list (Json.value * list LiquidationLevel))
  : list (string * list LiquidationLevel) :=
  match groups with
  | [] => []
  | (Json.JStr c, ls) :: rest => (c, ls) :: string_groups rest
  | _ :: rest => string_groups rest
  end.

(** [sg] holds, under distinct keys, the levels of [pre] coin by
    coin, and no empty group. *)
Definition grouped (sg : list (string * list LiquidationLevel))
  (pre : list LiquidationLevel) : Prop :=
  NoDup (map fst sg)
  /\ (forall c ls, LiquidationMaps.dict_get c sg = Some ls ->
        ls = levels_of_coin c pre /\ ls <> [])
  /\ (forall c, LiquidationMaps.dict_get c sg = None ->
        levels_of_coin c pre = []).

(** The price [build_maps_from_levels] uses for a coin. *)
Definition price_of (prices : list (string * Q)) (c : string) : Q :=
  LiquidationMaps.prices_get prices (Json.JStr c) 0.

(** A nearest cluster whose distance from the price in force falls in
    the band in which [get_trading_signals] would raise an alert. *)
Definition in_band (short_side : bool) (current : Q)
  (cluster : LiquidationCluster) : Prop :=
  let diff :=
    if short_side then price_center cluster - current
    else current - price_center cluster in
  0.5 <= diff / current * 100 /\ diff / current * 100 <= 3.

(** A map on which [get_trading_signals] passes without an alert check:
    for each nearest cluster it has, the price in force is not zero and
    the cluster is outside the band. *)
Definition quiet (prices : list (string * Q)) (c : string)
  (m : LiquidationMap) : Prop :=
  let current :=
    LiquidationMaps.prices_get prices (Json.JStr c) (current_price m) in
  (forall cluster, nearest_short_cluster m = Some cluster ->
     ~ current == 0 /\ ~ in_band true current cluster)
  /\ (forall cluster, nearest_long_cluster m = Some cluster ->
        ~ current == 0 /\ ~ in_band false current cluster).

End MapSpec.

(* ================================================================== *)
(** * Vocabulary for the results and the cache of a scan *)
(* ================================================================== *)

Module CacheSpec.
Import HyperliquidAPI PositionScanner ScannerSpec.

(** The size filter of [scan_wallets], as a test. *)
Definition is_tracked (p : Position) : bool :=
  negb (Py.Qltb (notional_value p) Config.MIN_POSITION_VALUE_USD).

(** The positions a scan keeps: those the client reports for the
    scanned wallets, in order, that pass the size filter. *)
Definition tracked_positions (api : venue) (wallets : list string)
  : list Position :=
  filter is_tracked (flat_map (positions_of api) (scanned wallets)).

Definition positions_of_coin (c : string) (ps : list Position)
  : list Position :=
  filter (fun p => Json.eq_str (HyperliquidAPI.coin p) c) ps.

(** The level of a kept position, when it has a liquidation price. *)
Definition level_if_any (p : Position) : list LiquidationLevel :=
  match liquidation_price p with
  | Some px => [level_of_position p px]
  | None => []
  end.

(** The index after the positions [ps] have been filed, one by one. *)
Definition file_positions (idx : list (Json.value * list Position))
  (ps : list Position) : list (Json.value * list Position) :=
  fold_left (fun i p => index_append (HyperliquidAPI.coin p) p i) ps idx.

End CacheSpec.

(* ================================================================== *)
(** * Scenarios *)
(* ================================================================== *)

(** Concrete inputs: the boundary scenarios of the specification and the
    inputs at which the properties below are exercised. *)
Module Scenarios.
Import LiquidationAggregator.
Local Open Scope string_scope.

Definition default_aggregator : aggregator := init None None.

Definition level (p s : Q) (sd : string) : LiquidationLevel :=
  {| PositionScanner.price := p;
     PositionScanner.size_usd := s;
     PositionScanner.side := sd;
     PositionScanner.wallet := "0xa11ce";
     PositionScanner.coin := Json.JStr "BTC";
     PositionScanner.leverage := 10 |}.

(** Two long levels of $60,000 in nearby buckets, a dust long level,
    and shorts at 101, 103 and 110 of which the first is small. *)
Definition mixed_levels : list LiquidationLevel :=
  [ level 99.85 60000 "long";
    level 103 250000 "short";
    level 99.65 60000 "long";
    level 97 4000 "long";
    level 110 400000 "short";
    level 101 50000 "short" ].


Definition cluster (low high total : Q) (n : Z) : LiquidationCluster :=
  {| coin := Json.JStr "BTC";
     side := "long";
     price_low := low;
     price_high := high;
     price_center := (low + high) / 2;
     total_size_usd := total;
     position_count := n;
     avg_leverage := 10 |}.

(** A significant cluster next to a small one, and two small
    neighbours. *)
Definition candidate_clusters : list LiquidationCluster :=
  [ cluster 99.7 99.8 30000 1;
    cluster 99.4 99.5 500000 3;
    cluster 99.5 99.6 50000 2;
    cluster 99.9 100 30000 1 ].

(** A venue on which every query fails. *)
Definition failing_venue : HyperliquidAPI.venue :=
  fun _ => Py.Raise Py.ApiError.

Definition raw_position (liquidation_px : list (string * Json.value))
  : Json.value :=
  Json.JObj
    [("type", Json.JStr "oneWay");
     ("position",
       Json.JObj
         (List.app
          [("coin", Json.JStr "BTC");
           ("szi", Json.JStr "1.5");
           ("entryPx", Json.JStr "90000.0");
           ("positionValue", Json.JStr "135000.0");
           ("unrealizedPnl", Json.JStr "-120.5");
           ("marginUsed", Json.JStr "6750.0");
           ("leverage",
             Json.JObj [("type", Json.JStr "cross");
                        ("value", Json.JNum 20)])]
          liquidation_px))].

Definition clearinghouse_state (liquidation_px : list (string * Json.value))
  : Json.value :=
  Json.JObj [("assetPositions", Json.JArr [raw_position liquidation_px])].

(** A venue that reports one position per wallet, with the given
    [liquidationPx] entry. *)
Definition venue_reporting (liquidation_px : list (string * Json.value))
  : HyperliquidAPI.venue :=
  fun _ => Ok (clearinghouse_state liquidation_px).

(** A cluster document as [store_snapshot] builds it. *)
Definition cluster_document : Json.value :=
  Json.JObj
    [("long",
       Json.JArr
         [Json.JObj
            [("coin", Json.JStr "BTC");
             ("side", Json.JStr "long");
             ("price_low", Json.JNum 99.7);
             ("price_high", Json.JNum 100);
             ("price_center", Json.JNum 99.85);
             ("total_size_usd", Json.JNum 120000);
             ("position_count", Json.JNum 2);
             ("avg_leverage", Json.JNum 12.5)]]);
     ("short", Json.JArr [])].

(** A legacy row: the same kind of document, stored as plain JSON. *)
Definition legacy_row : string :=
  "{" ++ String Reference.quote "long" ++ String Reference.quote ": [], "
  ++ String Reference.quote "short" ++ String Reference.quote ": []}".

(** Two maintenance runs and two rows the collector wrote: one 30 days
    and 3 hours before a run at 15:00, one 7 days and 2 hours before a
    run at the 03:00 of the cron entry. *)
Definition run_at_15 : Clock.instant := Clock.instant_of 2026 11 4 15 0 0.
Definition run_at_03 : Clock.instant := Clock.instant_of 2026 11 4 3 0 0.

Definition written_31st_day : Clock.instant :=
  (run_at_15 - 30 * Clock.day - 3 * Clock.hour)%Z.
Definition written_8th_day : Clock.instant :=
  (run_at_03 - 7 * Clock.day - 2 * Clock.hour + 7)%Z.

Definition row_31st_day : DbMaintenance.row :=
  DbMaintenance.collector_row written_31st_day 250000 "BTC".
Definition row_8th_day : DbMaintenance.row :=
  DbMaintenance.collector_row written_8th_day 250000 "BTC".

(** The first instant again, as SQLite itself would write it. *)
Definition row_31st_day_sqlite : DbMaintenance.row :=
  {| DbMaintenance.timestamp := Sqlite.datetime_now written_31st_day 0;
     DbMaintenance.coin := "BTC" |}.

End Scenarios.

(* ================================================================== *)
(** * Further scenarios *)
(* ================================================================== *)

(** Concrete inputs for the properties of the rest of the pipeline. *)
Module Cases.
Local Open Scope string_scope.

(** An entry of [assetPositions] whose size is not a number. *)
Definition malformed_position : Json.value :=
  Json.JObj [("position", Json.JObj [("coin", Json.JStr "ETH");
                                     ("szi", Json.JStr "n/a")])].

(** A venue that reports a sound position followed by a malformed
    one. *)
Definition half_malformed_state : Json.value :=
  Json.JObj
    [("assetPositions",
       Json.JArr [Scenarios.raw_position
                    [("liquidationPx", Json.JStr "84000.5")];
                  malformed_position])].

Definition half_malformed_venue : HyperliquidAPI.venue :=
  fun _ => Ok half_malformed_state.

(** A venue that reports one BTC position of $135,000 per wallet,
    liquidated at 84000.5. *)
Definition sound_venue : HyperliquidAPI.venue :=
  Scenarios.venue_reporting [("liquidationPx", Json.JStr "84000.5")].

Definition three_wallets : list string := ["0xa"; "0xb"; "0xc"].

(** The answer to [allMids]: two perpetuals and a spot pair. *)
Definition all_mids : Json.value :=
  Json.JObj [("BTC", Json.JStr "100");
             ("@107", Json.JStr "0.125");
             ("ETH", Json.JStr "2500.5")].

(** Levels on a perpetual and on the spot pair. *)
Definition level_on (c : string) (p s : Q) (sd : string)
  : PositionScanner.LiquidationLevel :=
  {| PositionScanner.price := p;
     PositionScanner.size_usd := s;
     PositionScanner.side := sd;
     PositionScanner.wallet := "0xa11ce";
     PositionScanner.coin := Json.JStr c;
     PositionScanner.leverage := 10 |}.

Definition levels_with_spot : list PositionScanner.LiquidationLevel :=
  [ level_on "BTC" 99.85 60000 "long";
    level_on "@107" 0.12 250000 "long";
    level_on "BTC" 103 250000 "short";
    level_on "SOL" 150 90000 "short" ].

(** A table with a legacy row, a row without clusters and a row that
    is already compressed; and a table with a legacy row and a row
    that is not JSON. *)
Definition legacy_table : list MigrateCompress.row :=
  [ {| MigrateCompress.id := 1;
       MigrateCompress.clusters_json := Some Scenarios.legacy_row |};
    {| MigrateCompress.id := 2; MigrateCompress.clusters_json := None |};
    {| MigrateCompress.id := 3;
       MigrateCompress.clusters_json := Some "ZLIB:eJyrVgAA" |} ].

Definition corrupt_row : MigrateCompress.row :=
  {| MigrateCompress.id := 8;
     MigrateCompress.clusters_json := Some "{not json" |}.

Definition corrupt_table : list MigrateCompress.row :=
  [ {| MigrateCompress.id := 7;
       MigrateCompress.clusters_json := Some Scenarios.legacy_row |};
    corrupt_row ].


Definition rejected (k : nat) : Retry.outcome string Retry.exception_class :=
  Retry.Raises _ Retry.APIError.

(** [str.lower] on ASCII text, a clock that advances by one second
    per reading from 2026-01-01 00:00:00, and the registry after one
    sighting. *)
Fixpoint lower_ascii (s : string) : string :=
  match s with
  | EmptyString => EmptyString
  | String c rest =>
      let n := nat_of_ascii c in
      String (if (65 <=? n)%nat && (n <=? 90)%nat
              then ascii_of_nat (n + 32) else c)
        (lower_ascii rest)
  end.

Definition ticking (k : nat) : WalletDiscovery.datetime :=
  (63902908800000000 + Z.of_nat k * 1000000)%Z.

Definition one_sighting : WalletDiscovery.discovery :=
  snd (WalletDiscovery.add_wallet lower_ascii ticking "0xAbC"
         WalletDiscovery.init).

(** A book with two bids and two asks around 100. *)
Definition order_book : MarketData.book :=
  Some ([{| MarketData.price := 99.9; MarketData.size := 2;
            MarketData.num_orders := 3 |};
         {| MarketData.price := 99; MarketData.size := 1;
            MarketData.num_orders := 1 |}],
        [{| MarketData.price := 100.1; MarketData.size := 1;
            MarketData.num_orders := 1 |};
         {| MarketData.price := 103; MarketData.size := 5;
            MarketData.num_orders := 2 |}]).

End Cases.

(* ================================================================== *)
(** * Proof steps *)
(* ================================================================== *)

Module ProofTactics.

(** Inverts one [bind] or one test in a hypothesis [_ = Ok _]. *)
Ltac step_ok H :=
  match type of H with
  | Py.bind ?m _ = Ok _ =>
      let x := fresh "x" in
      let E := fresh "E" in
      destruct m as [x |] eqn:E; simpl in H; [| discriminate H]
  | (if ?b then _ else _) = Ok _ =>
      let E := fresh "E" in
      destruct b eqn:E; simpl in H
  end.

End ProofTactics.

(* ================================================================== *)
(** * Properties *)
(* ================================================================== *)

(** ** Facts about the Python helpers *)

Module PyFacts.
Import Py.

Lemma Qltb_true (x y : Q) : Qltb x y = true <-> x < y.
Proof.
  unfold Qltb. rewrite negb_true_iff.
  destruct (Qle_bool y x) eqn:E.
  - apply Qle_bool_iff in E. split; [discriminate | intro H].
    exfalso. apply (Qlt_not_le _ _ H E).
  - split; [intros _ | reflexivity].
    apply Qnot_le_lt. intro H. apply Qle_bool_iff in H. congruence.
Qed.

Lemma Qltb_false (x y : Q) : Qltb x y = false <-> y <= x.
Proof.
  unfold Qltb. rewrite negb_false_iff. apply Qle_bool_iff.
Qed.

Lemma div_ok (x y q : Q) : div x y = Ok q -> ~ y == 0 /\ q = x / y.
Proof.
  unfold div. destruct (Qeq_bool y 0) eqn:E; [discriminate |].
  intros [= <-]. split; [| reflexivity].
  intro H. apply Qeq_bool_iff in H. congruence.
Qed.

Lemma div_nonzero (x y : Q) : ~ y == 0 -> div x y = Ok (x / y).
Proof.
  intro H. unfold div. destruct (Qeq_bool y 0) eqn:E; [| reflexivity].
  apply Qeq_bool_iff in E. contradiction.
Qed.





Lemma fold_add_acc (xs : list Z) (a : Z) :
  fold_left Z.add xs a = (a + fold_left Z.add xs 0)%Z.
Proof.
  revert a. induction xs as [| x xs IH]; intro a; simpl.
  - lia.
  - rewrite (IH (a + x)%Z), (IH x). lia.
Qed.

Lemma sumZ_cons (x : Z) (xs : list Z) : sumZ (x :: xs) = (x + sumZ xs)%Z.
Proof.
  unfold sumZ. simpl. rewrite fold_add_acc. reflexivity.
Qed.

Lemma sumZ_app (xs ys : list Z) : sumZ (xs ++ ys) = (sumZ xs + sumZ ys)%Z.
Proof.
  induction xs as [| x xs IH]; simpl.
  - reflexivity.
  - rewrite !sumZ_cons, IH. lia.
Qed.


(** The stable sort permutes its input and orders it by key. *)
Section SortFacts.
Variable A : Type.
Variable key : A -> Q.

Lemma insert_by_perm (x : A) (l : list A) :
  Permutation (insert_by key x l) (x :: l).
Proof.
  induction l as [| y l IH]; simpl.
  - reflexivity.
  - destruct (Qle_bool (key x) (key y)).
    + reflexivity.
    + rewrite IH. apply perm_swap.
Qed.

Lemma sort_by_perm (l : list A) : Permutation (sort_by key l) l.
Proof.
  induction l as [| x l IH]; simpl.
  - reflexivity.
  - rewrite insert_by_perm. now apply perm_skip.
Qed.

Lemma insert_by_sorted (x : A) (l : list A) :
  StronglySorted (key_le key) l ->
  StronglySorted (key_le key) (insert_by key x l).
Proof.
  induction 1 as [| y l Hs IH Hall]; simpl.
  - constructor; constructor.
  - destruct (Qle_bool (key x) (key y)) eqn:E.
    + apply Qle_bool_iff in E.
      constructor; [constructor; assumption |].
      constructor; [exact E |].
      eapply Forall_impl; [| exact Hall].
      intros z Hz. unfold key_le in *. eapply Qle_trans; eassumption.
    + constructor; [exact IH |].
      assert (Hyx : key y <= key x).
      { apply Qlt_le_weak, Qnot_le_lt. intro H.
        apply Qle_bool_iff in H. congruence. }
      eapply Permutation_Forall.
      * symmetry. apply insert_by_perm.
      * constructor; assumption.
Qed.

Lemma sort_by_sorted (l : list A) :
  StronglySorted (key_le key) (sort_by key l).
Proof.
  induction l as [| x l IH]; simpl.
  - constructor.
  - now apply insert_by_sorted.
Qed.
End SortFacts.

End PyFacts.

(** ** The adjacent-small merge *)

Module MergeFacts.
Import LiquidationAggregator AggregatorSpec.

Lemma should_merge_true self gap cur next :
  should_merge self gap cur next = true <->
  gap < Config.CLUSTER_MERGE_PERCENT
  /\ total_size_usd cur < min_cluster_size self
  /\ total_size_usd next < min_cluster_size self.
Proof.
  unfold should_merge. rewrite !andb_true_iff, !PyFacts.Qltb_true. tauto.
Qed.

(** One turn of the loop, on the gap the specification names. *)
Lemma gap_of_div cur next gap :
  Py.div (price_low next - price_high cur) (price_center cur) = Ok gap ->
  gap * 100 = gap_percent cur next.
Proof.
  intro H. apply PyFacts.div_ok in H as [_ ->]. reflexivity.
Qed.

(** The accumulator [merged] only prefixes the result. *)
Lemma merge_loop_acc self rest : forall merged cur,
  merge_loop self merged cur rest =
  (out <- merge_loop self [] cur rest ;; Ok (merged ++ out)).
Proof.
  induction rest as [| next rest IH]; intros merged cur; simpl.
  - reflexivity.
  - destruct (Py.div _ (price_center cur)) as [gap |]; simpl;
      [| reflexivity].
    destruct (should_merge self (gap * 100) cur next).
    + destruct (Py.div _ (total_size_usd cur + total_size_usd next))
        as [avg |]; simpl; [| reflexivity].
      apply IH.
    + rewrite (IH (merged ++ [cur])), (IH [cur]).
      destruct (merge_loop self [] next rest) as [out |]; simpl;
        [| reflexivity].
      now rewrite <- app_assoc.
Qed.

(** The three ways a turn of the loop can end. *)
Lemma merge_loop_cons self cur next rest out :
  merge_loop self [] cur (next :: rest) = Ok out ->
  ~ price_center cur == 0 /\
  ((mergeable self cur next
    /\ ~ total_size_usd cur + total_size_usd next == 0
    /\ merge_loop self [] (merged_pair cur next) rest = Ok out)
   \/
   (~ mergeable self cur next
    /\ exists out', merge_loop self [] next rest = Ok out'
                    /\ out = cur :: out')).
Proof.
  simpl. intro H.
  destruct (Py.div _ (price_center cur)) as [gap |] eqn:Hgap; simpl in H;
    [| discriminate].
  pose proof (gap_of_div _ _ Hgap) as Hg.
  apply PyFacts.div_ok in Hgap as [Hc _]. split; [exact Hc |].
  destruct (should_merge self (gap * 100) cur next) eqn:Hm.
  - apply should_merge_true in Hm. rewrite Hg in Hm.
    destruct (Py.div _ (total_size_usd cur + total_size_usd next))
      as [avg |] eqn:Havg; simpl in H; [| discriminate].
    apply PyFacts.div_ok in Havg as [Ht ->].
    left. split; [exact Hm |]. split; [exact Ht |]. exact H.
  - right. split.
    + intro Hmerge. unfold mergeable in Hmerge. rewrite <- Hg in Hmerge.
      apply should_merge_true in Hmerge. congruence.
    + rewrite merge_loop_acc in H.
      destruct (merge_loop self [] next rest) as [out' |]; simpl in H;
        [| discriminate].
      injection H as <-. exists out'. split; reflexivity.
Qed.

(** *** Conservation of notional and of position counts *)



(** *** What the loop leaves *)

(** The head of the result starts where [cur] starts and is
    significant if [cur] is; the result has no mergeable neighbours
    and is the input merged run by run. *)
Lemma merge_loop_shape self rest : forall cur out,
  merge_loop self [] cur rest = Ok out ->
  exists head tl,
    out = head :: tl
    /\ price_low head = price_low cur
    /\ (min_cluster_size self <= total_size_usd cur -> head = cur)
    /\ no_mergeable_neighbours self out
    /\ merged_runs self (cur :: rest) out.
Proof.
  induction rest as [| next rest IH]; intros cur out H.
  - simpl in H. injection H as <-. exists cur, [].
    split; [reflexivity |]. split; [reflexivity |].
    split; [reflexivity |]. split; [simpl; auto |].
    apply (merged_runs_cons (rest := []) (absorbs_nil self cur)
             (merged_runs_nil self)).
  - apply merge_loop_cons in H
      as [Hc [(Hm & Ht & H) | (Hm & out' & H & ->)]].
    + apply IH in H as (head & tl & -> & Hlow & Hsig & Hno & Hruns).
      exists head, tl.
      split; [reflexivity |]. split; [exact Hlow |].
      split; [| split; [exact Hno |]].
      * intro Hs. destruct Hm as (_ & Hlt & _).
        exfalso. apply (Qlt_not_le _ _ Hlt Hs).
      * inversion Hruns as [| cur' run rest' res out' Habs Hrest Heq1 Heq2].
        subst. rewrite app_comm_cons.
        apply merged_runs_cons; [| assumption].
        now apply absorbs_cons.
    + apply IH in H as (head & tl & -> & Hlow & Hsig & Hno & Hruns).
      exists cur, (head :: tl).
      split; [reflexivity |]. split; [reflexivity |].
      split; [reflexivity |]. split.
      * split; [| exact Hno].
        intros (Hg & Hcur & Hhead). apply Hm.
        unfold mergeable, gap_percent in *. rewrite <- Hlow.
        split; [exact Hg |]. split; [exact Hcur |].
        destruct (Qlt_le_dec (total_size_usd next) (min_cluster_size self))
          as [Hlt | Hle]; [exact Hlt |].
        rewrite (Hsig Hle) in Hhead. exact Hhead.
      * apply (merged_runs_cons (run := []) (absorbs_nil self cur) Hruns).
Qed.

Lemma merged_runs_refl self l : merged_runs self l l.
Proof.
  induction l as [| c l IH].
  - constructor.
  - apply (merged_runs_cons (run := []) (absorbs_nil self c) IH).
Qed.

Lemma merge_shape self clusters out :
  _merge_adjacent_clusters self clusters = Ok out ->
  no_mergeable_neighbours self out
  /\ merged_runs self (Py.sort_by price_center clusters) out.
Proof.
  unfold _merge_adjacent_clusters.
  destruct clusters as [| c0 [| c1 cs]].
  - intros [= <-]. split; simpl; auto. constructor.
  - intros [= <-]. split; simpl; auto. apply merged_runs_refl.
  - destruct (Py.sort_by price_center (c0 :: c1 :: cs)) as [| cur rest].
    + intros [= <-]. split; simpl; auto. constructor.
    + intro H.
      apply merge_loop_shape in H as (head & tl & -> & _ & _ & Hno & Hr).
      split; assumption.
Qed.

(** *** The merge returns on positive clusters *)

Lemma merged_pair_positive cur next :
  positive cur -> positive next -> positive (merged_pair cur next).
Proof.
  unfold positive. simpl. intros (Hl & Hh & Hc & Ht) (Hl' & Hh' & Hc' & Ht').
  repeat split; try assumption.
  - apply Qlt_shift_div_l; [reflexivity | lra].
  - lra.
Qed.

Lemma merge_loop_returns self rest : forall cur,
  positive cur -> Forall positive rest ->
  Py.returns (merge_loop self [] cur rest).
Proof.
  induction rest as [| next rest IH]; intros cur Hcur Hrest.
  - eexists. reflexivity.
  - inversion Hrest as [| ? ? Hnext Hrest']; subst. simpl.
    assert (Hc : ~ price_center cur == 0)
      by (destruct Hcur as (_ & _ & Hc & _); lra).
    rewrite (PyFacts.div_nonzero _ Hc). simpl.
    destruct (should_merge self _ cur next).
    + assert (Ht : ~ total_size_usd cur + total_size_usd next == 0).
      { destruct Hcur as (_ & _ & _ & Ht).
        destruct Hnext as (_ & _ & _ & Ht'). lra. }
      rewrite (PyFacts.div_nonzero _ Ht). simpl.
      apply IH; [| assumption].
      now apply merged_pair_positive.
    + rewrite merge_loop_acc.
      destruct (IH next Hnext Hrest') as [out ->]. simpl.
      eexists. reflexivity.
Qed.

Lemma merge_returns self clusters :
  Forall positive clusters ->
  Py.returns (_merge_adjacent_clusters self clusters).
Proof.
  intro H. unfold _merge_adjacent_clusters.
  destruct clusters as [| c0 [| c1 cs]]; try (eexists; reflexivity).
  pose proof (PyFacts.sort_by_perm price_center (c0 :: c1 :: cs)) as Hp.
  apply (Permutation_Forall (Permutation_sym Hp)) in H.
  destruct (Py.sort_by price_center (c0 :: c1 :: cs)) as [| cur rest].
  - eexists. reflexivity.
  - inversion H; subst. now apply merge_loop_returns.
Qed.

End MergeFacts.

(** ** Bucketing *)

Module BucketFacts.
Import LiquidationAggregator AggregatorSpec.

Lemma filter_none (A : Type) (f : A -> bool) (l : list A) :
  (forall x, In x l -> f x = false) -> filter f l = [].
Proof.
  induction l as [| x l IH]; simpl; intro H.
  - reflexivity.
  - rewrite (H x) by now left. apply IH. intros y Hy. apply H. now right.
Qed.




Section Grouping.
Variable self : aggregator.
Variable reference_price : Q.

Local Abbreviation bucket := (bucket_of self reference_price).
Local Abbreviation filed := (AggregatorSpec.filed self reference_price).

Lemma bucket_append_keys b l buckets :
  map fst (bucket_append b l buckets) =
  if existsb (fun e => Z.eqb (fst e) b) buckets
  then map fst buckets else map fst buckets ++ [b].
Proof.
  induction buckets as [| [b' ls] rest IH]; simpl.
  - reflexivity.
  - destruct (Z.eqb b' b); simpl.
    + reflexivity.
    + rewrite IH.
      destruct (existsb (fun e => Z.eqb (fst e) b) rest); reflexivity.
Qed.

Lemma existsb_key b (buckets : list (Z * list LiquidationLevel)) :
  existsb (fun e => Z.eqb (fst e) b) buckets = true
  <-> In b (map fst buckets).
Proof.
  rewrite existsb_exists, in_map_iff. split.
  - intros (e & He & Hb). apply Z.eqb_eq in Hb. now exists e.
  - intros (e & Hb & He). exists e. split; [exact He |].
    now apply Z.eqb_eq.
Qed.

Lemma bucket_append_in b l buckets b' ls' :
  NoDup (map fst buckets) ->
  In (b', ls') (bucket_append b l buckets) ->
  (b' = b /\ ((exists ls, In (b, ls) buckets /\ ls' = ls ++ [l])
              \/ (~ In b (map fst buckets) /\ ls' = [l])))
  \/ (b' <> b /\ In (b', ls') buckets).
Proof.
  induction buckets as [| [b0 ls0] rest IH]; simpl; intros Hnd Hin.
  - destruct Hin as [[= <- <-] | []]. left. split; [reflexivity |].
    right. split; [tauto | reflexivity].
  - inversion Hnd as [| ? ? Hnotin Hnd']; subst.
    destruct (Z.eqb b0 b) eqn:E.
    + apply Z.eqb_eq in E. subst b0.
      destruct Hin as [[= <- <-] | Hin].
      * left. split; [reflexivity |]. left. exists ls0. tauto.
      * right. split; [| tauto].
        intros ->. apply Hnotin.
        apply in_map_iff. now exists (b, ls').
    + apply Z.eqb_neq in E.
      destruct Hin as [[= <- <-] | Hin].
      * right. split; [congruence | tauto].
      * destruct (IH Hnd' Hin)
          as [(-> & [(ls & Hls & ->) | (Hno & ->)]) | (Hne & Hin')].
        -- left. split; [reflexivity |]. left. exists ls. tauto.
        -- left. split; [reflexivity |]. right. split; [| reflexivity].
           intros [Heq | Hin']; [congruence | contradiction].
        -- right. tauto.
Qed.

Lemma filed_step buckets pre l :
  filed buckets pre ->
  filed (bucket_append (bucket l) l buckets) (pre ++ [l]).
Proof.
  intros (Hnd & Hgroups & Hkeys).
  assert (Hk : map fst (bucket_append (bucket l) l buckets) =
               if existsb (fun e => Z.eqb (fst e) (bucket l)) buckets
               then map fst buckets else map fst buckets ++ [bucket l])
    by apply bucket_append_keys.
  destruct (existsb (fun e => Z.eqb (fst e) (bucket l)) buckets) eqn:E.
  - apply existsb_key in E.
    split; [rewrite Hk; exact Hnd |]. split.
    + intros b ls Hin. rewrite filter_app. simpl.
      destruct (bucket_append_in _ _ _ _ _ Hnd Hin)
        as [(-> & [(ls0 & Hls0 & ->) | (Hno & ->)]) | (Hne & Hin')].
      * rewrite Z.eqb_refl. now rewrite (Hgroups _ _ Hls0).
      * contradiction.
      * rewrite (proj2 (Z.eqb_neq _ _)) by congruence.
        rewrite app_nil_r. now apply Hgroups.
    + intros l' Hl'. rewrite Hk. apply in_app_or in Hl' as [Hl' | Hl'].
      * now apply Hkeys.
      * destruct Hl' as [<- | []]. exact E.
  - assert (Hno : ~ In (bucket l) (map fst buckets)).
    { intro H. apply existsb_key in H. congruence. }
    split.
    + rewrite Hk. apply NoDup_app; [exact Hnd | |].
      * constructor; [simpl; tauto | constructor].
      * intros x Hx [<- | []]. contradiction.
    + split.
      * intros b ls Hin. rewrite filter_app. simpl.
        destruct (bucket_append_in _ _ _ _ _ Hnd Hin)
          as [(-> & [(ls0 & Hls0 & ->) | (_ & ->)]) | (Hne & Hin')].
        -- exfalso. apply Hno. apply in_map_iff. now exists (bucket l, ls0).
        -- rewrite Z.eqb_refl.
           replace (filter (fun l0 => Z.eqb (bucket l0) (bucket l)) pre)
             with (@nil LiquidationLevel); [reflexivity |].
           symmetry. apply filter_none. intros l' Hl'.
           apply Z.eqb_neq. intro Heq.
           apply Hno. rewrite <- Heq. now apply Hkeys.
        -- rewrite (proj2 (Z.eqb_neq _ _)) by congruence.
           rewrite app_nil_r. now apply Hgroups.
      * intros l' Hl'. rewrite Hk. apply in_or_app.
        apply in_app_or in Hl' as [Hl' | Hl'].
        -- left. now apply Hkeys.
        -- destruct Hl' as [<- | []]. right. now left.
Qed.

Lemma filed_nil : filed [] [].
Proof.
  split; [constructor |]. split; intros; contradiction.
Qed.

Lemma price_to_bucket_ok l b :
  0 < reference_price ->
  _price_to_bucket self (level_price l) reference_price = Ok b ->
  b = bucket l.
Proof.
  unfold _price_to_bucket, bucket_of. intros Hpos H.
  destruct (Qle_bool reference_price 0) eqn:E.
  - apply Qle_bool_iff in E. lra.
  - destruct (Py.div _ (bucket_percent self)) as [q |] eqn:Hd;
      simpl in H; [| discriminate].
    apply PyFacts.div_ok in Hd as [_ ->]. now injection H as <-.
Qed.

Lemma price_to_bucket_returns l :
  0 < reference_price -> ~ bucket_percent self == 0 ->
  _price_to_bucket self (level_price l) reference_price = Ok (bucket l).
Proof.
  unfold _price_to_bucket, bucket_of. intros Hpos Hbp.
  destruct (Qle_bool reference_price 0) eqn:E.
  - apply Qle_bool_iff in E. lra.
  - now rewrite (PyFacts.div_nonzero _ Hbp).
Qed.

Lemma group_by_bucket_filed levels : forall buckets pre g,
  0 < reference_price ->
  filed buckets pre ->
  group_by_bucket self reference_price levels buckets = Ok g ->
  filed g (pre ++ levels).
Proof.
  induction levels as [| l levels IH]; intros buckets pre g Hpos Hf H.
  - simpl in H. injection H as <-. now rewrite app_nil_r.
  - simpl in H.
    destruct (_price_to_bucket self (level_price l) reference_price)
      as [b |] eqn:Hb; simpl in H; [| discriminate].
    apply (price_to_bucket_ok _ Hpos) in Hb. subst b.
    replace (pre ++ l :: levels) with ((pre ++ [l]) ++ levels)
      by (now rewrite <- app_assoc).
    eapply IH; [exact Hpos | | exact H].
    now apply filed_step.
Qed.

Lemma group_by_bucket_returns levels : forall buckets,
  0 < reference_price -> ~ bucket_percent self == 0 ->
  Py.returns (group_by_bucket self reference_price levels buckets).
Proof.
  induction levels as [| l levels IH]; intros buckets Hpos Hbp; simpl.
  - eexists. reflexivity.
  - rewrite (price_to_bucket_returns _ Hpos Hbp). simpl. now apply IH.
Qed.



End Grouping.

End BucketFacts.

(** ** From levels to the map *)

Module AggregateFacts.
Import LiquidationAggregator AggregatorSpec.

(** [int(x)] rounds toward zero. *)
Lemma int_of_float_nonneg (x : Q) :
  0 <= x -> Py.int_of_float x = Qfloor x.
Proof.
  destruct x as [n d]. unfold Py.int_of_float, Qfloor, Qle. simpl.
  intro H. apply Z.quot_div_nonneg; lia.
Qed.

Lemma int_of_float_neg (x : Q) :
  x < 0 -> Py.int_of_float x = Qceiling x.
Proof.
  destruct x as [n d]. unfold Py.int_of_float, Qceiling, Qfloor, Qlt.
  simpl. intro H.
  rewrite <- (Z.opp_involutive n) at 1.
  rewrite Z.quot_opp_l by lia.
  rewrite Z.quot_div_nonneg by lia. reflexivity.
Qed.

Lemma int_of_float_lower (x : Q) :
  x <= inject_Z (Py.int_of_float x) \/ 0 <= inject_Z (Py.int_of_float x).
Proof.
  destruct (Qlt_le_dec x 0) as [Hneg | Hpos].
  - left. rewrite (int_of_float_neg Hneg). apply Qle_ceiling.
  - right. rewrite (int_of_float_nonneg Hpos).
    change 0 with (inject_Z 0). rewrite <- Zle_Qle.
    change 0%Z with (Qfloor (inject_Z 0)). now apply Qfloor_resp_le.
Qed.

Section OneSide.
Variable self : aggregator.
Variable reference_price : Q.
Hypothesis reference_positive : 0 < reference_price.

(** A kept bucket of positive prices gives a positive cluster. *)
Lemma cluster_of_bucket_positive s l ls c :
  0 < bucket_percent self ->
  0 < level_price l ->
  cluster_of_bucket self reference_price s
    (bucket_of self reference_price l) ls = Some c ->
  positive c.
Proof.
  intros Hbp Hprice. unfold cluster_of_bucket.
  destruct (Py.Qltb (Py.sum (map level_size ls)) 10000) eqn:Hdust;
    [discriminate |].
  apply PyFacts.Qltb_false in Hdust.
  unfold _bucket_to_price_range. intros [= <-].
  set (b := bucket_of self reference_price l).
  assert (Hb : -100 < inject_Z b * bucket_percent self).
  { unfold b, bucket_of.
    set (x := (level_price l - reference_price) / reference_price * 100
              / bucket_percent self).
    assert (Hx : x * bucket_percent self ==
                 (level_price l - reference_price) / reference_price * 100)
      by (unfold x; field; split; lra).
    assert (Hpct : -100 <
              (level_price l - reference_price) / reference_price * 100).
    { assert (H1 : -1 < (level_price l - reference_price)
                        / reference_price).
      { apply Qlt_shift_div_l; [exact reference_positive | lra]. }
      lra. }
    destruct (int_of_float_lower x) as [H | H].
    - assert (x * bucket_percent self
              <= inject_Z (Py.int_of_float x) * bucket_percent self)
        by (apply Qmult_le_compat_r; lra).
      lra.
    - assert (0 <= inject_Z (Py.int_of_float x) * bucket_percent self)
        by (apply Qmult_le_0_compat; lra).
      lra. }
  assert (Hb' : -100 < inject_Z (b + 1) * bucket_percent self).
  { rewrite inject_Z_plus. change (inject_Z 1) with 1. lra. }
  assert (Hlow : 0 < reference_price
                     * (1 + inject_Z b * bucket_percent self / 100)).
  { apply Qmult_lt_0_compat; [exact reference_positive |].
    assert (-1 < inject_Z b * bucket_percent self / 100)
      by (apply Qlt_shift_div_l; lra).
    lra. }
  assert (Hhigh : 0 < reference_price
                      * (1 + inject_Z (b + 1) * bucket_percent self / 100)).
  { apply Qmult_lt_0_compat; [exact reference_positive |].
    assert (-1 < inject_Z (b + 1) * bucket_percent self / 100)
      by (apply Qlt_shift_div_l; lra).
    lra. }
  unfold positive. simpl.
  split; [exact Hlow |]. split; [exact Hhigh |]. split.
  - apply Qlt_shift_div_l; lra.
  - lra.
Qed.

Lemma clusters_positive s buckets pre :
  0 < bucket_percent self ->
  Forall (fun l => 0 < level_price l) pre ->
  filed self reference_price buckets pre ->
  Forall positive (clusters_of_buckets self reference_price s buckets).
Proof.
  intros Hbp Hprices (_ & Hgroups & _).
  induction buckets as [| [b ls] rest IH]; simpl.
  - constructor.
  - assert (IH' : Forall positive
                    (clusters_of_buckets self reference_price s rest)).
    { apply IH. intros b' ls' Hin. apply Hgroups. now right. }
    destruct (cluster_of_bucket self reference_price s b ls)
      as [c |] eqn:Hc; [| exact IH'].
    constructor; [| exact IH'].
    destruct ls as [| l ls'].
    + unfold cluster_of_bucket in Hc. simpl in Hc. discriminate.
    + assert (Hl : In l (filter
                (fun l0 => Z.eqb (bucket_of self reference_price l0) b)
                pre)).
      { rewrite <- (Hgroups b (l :: ls')) by now left. now left. }
      apply filter_In in Hl as [Hl Hb]. apply Z.eqb_eq in Hb. subst b.
      rewrite Forall_forall in Hprices.
      eapply cluster_of_bucket_positive; eauto.
Qed.
End OneSide.

End AggregateFacts.

Module MapFacts.
Import LiquidationAggregator AggregatorSpec.




Section OneSide.
Variable self : aggregator.
Variable reference_price : Q.
Hypothesis reference_positive : 0 < reference_price.


Lemma aggregate_to_clusters_returns side_levels s :
  0 < bucket_percent self ->
  Forall (fun l => 0 < level_price l) side_levels ->
  Py.returns
    (_aggregate_to_clusters self side_levels reference_price s).
Proof.
  intros Hbp Hprices. unfold _aggregate_to_clusters.
  destruct side_levels as [| l0 rest] eqn:Hlevels.
  - eexists. reflexivity.
  - rewrite <- Hlevels in *. clear Hlevels l0 rest.
    assert (Hbp' : ~ bucket_percent self == 0) by lra.
    destruct (BucketFacts.group_by_bucket_returns self side_levels []
                reference_positive Hbp') as [buckets Hg].
    rewrite Hg. simpl.
    apply MergeFacts.merge_returns.
    apply (AggregateFacts.clusters_positive reference_positive s
             Hbp Hprices).
    apply (BucketFacts.group_by_bucket_filed side_levels
             reference_positive
             (BucketFacts.filed_nil self reference_price) Hg).
Qed.
End OneSide.

(** *** The first significant cluster of a sorted list *)

Section Nearest.
Variable self : aggregator.
Variable key : LiquidationCluster -> Q.

Lemma nearest_some l c :
  StronglySorted (Py.key_le key) l ->
  nearest_significant self l = Some c ->
  In c l /\ significant self c
  /\ forall c', In c' l -> significant self c' -> key c <= key c'.
Proof.
  unfold nearest_significant, significant.
  induction 1 as [| x l Hs IH Hall]; simpl; [discriminate |].
  destruct (Qle_bool (min_cluster_size self) (total_size_usd x)) eqn:E.
  - intros [= <-]. apply Qle_bool_iff in E.
    split; [now left |]. split; [exact E |].
    intros c' [<- | Hin] _.
    + apply Qle_refl.
    + rewrite Forall_forall in Hall. now apply Hall.
  - intro H. destruct (IH H) as (Hin & Hsig & Hmin).
    split; [now right |]. split; [exact Hsig |].
    intros c' [<- | Hin'] Hs'.
    + apply Qle_bool_iff in Hs'. congruence.
    + now apply Hmin.
Qed.

Lemma nearest_none l :
  nearest_significant self l = None <->
  forall c', In c' l -> ~ significant self c'.
Proof.
  unfold nearest_significant, significant. split.
  - intros H c' Hin Hs.
    apply (find_none _ _ H) in Hin. apply Qle_bool_iff in Hs. congruence.
  - intro H. induction l as [| x l IH]; simpl; [reflexivity |].
    destruct (Qle_bool (min_cluster_size self) (total_size_usd x)) eqn:E.
    + apply Qle_bool_iff in E. destruct (H x (or_introl eq_refl) E).
    + apply IH. intros c' Hin. apply H. now right.
Qed.
End Nearest.

Lemma StronglySorted_impl (A : Type) (R R' : A -> A -> Prop) l :
  (forall a b, R a b -> R' a b) ->
  StronglySorted R l -> StronglySorted R' l.
Proof.
  intros HR. induction 1 as [| x l _ IH Hall]; constructor.
  - exact IH.
  - eapply Forall_impl; [| exact Hall]. intros b. apply HR.
Qed.

(** The map of a non-degenerate call, field by field. *)
Lemma aggregate_levels_fields self levels current coin_arg m :
  0 < current ->
  aggregate_levels self levels current coin_arg = Ok m ->
  exists long_clusters short_clusters,
    (levels = [] /\ long_clusters = [] /\ short_clusters = []
     \/ _aggregate_to_clusters self (filter (is_side "long") levels)
          current "long" = Ok long_clusters
        /\ _aggregate_to_clusters self (filter (is_side "short") levels)
             current "short" = Ok short_clusters)
    /\ long_liquidations m =
         Py.sort_by (fun c => current - price_center c) long_clusters
    /\ short_liquidations m =
         Py.sort_by (fun c => price_center c - current) short_clusters
    /\ total_long_at_risk_usd m == total_mass (long_liquidations m)
    /\ total_short_at_risk_usd m == total_mass (short_liquidations m)
    /\ nearest_long_cluster m =
         nearest_significant self (long_liquidations m)
    /\ nearest_short_cluster m =
         nearest_significant self (short_liquidations m).
Proof.
  intros Hpos. unfold aggregate_levels.
  assert (Hcp : Qle_bool current 0 = false).
  { destruct (Qle_bool current 0) eqn:E; [| reflexivity].
    apply Qle_bool_iff in E. lra. }
  rewrite Hcp, orb_false_r.
  destruct levels as [| l0 rest] eqn:Hlevels.
  - intros [= <-]. exists [], []. simpl.
    split; [left; repeat split |]. repeat split; reflexivity.
  - rewrite <- Hlevels. clear Hlevels l0 rest.
    destruct (_aggregate_to_clusters self (filter (is_side "long") levels)
                current "long") as [lc |]; simpl; [| discriminate].
    destruct (_aggregate_to_clusters self (filter (is_side "short") levels)
                current "short") as [sc |]; simpl; [| discriminate].
    intros [= <-]. exists lc, sc. simpl.
    split; [right; split; reflexivity |]. repeat split; reflexivity.
Qed.

End MapFacts.

(** ** The aggregator against its specification *)

Module AggregatorCorrectness.
Import LiquidationAggregator AggregatorSpec.

(** An aggregator built with no arguments uses the configured bucket
    width and significance threshold. *)
Lemma init_default :
  bucket_percent (init None None) = Config.PRICE_BUCKET_PERCENT
  /\ min_cluster_size (init None None) = Config.MIN_CLUSTER_SIZE_USD.
Proof.
  split; reflexivity.
Qed.

(** The bucket index is the quotient rounded toward zero: the floor
    above the reference price, the ceiling below it. *)
Lemma price_to_bucket_rounding self price reference_price :
  0 < reference_price -> ~ bucket_percent self == 0 ->
  let x := (price - reference_price) / reference_price * 100
           / bucket_percent self in
  _price_to_bucket self price reference_price
  = Ok (if Qlt_le_dec x 0 then Qceiling x else Qfloor x).
Proof.
  intros Hpos Hbp x. unfold _price_to_bucket.
  destruct (Qle_bool reference_price 0) eqn:E.
  - apply Qle_bool_iff in E. lra.
  - rewrite (PyFacts.div_nonzero _ Hbp). simpl. f_equal. fold x.
    destruct (Qlt_le_dec x 0) as [Hneg | Hnn].
    + now apply AggregateFacts.int_of_float_neg.
    + now apply AggregateFacts.int_of_float_nonneg.
Qed.

(** In exact arithmetic the boundary scenario of the specification
    comes out as stated: a level at 99.9 with the price at 100 falls in
    bucket -1, whose centre is 99.95. *)
Lemma boundary_scenario_exact :
  _price_to_bucket (init None None) 99.9 100 = Ok (-1)%Z
  /\ (let '(low, high) :=
        _bucket_to_price_range (init None None) (-1) 100 in
      (low + high) / 2 == 99.95).
Proof.
  split; reflexivity.
Qed.

(** On binary64 numbers the quotient for 99.9 is just above -1, and the
    same scenario gives bucket 0 with centre 100.05. *)
Lemma boundary_scenario_binary64 :
  Binary64._price_to_bucket Binary64.PRICE_BUCKET_PERCENT
    Binary64.price_99_9 100%float = Ok 0%Z
  /\ Binary64._price_to_bucket Binary64.PRICE_BUCKET_PERCENT
       Binary64.price_99_95 100%float = Ok 0%Z
  /\ Binary64.price_center
       (Binary64._bucket_to_price_range Binary64.PRICE_BUCKET_PERCENT
          0 100%float) = 0x1.9033333333333p+6%float.
Proof.
  repeat split; vm_compute; reflexivity.
Qed.

(** C1.  The bucket of a level is not the floor of its relative
    distance in units of the bucket width: [int()] rounds toward zero.
    A level at 99.95 with the price at 100 has quotient -1/2, whose
    floor is -1, and the code files it in bucket 0, whose price range
    [100, 100.1) does not contain it. *)
Theorem price_to_bucket_rounds_toward_zero :
  let self := init None None in
  _price_to_bucket self 99.95 100 = Ok 0%Z
  /\ Py.floor ((99.95 - 100) / 100 * 100 / bucket_percent self) = (-1)%Z
  /\ fst (_bucket_to_price_range self 0 100) == 100
  /\ snd (_bucket_to_price_range self 0 100) == 100.1.
Proof.
  repeat split.
Qed.

Lemma no_mergeable_neighbours_pairs self l :
  no_mergeable_neighbours self l ->
  forall l1 c c' l2, l = l1 ++ c :: c' :: l2 -> ~ mergeable self c c'.
Proof.
  intros H l1. revert l H.
  induction l1 as [| x l1 IH]; intros l H c c' l2 ->.
  - simpl in H. tauto.
  - simpl in H. destruct H as [_ H]. eapply IH; [exact H | reflexivity].
Qed.

(** C3.  Whatever list the merge returns has no two neighbours that
    are both below the significance threshold and closer than
    [CLUSTER_MERGE_PERCENT]; it is the input, sorted by centre, with
    consecutive runs absorbed one cluster at a time, each absorption
    joining a mergeable pair into the cluster the specification
    describes ([merged_pair]); and the merge returns on candidate
    clusters (total at least $10,000) with positive prices. *)
Theorem merge_leaves_no_mergeable_neighbours self clusters :
  (forall out,
      _merge_adjacent_clusters self clusters = Ok out ->
      (forall l1 c c' l2, out = l1 ++ c :: c' :: l2 ->
         ~ (gap_percent c c' < Config.CLUSTER_MERGE_PERCENT
            /\ total_size_usd c < min_cluster_size self
            /\ total_size_usd c' < min_cluster_size self))
      /\ merged_runs self (Py.sort_by price_center clusters) out)
  /\ (Forall (fun c => 10000 <= total_size_usd c /\ 0 < price_low c
                       /\ 0 < price_high c /\ 0 < price_center c) clusters ->
      Py.returns (_merge_adjacent_clusters self clusters)).
Proof.
  split.
  - intros out H. apply MergeFacts.merge_shape in H as [Hno Hruns].
    split; [| exact Hruns].
    exact (no_mergeable_neighbours_pairs Hno).
  - intro H. apply MergeFacts.merge_returns.
    eapply Forall_impl; [| exact H].
    intros c (Ht & Hl & Hh & Hc). unfold positive. repeat split; lra.
Qed.



Lemma Forall_filter (A : Type) (P : A -> Prop) (f : A -> bool) l :
  Forall P l -> Forall P (filter f l).
Proof.
  rewrite !Forall_forall. intros H x Hx.
  apply filter_In in Hx as [Hx _]. now apply H.
Qed.


(** C5.  In every map the aggregator returns, the long clusters are in
    decreasing order of centre and the short clusters in increasing
    order; [nearest_long_cluster], when present, is a significant long
    cluster whose centre no significant long cluster exceeds, and it is
    absent exactly when no long cluster is significant; symmetrically
    for [nearest_short_cluster] with the smallest centre. *)
Theorem nearest_clusters_are_extremal self levels current coin_arg m :
  aggregate_levels self levels current coin_arg = Ok m ->
  StronglySorted by_decreasing_center (long_liquidations m)
  /\ StronglySorted by_increasing_center (short_liquidations m)
  /\ (forall c, nearest_long_cluster m = Some c ->
        In c (long_liquidations m) /\ significant self c
        /\ forall c', In c' (long_liquidations m) -> significant self c' ->
              price_center c' <= price_center c)
  /\ (nearest_long_cluster m = None <->
      forall c', In c' (long_liquidations m) -> ~ significant self c')
  /\ (forall c, nearest_short_cluster m = Some c ->
        In c (short_liquidations m) /\ significant self c
        /\ forall c', In c' (short_liquidations m) -> significant self c' ->
              price_center c <= price_center c')
  /\ (nearest_short_cluster m = None <->
      forall c', In c' (short_liquidations m) -> ~ significant self c').
Proof.
  intro H.
  destruct (Qlt_le_dec 0 current) as [Hpos | Hnonpos].
  - destruct (MapFacts.aggregate_levels_fields self levels coin_arg Hpos H)
      as (lc & sc & _ & Hl & Hs & _ & _ & Hnl & Hns).
    pose proof (PyFacts.sort_by_sorted
                  (fun c => current - price_center c) lc) as Hsl.
    pose proof (PyFacts.sort_by_sorted
                  (fun c => price_center c - current) sc) as Hss.
    rewrite <- Hl in Hsl. rewrite <- Hs in Hss. rewrite Hnl, Hns.
    split; [| split; [| split; [| split; [| split]]]].
    + refine (@MapFacts.StronglySorted_impl _ _ _ _ _ Hsl).
      unfold Py.key_le, by_decreasing_center. intros a b Hab. lra.
    + refine (@MapFacts.StronglySorted_impl _ _ _ _ _ Hss).
      unfold Py.key_le, by_increasing_center. intros a b Hab. lra.
    + intros c Hc.
      destruct (MapFacts.nearest_some self Hsl Hc) as (Hin & Hsig & Hmin).
      split; [exact Hin |]. split; [exact Hsig |].
      intros c' Hin' Hsig'. specialize (Hmin c' Hin' Hsig').
      simpl in Hmin. lra.
    + apply MapFacts.nearest_none.
    + intros c Hc.
      destruct (MapFacts.nearest_some self Hss Hc) as (Hin & Hsig & Hmin).
      split; [exact Hin |]. split; [exact Hsig |].
      intros c' Hin' Hsig'. specialize (Hmin c' Hin' Hsig').
      simpl in Hmin. lra.
    + apply MapFacts.nearest_none.
  - unfold aggregate_levels in H.
    apply Qle_bool_iff in Hnonpos. rewrite Hnonpos, orb_true_r in H.
    injection H as <-. simpl.
    repeat split; try constructor; try discriminate;
      try (intros; contradiction); auto.
Qed.



(** The theorem on the map of the mixed scenario. *)
Lemma nearest_clusters_are_extremal_witness :
  exists m,
    aggregate_levels Scenarios.default_aggregator Scenarios.mixed_levels
      100 "BTC" = Ok m
    /\ StronglySorted by_decreasing_center (long_liquidations m)
    /\ StronglySorted by_increasing_center (short_liquidations m).
Proof.
  eexists. split; [vm_compute; reflexivity |].
  match goal with
  | |- StronglySorted _ (long_liquidations ?m) /\ _ =>
      destruct (@nearest_clusters_are_extremal
                  Scenarios.default_aggregator Scenarios.mixed_levels
                  100 "BTC" m) as (Hl & Hs & _)
  end.
  - vm_compute. reflexivity.
  - split; assumption.
Defined.

(** The boundary scenarios of the specification on the merge. *)
Example merge_pair_becomes_nearest :
  exists m,
    aggregate_levels Scenarios.default_aggregator
      [Scenarios.level 99.85 60000 "long";
       Scenarios.level 99.65 60000 "long"] 100 "BTC" = Ok m
    /\ List.length (long_liquidations m) = 1%nat
    /\ total_long_at_risk_usd m == 120000
    /\ nearest_long_cluster m = hd_error (long_liquidations m).
Proof.
  eexists. split; [vm_compute; reflexivity |]. repeat split.
Qed.

(** The significant cluster stays alone; the three small ones, each
    within the merge distance of the cluster accumulated before it, end
    up as one cluster of $110,000. *)
Example merge_of_candidates :
  exists out,
    _merge_adjacent_clusters Scenarios.default_aggregator
      Scenarios.candidate_clusters = Ok out
    /\ map total_size_usd out = [500000; 110000]
    /\ map position_count out = [3%Z; 4%Z]
    /\ map (fun c => Qeq_bool (price_low c) 99.5
                     && Qeq_bool (price_high c) 100) out = [false; true].
Proof.
  eexists. split; [vm_compute; reflexivity |]. repeat split.
Qed.

Example merge_blocked_by_significance :
  exists out,
    _merge_adjacent_clusters Scenarios.default_aggregator
      [Scenarios.cluster 99.4 99.5 500000 3;
       Scenarios.cluster 99.5 99.6 50000 2] = Ok out
    /\ map total_size_usd out = [500000; 50000].
Proof.
  eexists. split; [vm_compute; reflexivity |]. reflexivity.
Qed.

Example short_side_ordering :
  exists m,
    aggregate_levels Scenarios.default_aggregator Scenarios.mixed_levels
      100 "BTC" = Ok m
    /\ map (fun c => Qred (price_low c)) (short_liquidations m)
       = [101; 103; 110]
    /\ option_map (fun c => Qred (price_low c)) (nearest_short_cluster m)
       = Some 103.
Proof.
  eexists. split; [vm_compute; reflexivity |]. split; reflexivity.
Qed.

End AggregatorCorrectness.

(** ** The scanner *)

Module ScannerFacts.
Import HyperliquidAPI PositionScanner ScannerSpec ProofTactics.

(** The client swallows every failure of a wallet query. *)
Lemma get_user_positions_returns api w :
  Py.returns (get_user_positions api w).
Proof.
  unfold get_user_positions, Py.try_except.
  match goal with
  | |- Py.returns (match ?body with _ => _ end) => destruct body
  end; eexists; reflexivity.
Qed.

Lemma get_user_positions_failed api w :
  query_failed api w = true -> get_user_positions api w = Ok [].
Proof.
  unfold query_failed, get_user_positions. destruct (api w); simpl.
  - discriminate.
  - reflexivity.
Qed.

Lemma scan_wallet_eq api w : scan_wallet api w = Ok (positions_of api w).
Proof.
  unfold scan_wallet, positions_of.
  destruct (get_user_positions_returns api w) as [ps ->]. reflexivity.
Qed.

Lemma visit_position_ok st p st' :
  visit_position st p = Ok st' ->
  st_errors st' = st_errors st
  /\ st_levels st' = (st_levels st ++ levels_of_position p)%list.
Proof.
  unfold visit_position, levels_of_position. intro H.
  destruct (Py.Qltb (notional_value p) Config.MIN_POSITION_VALUE_USD).
  - injection H as <-. now rewrite app_nil_r.
  - destruct (negb (Json.hashable (HyperliquidAPI.coin p)));
      [discriminate |].
    injection H as <-. simpl. split; [reflexivity |].
    destruct (liquidation_price p); [reflexivity | now rewrite app_nil_r].
Qed.

Lemma visit_positions_ok ps : forall st st',
  visit_positions st ps = Ok st' ->
  st_errors st' = st_errors st
  /\ st_levels st' = (st_levels st ++ levels_of_positions ps)%list.
Proof.
  induction ps as [| p ps IH]; intros st st' H; simpl in H.
  - injection H as <-. simpl. now rewrite app_nil_r.
  - step_ok H. apply visit_position_ok in E as [He Hl].
    apply IH in H as [He' Hl']. simpl.
    rewrite He', Hl', He, Hl, <- app_assoc. split; reflexivity.
Qed.

Lemma visit_results_ok api ws : forall st st',
  visit_results st (map (scan_wallet api) ws) = Ok st' ->
  st_errors st' = st_errors st
  /\ st_levels st' =
     (st_levels st
      ++ levels_of_positions (flat_map (positions_of api) ws))%list.
Proof.
  induction ws as [| w ws IH]; intros st st' H; simpl in H.
  - injection H as <-. simpl. now rewrite app_nil_r.
  - step_ok H. rewrite scan_wallet_eq in E. simpl in E.
    apply visit_positions_ok in E as [He Hl].
    apply IH in H as [He' Hl']. simpl.
    unfold levels_of_positions in *.
    rewrite He', Hl', He, Hl, flat_map_app, <- app_assoc.
    split; reflexivity.
Qed.

Lemma scan_batches_ok api batch_size fuel : forall ws st st',
  (0 < batch_size)%nat ->
  (List.length ws <= fuel)%nat ->
  scan_batches api batch_size fuel ws st = Ok st' ->
  st_errors st' = st_errors st
  /\ st_levels st' =
     (st_levels st
      ++ levels_of_positions (flat_map (positions_of api) ws))%list.
Proof.
  induction fuel as [| fuel IH]; intros ws st st' Hb Hlen H.
  - destruct ws; [| simpl in Hlen; lia].
    simpl in H. injection H as <-. simpl. now rewrite app_nil_r.
  - destruct ws as [| w ws'] eqn:Hws.
    + simpl in H. injection H as <-. simpl. now rewrite app_nil_r.
    + rewrite <- Hws in *.
      assert (Hstep : scan_batches api batch_size (S fuel) ws st =
                (st1 <- visit_results st
                          (map (scan_wallet api) (firstn batch_size ws)) ;;
                 scan_batches api batch_size fuel (skipn batch_size ws)
                   st1))
        by (rewrite Hws; reflexivity).
      rewrite Hstep in H. step_ok H.
      apply visit_results_ok in E as [He Hl].
      apply IH in H as [He' Hl']; [| exact Hb |].
      * unfold levels_of_positions in *.
        rewrite He', Hl', He, Hl, <- app_assoc, <- !flat_map_app,
          firstn_skipn.
        split; reflexivity.
      * rewrite length_skipn.
        assert (List.length ws = S (List.length ws'))
          by (rewrite Hws; reflexivity).
        lia.
Qed.

Lemma scan_wallets_ok api wallets r :
  scan_wallets api wallets = Ok r ->
  errors r = 0%nat
  /\ liquidation_levels r =
     levels_of_positions (flat_map (positions_of api) (scanned wallets)).
Proof.
  unfold scan_wallets. intro H. step_ok H. injection H as <-. simpl.
  apply scan_batches_ok in E as [He Hl].
  - simpl in He, Hl. split; assumption.
  - unfold Config.API_REQUESTS_PER_SECOND. lia.
  - apply Nat.le_refl.
Qed.

(** A scan returns unless a tracked position carries a coin that
    cannot be a dictionary key. *)
Lemma visit_positions_returns ps : forall st,
  Forall (fun p => Json.hashable (HyperliquidAPI.coin p) = true) ps ->
  Py.returns (visit_positions st ps).
Proof.
  induction ps as [| p ps IH]; intros st H; simpl.
  - eexists. reflexivity.
  - inversion H as [| ? ? Hp Hps]; subst.
    unfold visit_position. rewrite Hp. simpl.
    destruct (Py.Qltb (notional_value p) Config.MIN_POSITION_VALUE_USD);
      simpl; now apply IH.
Qed.

Lemma visit_results_returns api ws : forall st,
  Forall (fun w =>
            Forall (fun p => Json.hashable (HyperliquidAPI.coin p) = true)
              (positions_of api w)) ws ->
  Py.returns (visit_results st (map (scan_wallet api) ws)).
Proof.
  induction ws as [| w ws IH]; intros st H; simpl.
  - eexists. reflexivity.
  - inversion H as [| ? ? Hw Hws]; subst.
    rewrite scan_wallet_eq. simpl.
    destruct (@visit_positions_returns _ st Hw) as [st' ->]. simpl.
    now apply IH.
Qed.

Lemma scan_batches_returns api batch_size fuel : forall ws st,
  Forall (fun w =>
            Forall (fun p => Json.hashable (HyperliquidAPI.coin p) = true)
              (positions_of api w)) ws ->
  Py.returns (scan_batches api batch_size fuel ws st).
Proof.
  induction fuel as [| fuel IH]; intros ws st H.
  - destruct ws; eexists; reflexivity.
  - destruct ws as [| w ws'] eqn:Hws; [eexists; reflexivity |].
    rewrite <- Hws in *.
    assert (Hstep : scan_batches api batch_size (S fuel) ws st =
              (st1 <- visit_results st
                        (map (scan_wallet api) (firstn batch_size ws)) ;;
               scan_batches api batch_size fuel (skipn batch_size ws) st1))
      by (rewrite Hws; reflexivity).
    rewrite Hstep.
    rewrite <- (firstn_skipn batch_size ws) in H.
    apply Forall_app in H as [Hfirst Hrest].
    destruct (@visit_results_returns api _ st Hfirst) as [st' ->]. simpl.
    now apply IH.
Qed.

Lemma scan_wallets_returns api wallets :
  (forall w p, In w (scanned wallets) -> In p (positions_of api w) ->
               Json.hashable (HyperliquidAPI.coin p) = true) ->
  Py.returns (scan_wallets api wallets).
Proof.
  intro H. unfold scan_wallets.
  destruct (@scan_batches_returns api Config.API_REQUESTS_PER_SECOND
              (List.length (firstn Config.MAX_WALLETS_TO_TRACK wallets))
              (firstn Config.MAX_WALLETS_TO_TRACK wallets) initial_state)
    as [st ->].
  - apply Forall_forall. intros w Hw. apply Forall_forall. intros p Hp.
    now apply (H w p).
  - simpl. eexists. reflexivity.
Qed.





End ScannerFacts.

Module ScannerCorrectness.
Import HyperliquidAPI PositionScanner ScannerSpec.
Local Open Scope string_scope.




(** C7.  The error counter of a scan does not count failed wallet
    queries: it is 0 after every scan, because the client and
    [scan_wallet] both turn a failed query into an empty position
    list before the scan loop inspects it.  A wallet whose query fails
    does contribute nothing.  On a venue whose every query fails, a
    scan of one wallet reports no position, no level and [errors = 0]
    for one failed query. *)
Theorem scan_errors_do_not_count_failed_queries :
  (forall api wallets r,
      scan_wallets api wallets = Ok r -> errors r = 0%nat)
  /\ (forall api w,
        query_failed api w = true ->
        scan_wallet api w = Ok [] /\ positions_of api w = [])
  /\ exists r,
       scan_wallets Scenarios.failing_venue ["0xdead"] = Ok r
       /\ failed_queries Scenarios.failing_venue ["0xdead"] = 1%nat
       /\ errors r = 0%nat
       /\ total_positions_found r = 0%nat
       /\ liquidation_levels r = [].
Proof.
  split.
  - intros api wallets r H.
    now apply ScannerFacts.scan_wallets_ok in H as [He _].
  - split.
    + intros api w H.
      pose proof (ScannerFacts.get_user_positions_failed api w H) as Hg.
      unfold scan_wallet, positions_of. rewrite Hg. split; reflexivity.
    + eexists. split; [vm_compute; reflexivity |]. repeat split.
Qed.




(** The three encodings on the wire. *)
Example no_level_without_liquidation_px :
  forall entry,
    In entry [ [];
               [("liquidationPx", Json.JNull)];
               [("liquidationPx", Json.JStr "null")] ] ->
    exists r,
      scan_wallets (Scenarios.venue_reporting entry) ["0xdead"] = Ok r
      /\ total_positions_found r = 1%nat
      /\ liquidation_levels r = [].
Proof.
  intros entry [<- | [<- | [<- | []]]];
    (eexists; split; [vm_compute; reflexivity | split; reflexivity]).
Qed.

End ScannerCorrectness.

(** ** The compressed cluster blob *)

Module StorageCorrectness.
Import Lib HistoricalStorage.
Local Open Scope string_scope.

Section AnyLibraries.
Context {L : Libraries}.

Lemma tagged_startswith encoded :
  startswith (COMPRESSION_MARKER ++ encoded) COMPRESSION_MARKER = true.
Proof.
  reflexivity.
Qed.

Lemma tagged_payload encoded :
  drop (String.length COMPRESSION_MARKER) (COMPRESSION_MARKER ++ encoded)
  = encoded.
Proof.
  reflexivity.
Qed.

Lemma decompress_json_tagged data :
  startswith data COMPRESSION_MARKER = true ->
  decompress_json (Some data)
  = Ok (match decode_payload
                (drop (String.length COMPRESSION_MARKER) data) with
        | Py.Ok v => v
        | Py.Raise _ => Json.empty_dict
        end).
Proof.
  intro H. unfold decompress_json. rewrite H.
  now destruct (decode_payload _).
Qed.

Lemma decompress_json_untagged data :
  startswith data COMPRESSION_MARKER = false ->
  decompress_json (Some data)
  = Ok (match json_loads data with
        | Py.Ok v => v
        | Py.Raise _ => Json.empty_dict
        end).
Proof.
  intro H. unfold decompress_json. rewrite H.
  now destruct (json_loads data).
Qed.

(** C6.  For a document that [json.dumps] serializes to [s] and
    [json.loads] reads back as an equal document, and libraries that
    round-trip the payload ([zlib.decompress] after [zlib.compress],
    [b64decode] after [b64encode], whose output is ASCII):
    [compress_json] returns the tag [ZLIB:] followed by the base64 of
    the level-6 deflate of [s]; [decompress_json] of that string is a
    document equal to the original; and [decompress_json] of any
    untagged string that is valid JSON is the document it encodes. *)
Theorem compression_round_trip (x x' : Json.value) (s : string) :
  json_dumps x = Ok s ->
  valid_utf8 s = true ->
  json_loads s = Ok x' ->
  Json.eqb x' x = true ->
  zlib_decompress (zlib_compress 6 s) = Ok s ->
  is_ascii (b64encode (zlib_compress 6 s)) = true ->
  b64decode (b64encode (zlib_compress 6 s)) = Ok (zlib_compress 6 s) ->
  compress_json x
    = Ok (COMPRESSION_MARKER ++ b64encode (zlib_compress 6 s))
  /\ (exists y,
        (blob <- compress_json x ;; decompress_json (Some blob)) = Ok y
        /\ Json.eqb y x = true)
  /\ (forall legacy d,
        startswith legacy COMPRESSION_MARKER = false ->
        json_loads legacy = Ok d ->
        decompress_json (Some legacy) = Ok d).
Proof.
  intros Hdumps Hutf8 Hloads Heq Hzlib Hascii Hb64.
  assert (Hc : compress_json x
               = Ok (COMPRESSION_MARKER ++ b64encode (zlib_compress 6 s))).
  { unfold compress_json, encode_utf8, decode_ascii.
    rewrite Hdumps. simpl. now rewrite Hascii. }
  split; [exact Hc |]. split.
  - exists x'. split; [| exact Heq].
    rewrite Hc. cbv beta iota delta [Py.bind].
    rewrite (decompress_json_tagged _ (tagged_startswith _)), tagged_payload.
    unfold decode_payload, decode_utf8.
    rewrite Hb64. simpl. rewrite Hzlib. simpl. rewrite Hutf8. simpl.
    now rewrite Hloads.
  - intros legacy d Hun Hd.
    now rewrite (decompress_json_untagged _ Hun), Hd.
Qed.

(** C10, as amended.  [decompress_json] returns on every input, [None]
    or a string, and never raises: [{}] for [None]; for a tagged
    string, the decoded document, or [{}] when base64, zlib, UTF-8 or
    JSON decoding of the payload fails; for an untagged string, the
    document it encodes, or [{}] when it is not valid JSON.  The value
    returned is whatever JSON value the text encodes, a dict only when
    the text encodes one. *)
Theorem decompress_json_total (data : option string) :
  Py.returns (decompress_json data)
  /\ decompress_json None = Ok Json.empty_dict
  /\ (forall s,
        startswith s COMPRESSION_MARKER = true ->
        let payload := drop (String.length COMPRESSION_MARKER) s in
        (forall e, b64decode payload = Py.Raise e ->
                   decompress_json (Some s) = Ok Json.empty_dict)
        /\ (forall z e, b64decode payload = Ok z ->
                        zlib_decompress z = Py.Raise e ->
                        decompress_json (Some s) = Ok Json.empty_dict)
        /\ (forall z b, b64decode payload = Ok z ->
                        zlib_decompress z = Ok b ->
                        valid_utf8 b = false ->
                        decompress_json (Some s) = Ok Json.empty_dict)
        /\ (forall z b e, b64decode payload = Ok z ->
                          zlib_decompress z = Ok b ->
                          valid_utf8 b = true ->
                          json_loads b = Py.Raise e ->
                          decompress_json (Some s) = Ok Json.empty_dict)
        /\ (forall z b v, b64decode payload = Ok z ->
                          zlib_decompress z = Ok b ->
                          valid_utf8 b = true ->
                          json_loads b = Ok v ->
                          decompress_json (Some s) = Ok v))
  /\ (forall s,
        startswith s COMPRESSION_MARKER = false ->
        (forall e, json_loads s = Py.Raise e ->
                   decompress_json (Some s) = Ok Json.empty_dict)
        /\ (forall v, json_loads s = Ok v ->
                      decompress_json (Some s) = Ok v)).
Proof.
  split; [| split; [reflexivity | split]].
  - destruct data as [s |]; [| eexists; reflexivity].
    destruct (startswith s COMPRESSION_MARKER) eqn:E.
    + rewrite (decompress_json_tagged _ E). eexists. reflexivity.
    + rewrite (decompress_json_untagged _ E). eexists. reflexivity.
  - intros s Htag payload.
    rewrite (decompress_json_tagged _ Htag). fold payload.
    unfold decode_payload, decode_utf8.
    repeat split.
    + intros e ->. reflexivity.
    + intros z e -> H. simpl. now rewrite H.
    + intros z b -> Hz Hb. simpl. rewrite Hz. simpl. now rewrite Hb.
    + intros z b e -> Hz Hb Hj. simpl. rewrite Hz. simpl. rewrite Hb.
      simpl. now rewrite Hj.
    + intros z b v -> Hz Hb Hj. simpl. rewrite Hz. simpl. rewrite Hb.
      simpl. now rewrite Hj.
  - intros s Hun. rewrite (decompress_json_untagged _ Hun).
    split; [intros e -> | intros v ->]; reflexivity.
Qed.

End AnyLibraries.

(** The result need not be a dict: the untagged row [[]] is valid JSON
    and reads back as a list. *)
Lemma decompress_json_returns_a_list :
  decompress_json (L := Reference.libraries) (Some "[]")
    = Ok (Json.JArr [])
  /\ Json.is_dict (Json.JArr []) = false.
Proof.
  split; reflexivity.
Qed.

(** The theorem on a cluster document, with the reference codecs. *)
Lemma compression_round_trip_witness :
  exists blob,
    compress_json (L := Reference.libraries) Scenarios.cluster_document
      = Ok blob
    /\ startswith blob COMPRESSION_MARKER = true
    /\ exists y,
         decompress_json (L := Reference.libraries) (Some blob) = Ok y
         /\ Json.eqb y Scenarios.cluster_document = true.
Proof.
  destruct (@compression_round_trip Reference.libraries
              Scenarios.cluster_document
              (match Reference.loads
                       (match Reference.dumps Scenarios.cluster_document with
                        | Py.Ok s => s
                        | Py.Raise _ => EmptyString
                        end) with
               | Py.Ok v => v
               | Py.Raise _ => Json.JNull
               end)
              (match Reference.dumps Scenarios.cluster_document with
               | Py.Ok s => s
               | Py.Raise _ => EmptyString
               end))
    as (Hc & (y & Hy & Heq) & _);
    [vm_compute; reflexivity .. |].
  eexists. split; [exact Hc |]. split; [reflexivity |].
  exists y. rewrite Hc in Hy. cbv beta iota delta [Py.bind] in Hy.
  split; assumption.
Defined.

(** The compression tag scenario: a tagged row and a legacy row both
    decode to the document they hold. *)
Example legacy_row_decodes :
  decompress_json (L := Reference.libraries) (Some Scenarios.legacy_row)
  = Ok (Json.JObj [("long", Json.JArr []); ("short", Json.JArr [])]).
Proof.
  vm_compute. reflexivity.
Qed.

Example corrupt_rows_read_as_empty :
  decompress_json (L := Reference.libraries) (Some "ZLIB:aGVsbG8")
    = Ok Json.empty_dict
  /\ decompress_json (L := Reference.libraries) (Some "ZLIB:aGVsbG8=")
     = Ok Json.empty_dict
  /\ decompress_json (L := Reference.libraries) (Some "{not json")
     = Ok Json.empty_dict.
Proof.
  repeat split; vm_compute; reflexivity.
Qed.

End StorageCorrectness.

(** ** Tiered retention *)

Module RetentionCorrectness.
Import Clock Sqlite DbMaintenance.
Local Open Scope string_scope.
Local Open Scope Z_scope.


(** A live step is the deletion of the rows its clause selects. *)
Lemma live_step p table : step false p table = delete_where p table.
Proof.
  unfold step, count_where, delete_where. simpl.
  destruct (filter p table) as [| r rest] eqn:E; [| reflexivity].
  simpl. symmetry. induction table as [| x table IH]; [reflexivity |].
  simpl in E |- *. destruct (p x); [discriminate |].
  simpl. f_equal. now apply IH.
Qed.

(** The texts compared in the failing run: byte order puts the [T] of
    the collector's timestamp after the blank of SQLite's, whatever the
    time of day. *)
Lemma collector_text_is_not_before_cutoff :
  timestamp Scenarios.row_31st_day = "2026-10-05T12:00:00.250000+00:00"
  /\ datetime_now Scenarios.run_at_15 30 = "2026-10-05 15:00:00"
  /\ text_lt (timestamp Scenarios.row_31st_day)
       (datetime_now Scenarios.run_at_15 30) = false.
Proof.
  repeat split; vm_compute; reflexivity.
Qed.

(** A row with the same instant in SQLite's own format is deleted. *)
Lemma sqlite_text_is_deleted :
  snapshots
    (run_maintenance Scenarios.run_at_15 false
       {| snapshots := [Scenarios.row_31st_day_sqlite];
          price_history := [] |}) = [].
Proof.
  vm_compute. reflexivity.
Qed.

(** C2.  The retention invariant fails on rows the collector wrote.  A
    live run at 2026-11-04 15:00:00 keeps, in both tables, the row
    stamped 2026-10-05T12:00:00.250000+00:00, which is 30 days and 3
    hours old; a live run at 03:00:00 keeps the row stamped
    2026-10-28T01:00:07.250000+00:00, which is between 7 and 30 days
    old and not of hour 12.  Neither row satisfies the policy. *)
Theorem retention_keeps_rows_past_their_tier :
  (let kept :=
     run_maintenance Scenarios.run_at_15 false
       {| snapshots := [Scenarios.row_31st_day];
          price_history := [Scenarios.row_31st_day] |} in
   30 * day < age Scenarios.run_at_15 Scenarios.written_31st_day
   /\ snapshots kept = [Scenarios.row_31st_day]
   /\ price_history kept = [Scenarios.row_31st_day]
   /\ ~ retained_by_policy Scenarios.run_at_15 Scenarios.written_31st_day
          Scenarios.row_31st_day)
  /\
  (let kept :=
     run_maintenance Scenarios.run_at_03 false
       {| snapshots := [Scenarios.row_8th_day];
          price_history := [] |} in
   timestamp Scenarios.row_8th_day = "2026-10-28T01:00:07.250000+00:00"
   /\ 7 * day < age Scenarios.run_at_03 Scenarios.written_8th_day <= 30 * day
   /\ strftime_H (timestamp Scenarios.row_8th_day) = Some "01"
   /\ snapshots kept = [Scenarios.row_8th_day]
   /\ ~ retained_by_policy Scenarios.run_at_03 Scenarios.written_8th_day
          Scenarios.row_8th_day).
Proof.
  split.
  - split; [vm_compute; reflexivity |].
    split; [vm_compute; reflexivity |].
    split; [vm_compute; reflexivity |].
    unfold retained_by_policy.
    replace (age Scenarios.run_at_15 Scenarios.written_31st_day)
      with 2602800 by (vm_compute; reflexivity).
    unfold day. lia.
  - split; [vm_compute; reflexivity |].
    split; [vm_compute; split; [reflexivity | discriminate] |].
    split; [vm_compute; reflexivity |].
    split; [vm_compute; reflexivity |].
    unfold retained_by_policy.
    replace (age Scenarios.run_at_03 Scenarios.written_8th_day)
      with 611993 by (vm_compute; reflexivity).
    replace (strftime_H (timestamp Scenarios.row_8th_day))
      with (Some "01") by (vm_compute; reflexivity).
    unfold day. intros [H | [[H _] | [_ H]]]; try lia. discriminate H.
Qed.

(** The retention scenario of the specification, on rows in SQLite's own
    format: the row of 35 days ago goes, the 07:13 row of two days ago
    goes, the top-of-hour row stays. *)
Example retention_scenario :
  let row t := {| timestamp := datetime_now t 0; coin := "BTC" |} in
  let now := Scenarios.run_at_15 in
  snapshots
    (run_maintenance now false
       {| snapshots := [ row (now - 35 * day);
                         row (instant_of 2026 11 2 7 13 0);
                         row (instant_of 2026 11 2 7 0 0) ];
          price_history := [] |})
  = [ {| timestamp := "2026-11-02 07:00:00"; coin := "BTC" |} ].
Proof.
  vm_compute. reflexivity.
Qed.

End RetentionCorrectness.

(* ================================================================== *)
(** * Further properties of the code *)
(* ================================================================== *)

(** ** Buckets and their price ranges *)

Module BucketRanges.
Import LiquidationAggregator AggregatorSpec.







End BucketRanges.

(** ** The shape of the clusters of a map *)

Module ClusterShape.
Import LiquidationAggregator AggregatorSpec MapSpec.

(** *** What a run of merges keeps *)

Section Closed.
Variable self : aggregator.
Variable P : LiquidationCluster -> Prop.
Hypothesis closed : forall a b, P a -> P b -> P (merged_pair a b).

Lemma absorbs_closed cur run res :
  absorbs self cur run res -> P cur -> Forall P run -> P res.
Proof.
  induction 1 as [| cur next run res _ _ IH]; intros Hcur Hrun.
  - exact Hcur.
  - inversion Hrun as [| ? ? Hnext Hrest]; subst.
    apply IH; [now apply closed | exact Hrest].
Qed.

Lemma merged_runs_closed input out :
  merged_runs self input out -> Forall P input -> Forall P out.
Proof.
  induction 1 as [| cur run rest res out Habs _ IH]; intro H.
  - constructor.
  - inversion H as [| ? ? Hcur Htl]; subst.
    apply Forall_app in Htl as [Hrun Hrest].
    constructor; [| now apply IH].
    exact (absorbs_closed Habs Hcur Hrun).
Qed.
End Closed.

Lemma midpoint_closed a b :
  midpoint a -> midpoint b -> midpoint (merged_pair a b).
Proof.
  intros _ _. unfold midpoint. simpl. reflexivity.
Qed.

Lemma above_floor_closed a b :
  above_floor a -> above_floor b -> above_floor (merged_pair a b).
Proof.
  unfold above_floor. simpl. intros [Ha Ha'] [Hb Hb']. split; [lra | lia].
Qed.

(** *** Edges of a merged run *)

Lemma last_nonempty (A : Type) (run : list A) : forall a d d',
  last (a :: run) d = last (a :: run) d'.
Proof.
  induction run as [| b run IH]; intros a d d'.
  - reflexivity.
  - change (last (b :: run) d = last (b :: run) d'). apply IH.
Qed.

Lemma absorbs_edges self cur run res :
  absorbs self cur run res ->
  price_low res = price_low cur
  /\ price_high res = price_high (last run cur).
Proof.
  induction 1 as [| cur next run res _ _ [IHl IHh]].
  - split; reflexivity.
  - split; [exact IHl |].
    rewrite IHh. destruct run as [| a run]; [reflexivity |].
    change (last (next :: a :: run) cur) with (last (a :: run) cur).
    f_equal. apply last_nonempty.
Qed.

Lemma merged_runs_heads self input out :
  merged_runs self input out ->
  forall c, In c out -> exists r, In r input /\ price_low c = price_low r.
Proof.
  induction 1 as [| cur run rest res out Habs _ IH]; intros c Hc.
  - destruct Hc.
  - destruct Hc as [<- | Hc].
    + exists cur. split; [now left |].
      apply (absorbs_edges Habs).
    + destruct (IH c Hc) as (r & Hr & Hlow).
      exists r. split; [| exact Hlow].
      right. apply in_or_app. now right.
Qed.

Lemma ordered_app (A : Type) (R : A -> A -> Prop) (l1 l2 : list A) :
  ForallOrdPairs R (l1 ++ l2) ->
  ForallOrdPairs R l2
  /\ forall x y, In x l1 -> In y l2 -> R x y.
Proof.
  induction l1 as [| a l1 IH]; simpl; intro H.
  - split; [exact H | intros x y []].
  - inversion H as [| ? ? Ha Htl]; subst.
    destruct (IH Htl) as [H2 Hcross]. split; [exact H2 |].
    intros x y [<- | Hx] Hy.
    + rewrite Forall_forall in Ha. apply Ha. apply in_or_app. now right.
    + now apply Hcross.
Qed.

Lemma last_in (A : Type) (run : list A) : forall d,
  In (last run d) (d :: run).
Proof.
  induction run as [| a run IH]; intro d.
  - now left.
  - destruct run as [| b run]; [right; now left |].
    change (last (a :: b :: run) d) with (last (b :: run) d).
    destruct (IH d) as [H | H]; [now left | right; now right].
Qed.

Lemma merged_runs_ordered self input out :
  merged_runs self input out ->
  Forall interval input -> ForallOrdPairs before input ->
  Forall interval out /\ ForallOrdPairs before out.
Proof.
  induction 1 as [| cur run rest res out Habs Hruns IH]; intros Hint Hord.
  - split; constructor.
  - inversion Hint as [| ? ? Hcur Htl]; subst.
    apply Forall_app in Htl as [Hrun Hrest].
    assert (Hhead : Forall (before cur) (run ++ rest))
      by (inversion Hord; assumption).
    change (cur :: run ++ rest) with ((cur :: run) ++ rest) in Hord.
    destruct (ordered_app _ _ Hord) as [Hord_rest Hcross].
    destruct (IH Hrest Hord_rest) as [Hint' Hord'].
    destruct (absorbs_edges Habs) as [Hlow Hhigh].
    pose proof (last_in run cur) as Hlast.
    split.
    + constructor; [| exact Hint'].
      unfold interval. rewrite Hlow, Hhigh.
      destruct Hlast as [<- | Hin]; [exact Hcur |].
      rewrite Forall_forall in Hhead, Hrun.
      assert (Hb : before cur (last run cur))
        by (apply Hhead; apply in_or_app; now left).
      specialize (Hrun _ Hin). unfold before, interval in *. lra.
    + constructor; [| exact Hord'].
      apply Forall_forall. intros c' Hc'.
      destruct (merged_runs_heads Hruns c' Hc') as (r & Hr & Hl).
      unfold before. rewrite Hhigh, Hl.
      exact (Hcross (last run cur) r Hlast Hr).
Qed.

(** *** The candidate clusters of one side *)

Section Candidates.
Variable self : aggregator.
Variable reference_price : Q.
Hypothesis reference_positive : 0 < reference_price.
Hypothesis width_positive : 0 < bucket_percent self.

Local Abbreviation range :=
  (fun b => _bucket_to_price_range self b reference_price).

Lemma range_monotone (b b' : Z) :
  (b <= b')%Z ->
  reference_price * (1 + inject_Z b * bucket_percent self / 100)
  <= reference_price * (1 + inject_Z b' * bucket_percent self / 100).
Proof.
  intro H. apply Qmult_le_l; [exact reference_positive |].
  apply Qplus_le_r. apply Qmult_le_compat_r; [| discriminate].
  apply Qmult_le_compat_r; [| now apply Qlt_le_weak].
  now rewrite <- Zle_Qle.
Qed.

Lemma range_interval (b : Z) : fst (range b) < snd (range b).
Proof.
  simpl. apply Qmult_lt_l; [exact reference_positive |].
  apply Qplus_lt_r. apply Qmult_lt_compat_r; [reflexivity |].
  apply Qmult_lt_compat_r; [exact width_positive |].
  rewrite <- Zlt_Qlt. lia.
Qed.

Lemma range_before (b b' : Z) :
  (b < b')%Z -> snd (range b) <= fst (range b').
Proof.
  intro H. simpl. apply range_monotone. lia.
Qed.

Lemma cluster_of_bucket_shape s b ls c :
  cluster_of_bucket self reference_price s b ls = Some c ->
  price_low c = fst (range b) /\ price_high c = snd (range b)
  /\ midpoint c /\ above_floor c.
Proof.
  unfold cluster_of_bucket.
  destruct (Py.Qltb (Py.sum (map level_size ls)) 10000) eqn:Hdust;
    [discriminate |].
  apply PyFacts.Qltb_false in Hdust.
  intros [= <-]. unfold midpoint, above_floor. simpl.
  repeat split; try reflexivity; [exact Hdust |].
  destruct ls as [| l ls].
  - exfalso. revert Hdust. unfold Py.sum. simpl. apply Qlt_not_le.
    reflexivity.
  - simpl List.length. lia.
Qed.

Lemma candidates_shape s buckets :
  NoDup (map fst buckets) ->
  let candidates := clusters_of_buckets self reference_price s buckets in
  Forall well_formed candidates
  /\ ForallOrdPairs apart candidates
  /\ Forall (fun c => exists b,
               In b (map fst buckets)
               /\ price_low c = fst (range b)
               /\ price_high c = snd (range b)) candidates.
Proof.
  induction buckets as [| [b ls] rest IH]; intro Hnd; simpl.
  - repeat split; constructor.
  - inversion Hnd as [| ? ? Hfresh Hrest]; subst.
    destruct (IH Hrest) as (Hwf & Hap & Hkeys).
    assert (Hkeys' :
      Forall (fun c => exists b0,
                (b = b0 \/ In b0 (map fst rest))
                /\ price_low c = fst (range b0)
                /\ price_high c = snd (range b0))
        (clusters_of_buckets self reference_price s rest)).
    { eapply Forall_impl; [| exact Hkeys].
      intros c (b0 & Hin & Hl & Hh). exists b0. auto. }
    destruct (cluster_of_bucket self reference_price s b ls)
      as [c |] eqn:Hc; [| now repeat split].
    destruct (cluster_of_bucket_shape _ _ _ Hc) as (Hl & Hh & Hmid & Hfl).
    repeat split.
    + constructor; [| exact Hwf].
      split; [| split; assumption].
      unfold interval. rewrite Hl, Hh. apply range_interval.
    + constructor; [| exact Hap].
      rewrite Forall_forall in Hkeys |- *.
      intros c' Hc'. destruct (Hkeys c' Hc') as (b' & Hin & Hl' & Hh').
      assert (Hne : b <> b') by (intros ->; contradiction).
      unfold apart, before. rewrite Hl, Hh, Hl', Hh'.
      destruct (Z.lt_total b b') as [Hlt | [Heq | Hgt]];
        [left | contradiction | right]; now apply range_before.
    + constructor; [| exact Hkeys'].
      exists b. auto.
Qed.
End Candidates.

(** *** Sorting candidates by centre puts their intervals in order *)

Lemma inside (c : LiquidationCluster) :
  interval c -> midpoint c ->
  price_low c < price_center c /\ price_center c < price_high c.
Proof.
  unfold interval, midpoint. intros Hi Hm.
  assert (H : price_center c * 2 == price_low c + price_high c)
    by (rewrite Hm; field).
  split; lra.
Qed.

Lemma insert_ordered (x : LiquidationCluster) :
  interval x -> midpoint x ->
  forall l,
    Forall interval l -> Forall midpoint l ->
    Forall (apart x) l -> ForallOrdPairs before l ->
    ForallOrdPairs before (Py.insert_by price_center x l).
Proof.
  intros Hix Hmx. destruct (inside Hix Hmx) as [Hx1 Hx2].
  induction l as [| y l IH]; intros Hint Hmid Hap Hord; simpl.
  - repeat constructor.
  - inversion Hint as [| ? ? Hiy Hint']; subst.
    inversion Hmid as [| ? ? Hmy Hmid']; subst.
    inversion Hap as [| ? ? Hxy Hap']; subst.
    inversion Hord as [| ? ? Hy Hord']; subst.
    destruct (inside Hiy Hmy) as [Hy1 Hy2].
    destruct (Qle_bool (price_center x) (price_center y)) eqn:E.
    + apply Qle_bool_iff in E.
      assert (Hb : before x y).
      { destruct Hxy as [H | H]; [exact H |].
        unfold before in *. lra. }
      constructor; [| exact Hord].
      constructor; [exact Hb |].
      eapply Forall_impl; [| exact Hy].
      unfold before in *. unfold interval in Hiy. intros z Hz. lra.
    + assert (E' : price_center y < price_center x).
      { apply Qnot_le_lt. intro H. apply Qle_bool_iff in H.
        rewrite H in E. discriminate. }
      assert (Hb : before y x).
      { destruct Hxy as [H | H]; [| exact H].
        unfold before in *. lra. }
      constructor; [| now apply IH].
      eapply Permutation_Forall.
      * symmetry. apply PyFacts.insert_by_perm.
      * now constructor.
Qed.

Lemma sort_ordered (l : list LiquidationCluster) :
  Forall interval l -> Forall midpoint l -> ForallOrdPairs apart l ->
  ForallOrdPairs before (Py.sort_by price_center l).
Proof.
  induction l as [| x l IH]; intros Hint Hmid Hap; simpl.
  - constructor.
  - inversion Hint; inversion Hmid; inversion Hap; subst.
    assert (Hperm : Permutation l (Py.sort_by price_center l))
      by (symmetry; apply PyFacts.sort_by_perm).
    apply insert_ordered; try assumption.
    + now apply (Permutation_Forall Hperm).
    + now apply (Permutation_Forall Hperm).
    + now apply (Permutation_Forall Hperm).
    + now apply IH.
Qed.

(** *** One side of a map *)

Lemma ordered_disjoint (l : list LiquidationCluster) :
  ForallOrdPairs before l -> disjoint l.
Proof.
  intros H c c' Hc Hc'.
  destruct (ForallOrdPairs_In H _ _ Hc Hc') as [-> | [Hb | Hb]];
    [now left | right; now left | right; now right].
Qed.

Lemma disjoint_perm (l l' : list LiquidationCluster) :
  Permutation l l' -> disjoint l -> disjoint l'.
Proof.
  intros Hp H c c' Hc Hc'. symmetry in Hp.
  apply H; eapply Permutation_in; eauto.
Qed.

Lemma one_side_shape self reference_price side_levels s clusters :
  0 < reference_price -> 0 < bucket_percent self ->
  _aggregate_to_clusters self side_levels reference_price s = Ok clusters ->
  Forall well_formed clusters /\ disjoint clusters.
Proof.
  intros Href Hbp. unfold _aggregate_to_clusters.
  destruct side_levels as [| l0 rest] eqn:Hlevels.
  - intros [= <-]. split; [constructor | intros c c' []].
  - rewrite <- Hlevels. clear Hlevels l0 rest.
    destruct (group_by_bucket self reference_price side_levels [])
      as [buckets |] eqn:Hg; simpl; [| discriminate].
    intro Hm.
    destruct (BucketFacts.group_by_bucket_filed side_levels Href
                (BucketFacts.filed_nil self reference_price) Hg)
      as (Hnd & _ & _).
    destruct (@candidates_shape self reference_price Href Hbp s buckets
                Hnd) as (Hwf & Hap & _).
    set (candidates :=
           clusters_of_buckets self reference_price s buckets) in *.
    apply MergeFacts.merge_shape in Hm as [_ Hruns].
    assert (Hperm : Permutation candidates
                      (Py.sort_by price_center candidates))
      by (symmetry; apply PyFacts.sort_by_perm).
    assert (Hint : Forall interval candidates)
      by (eapply Forall_impl; [| exact Hwf]; now intros c [H _]).
    assert (Hmid : Forall midpoint candidates)
      by (eapply Forall_impl; [| exact Hwf]; now intros c (_ & H & _)).
    assert (Hfl : Forall above_floor candidates)
      by (eapply Forall_impl; [| exact Hwf]; now intros c (_ & _ & H)).
    destruct (merged_runs_ordered Hruns
                (Permutation_Forall Hperm Hint)
                (sort_ordered Hint Hmid Hap)) as [Hint' Hord'].
    pose proof (merged_runs_closed midpoint_closed Hruns
                  (Permutation_Forall Hperm Hmid)) as Hmid'.
    pose proof (merged_runs_closed above_floor_closed Hruns
                  (Permutation_Forall Hperm Hfl)) as Hfl'.
    split; [| now apply ordered_disjoint].
    rewrite Forall_forall in *. intros c Hc.
    split; [| split]; auto.
Qed.

Lemma sorted_side_shape (key : LiquidationCluster -> Q) clusters :
  Forall well_formed clusters /\ disjoint clusters ->
  Forall well_formed (Py.sort_by key clusters)
  /\ disjoint (Py.sort_by key clusters).
Proof.
  intros [Hwf Hd].
  assert (Hperm : Permutation clusters (Py.sort_by key clusters))
    by (symmetry; apply PyFacts.sort_by_perm).
  split.
  - now apply (Permutation_Forall Hperm).
  - now apply (disjoint_perm Hperm).
Qed.

(** X3.  In every map built at a positive price with a positive bucket
    width, each cluster of either side covers a non-empty price
    interval with its centre in the middle, holds at least $10,000 and
    at least one position, and the intervals of two clusters of one
    side share at most an edge. *)
Theorem clusters_are_disjoint_intervals self levels current coin_arg m :
  0 < current -> 0 < bucket_percent self ->
  aggregate_levels self levels current coin_arg = Ok m ->
  (Forall well_formed (long_liquidations m)
   /\ disjoint (long_liquidations m))
  /\ (Forall well_formed (short_liquidations m)
      /\ disjoint (short_liquidations m)).
Proof.
  intros Hpos Hbp H.
  destruct (MapFacts.aggregate_levels_fields self levels coin_arg Hpos H)
    as (lc & sc & Hcases & -> & -> & _).
  assert (Hempty : Forall well_formed (@nil LiquidationCluster)
                   /\ disjoint []).
  { split; [constructor | intros c c' []]. }
  destruct Hcases as [(_ & -> & ->) | [Hl Hs]].
  - split; apply sorted_side_shape; exact Hempty.
  - split; apply sorted_side_shape.
    + exact (@one_side_shape self current _ _ _ Hpos Hbp Hl).
    + exact (@one_side_shape self current _ _ _ Hpos Hbp Hs).
Qed.

(** The theorem on the map of the mixed scenario. *)
Lemma clusters_are_disjoint_intervals_witness :
  exists m,
    aggregate_levels Scenarios.default_aggregator Scenarios.mixed_levels
      100 "BTC" = Ok m
    /\ Forall well_formed (long_liquidations m)
    /\ disjoint (short_liquidations m).
Proof.
  eexists. split; [vm_compute; reflexivity |].
  match goal with
  | |- Forall _ (long_liquidations ?m) /\ _ =>
      destruct (@clusters_are_disjoint_intervals
                  Scenarios.default_aggregator Scenarios.mixed_levels
                  100 "BTC" m) as ((Hl & _) & (_ & Hs))
  end.
  - reflexivity.
  - reflexivity.
  - vm_compute. reflexivity.
  - split; assumption.
Defined.

End ClusterShape.

(** ** The maps of all coins *)

Module DictFacts.
Import LiquidationMaps.

Section Dict.
Variable V : Type.
Implicit Types (d : list (string * V)) (k : string) (v : V).

Lemma dict_get_set_same k v d : dict_get k (dict_set k v d) = Some v.
Proof.
  induction d as [| [k' v'] d IH]; simpl.
  - now rewrite String.eqb_refl.
  - destruct (String.eqb k k') eqn:E; simpl; rewrite E; auto.
Qed.

Lemma dict_get_set_other k k' v d :
  k' <> k -> dict_get k' (dict_set k v d) = dict_get k' d.
Proof.
  intro Hne. induction d as [| [k0 v0] d IH]; simpl.
  - destruct (String.eqb k' k) eqn:E; [| reflexivity].
    apply String.eqb_eq in E. contradiction.
  - destruct (String.eqb k k0) eqn:E; simpl.
    + apply String.eqb_eq in E. subst k0.
      destruct (String.eqb k' k) eqn:E'; [| reflexivity].
      apply String.eqb_eq in E'. contradiction.
    + now rewrite IH.
Qed.

Lemma dict_get_none k d : dict_get k d = None <-> ~ In k (map fst d).
Proof.
  induction d as [| [k' v'] d IH]; simpl.
  - tauto.
  - destruct (String.eqb k k') eqn:E.
    + apply String.eqb_eq in E. subst. split; [discriminate | tauto].
    + apply String.eqb_neq in E. rewrite IH. split.
      * intros H [H' | H']; [congruence | contradiction].
      * tauto.
Qed.

Lemma dict_get_in k v d : dict_get k d = Some v -> In (k, v) d.
Proof.
  induction d as [| [k' v'] d IH]; simpl; [discriminate |].
  destruct (String.eqb k k') eqn:E.
  - apply String.eqb_eq in E. subst. intros [= ->]. now left.
  - intro H. right. now apply IH.
Qed.

Lemma in_dict_get k v d :
  NoDup (map fst d) -> In (k, v) d -> dict_get k d = Some v.
Proof.
  induction d as [| [k' v'] d IH]; simpl; intros Hnd Hin; [destruct Hin |].
  inversion Hnd as [| ? ? Hfresh Hnd']; subst.
  destruct Hin as [[= -> ->] | Hin].
  - now rewrite String.eqb_refl.
  - destruct (String.eqb k k') eqn:E; [| now apply IH].
    apply String.eqb_eq in E. subst k'. exfalso. apply Hfresh.
    change k with (fst (k, v)). now apply in_map.
Qed.

Lemma dict_set_keys k v d :
  map fst (dict_set k v d)
  = if existsb (String.eqb k) (map fst d) then map fst d
    else (map fst d ++ [k])%list.
Proof.
  induction d as [| [k' v'] d IH]; simpl; [reflexivity |].
  destruct (String.eqb k k') eqn:E; simpl; [reflexivity |].
  rewrite IH. now destruct (existsb (String.eqb k) (map fst d)).
Qed.

Lemma dict_set_nodup k v d :
  NoDup (map fst d) -> NoDup (map fst (dict_set k v d)).
Proof.
  intro Hnd. rewrite dict_set_keys.
  destruct (existsb (String.eqb k) (map fst d)) eqn:E; [exact Hnd |].
  apply NoDup_app; [exact Hnd | repeat constructor; intros [] |].
  intros x Hx [<- | []].
  assert (existsb (String.eqb k) (map fst d) = true).
  { apply existsb_exists. exists k. split; [exact Hx |].
    apply String.eqb_refl. }
  congruence.
Qed.

Lemma dict_set_in_keys k k' v d :
  In k' (map fst (dict_set k v d)) <-> k' = k \/ In k' (map fst d).
Proof.
  rewrite dict_set_keys.
  destruct (existsb (String.eqb k) (map fst d)) eqn:E.
  - apply existsb_exists in E as (x & Hx & Hk).
    apply String.eqb_eq in Hk. subst x. split; [tauto |].
    intros [-> | H]; assumption.
  - rewrite in_app_iff. simpl. split; [| intros [-> | H]; auto].
    intros [H | [<- | []]]; auto.
Qed.
End Dict.

End DictFacts.

Module AllCoins.
Import Json LiquidationAggregator LiquidationMaps MapSpec DictFacts.

(** *** Grouping by coin *)

Lemma key_eqb_string (k : value) (c : string) :
  key_eqb k (JStr c) = eq_str k c.
Proof.
  destruct k as [| b | q | s | items | fields]; reflexivity.
Qed.

Lemma string_key_eqb (c : string) (k : value) :
  key_eqb (JStr c) k = eq_str k c.
Proof.
  destruct k as [| b | q | s | items | fields]; try reflexivity.
  simpl. apply String.eqb_sym.
Qed.

Lemma string_groups_append c0 l groups :
  string_groups (coin_append c0 l groups) =
  match c0 with
  | JStr c =>
      dict_set c
        (match dict_get c (string_groups groups) with
         | Some ls => (ls ++ [l])%list
         | None => [l]
         end)
        (string_groups groups)
  | _ => string_groups groups
  end.
Proof.
  induction groups as [| [k ls] groups IH]; simpl.
  - now destruct c0.
  - destruct (key_eqb k c0) eqn:E.
    + destruct c0 as [| b | q | c | items | fields];
        try (destruct k; simpl in E; try discriminate; reflexivity).
      rewrite key_eqb_string in E.
      destruct k as [| b | q | s | items | fields]; try discriminate.
      simpl in E. apply String.eqb_eq in E. subst s.
      simpl. now rewrite String.eqb_refl.
    + simpl. rewrite IH.
      destruct c0 as [| b | q | c | items | fields];
        try (now destruct k).
      rewrite key_eqb_string in E.
      destruct k as [| b | q | s | items | fields]; try reflexivity.
      simpl in E. simpl. rewrite String.eqb_sym, E. reflexivity.
Qed.

Lemma levels_of_coin_snoc c pre l :
  levels_of_coin c (pre ++ [l])
  = (levels_of_coin c pre
     ++ if eq_str (level_coin l) c then [l] else [])%list.
Proof.
  unfold levels_of_coin. rewrite filter_app. simpl.
  now destruct (eq_str (level_coin l) c).
Qed.

Lemma grouped_nil : grouped [] [].
Proof.
  split; [constructor |]. split; [discriminate | reflexivity].
Qed.

Lemma grouped_step groups pre l :
  grouped (string_groups groups) pre ->
  grouped (string_groups (coin_append (level_coin l) l groups))
    (pre ++ [l]).
Proof.
  intros (Hnd & Hsome & Hnone). rewrite string_groups_append.
  set (sg := string_groups groups) in *.
  destruct (level_coin l) as [| b | q | c0 | items | fields] eqn:Hcoin;
    try (split; [exact Hnd |]; split;
         [ intros c ls H; rewrite levels_of_coin_snoc, Hcoin; simpl;
           rewrite app_nil_r; now apply Hsome
         | intros c H; rewrite levels_of_coin_snoc, Hcoin; simpl;
           rewrite app_nil_r; now apply Hnone ]).
  split; [now apply dict_set_nodup |].
  split.
  - intros c ls H. rewrite levels_of_coin_snoc, Hcoin. simpl.
    destruct (String.eqb c0 c) eqn:E.
    + apply String.eqb_eq in E. subst c0.
      rewrite dict_get_set_same in H. injection H as <-.
      destruct (dict_get c sg) as [old |] eqn:Hold.
      * destruct (Hsome c old Hold) as [-> _].
        split; [reflexivity |]. now destruct (levels_of_coin c pre).
      * rewrite (Hnone c Hold). split; [reflexivity | discriminate].
    + apply String.eqb_neq in E.
      rewrite dict_get_set_other in H by congruence.
      rewrite app_nil_r. now apply Hsome.
  - intros c H. rewrite levels_of_coin_snoc, Hcoin. simpl.
    destruct (String.eqb c0 c) eqn:E.
    + apply String.eqb_eq in E. subst c0.
      rewrite dict_get_set_same in H. discriminate.
    + apply String.eqb_neq in E.
      rewrite dict_get_set_other in H by congruence.
      rewrite app_nil_r. now apply Hnone.
Qed.

Lemma group_by_coin_grouped all_levels : forall groups pre g,
  grouped (string_groups groups) pre ->
  group_by_coin all_levels groups = Ok g ->
  grouped (string_groups g) (pre ++ all_levels).
Proof.
  induction all_levels as [| l rest IH]; intros groups pre g Hg H.
  - simpl in H. injection H as <-. now rewrite app_nil_r.
  - simpl in H.
    destruct (hashable (level_coin l)); [| discriminate].
    replace (pre ++ l :: rest)%list with ((pre ++ [l]) ++ rest)%list
      by (now rewrite <- app_assoc).
    eapply IH; [| exact H]. now apply grouped_step.
Qed.

Lemma group_by_coin_returns all_levels : forall groups,
  Forall (fun l => hashable (level_coin l) = true) all_levels ->
  Py.returns (group_by_coin all_levels groups).
Proof.
  induction all_levels as [| l rest IH]; intros groups H; simpl.
  - eexists. reflexivity.
  - inversion H as [| ? ? Hl Hrest]; subst. rewrite Hl. now apply IH.
Qed.

(** Every group holds levels of the scan. *)
Lemma coin_append_members (P : LiquidationLevel -> Prop) c l groups :
  P l -> Forall (fun e => Forall P (snd e)) groups ->
  Forall (fun e => Forall P (snd e)) (coin_append c l groups).
Proof.
  intros Hl. induction 1 as [| [k ls] groups Hk Hrest IH]; simpl.
  - repeat constructor. exact Hl.
  - destruct (key_eqb k c).
    + constructor; [| exact Hrest]. simpl in *.
      apply Forall_app. split; [exact Hk | now repeat constructor].
    + constructor; [exact Hk | exact IH].
Qed.

Lemma group_by_coin_members (P : LiquidationLevel -> Prop) all_levels :
  forall groups g,
    Forall P all_levels ->
    Forall (fun e => Forall P (snd e)) groups ->
    group_by_coin all_levels groups = Ok g ->
    Forall (fun e => Forall P (snd e)) g.
Proof.
  induction all_levels as [| l rest IH]; intros groups g Hall Hg H.
  - simpl in H. now injection H as <-.
  - simpl in H. inversion Hall as [| ? ? Hl Hrest]; subst.
    destruct (hashable (level_coin l)); [| discriminate].
    eapply IH; [exact Hrest | | exact H].
    now apply coin_append_members.
Qed.

(** *** The loop over the groups *)

Lemma prices_get_not_string prices k d :
  (forall c, k <> JStr c) -> prices_get prices k d = d.
Proof.
  intro H. destruct k; try reflexivity. now destruct (H s).
Qed.

Lemma build_maps_get self prices groups : forall maps0 maps,
  NoDup (map fst (string_groups groups)) ->
  build_maps self groups prices maps0 = Ok maps ->
  forall c,
    match dict_get c (string_groups groups) with
    | Some levels =>
        if Py.Qltb 0 (price_of prices c) then
          exists m,
            dict_get c maps = Some m
            /\ aggregate_levels self levels (price_of prices c) c = Ok m
        else dict_get c maps = dict_get c maps0
    | None => dict_get c maps = dict_get c maps0
    end.
Proof.
  induction groups as [| [k levels] groups IH]; intros maps0 maps Hnd H c.
  - simpl in *. now injection H as <-.
  - simpl in H.
    destruct k as [| b | q | c0 | items | fields];
      try (simpl in H; now apply IH).
    simpl in Hnd. inversion Hnd as [| ? ? Hfresh Hnd']; subst.
    change (prices_get prices (JStr c0) 0) with (price_of prices c0) in H.
    simpl string_groups. simpl dict_get.
    destruct (String.eqb c c0) eqn:E.
    + apply String.eqb_eq in E. subst c0.
      assert (Hnone : dict_get c (string_groups groups) = None)
        by (now apply dict_get_none).
      destruct (Py.Qltb 0 (price_of prices c)).
      * destruct (aggregate_levels self levels (price_of prices c) c)
          as [m |] eqn:Hm; simpl in H; [| discriminate].
        specialize (IH _ _ Hnd' H c). rewrite Hnone in IH.
        exists m. split; [| reflexivity].
        rewrite IH. apply dict_get_set_same.
      * specialize (IH _ _ Hnd' H c). now rewrite Hnone in IH.
    + apply String.eqb_neq in E.
      destruct (Py.Qltb 0 (price_of prices c0)).
      * destruct (aggregate_levels self levels (price_of prices c0) c0)
          as [m |] eqn:Hm; simpl in H; [| discriminate].
        specialize (IH _ _ Hnd' H c).
        rewrite dict_get_set_other in IH by exact E. exact IH.
      * exact (IH _ _ Hnd' H c).
Qed.

Lemma build_maps_keys self prices groups : forall maps0 maps,
  build_maps self groups prices maps0 = Ok maps ->
  NoDup (map fst maps0) -> NoDup (map fst maps).
Proof.
  induction groups as [| [k levels] groups IH]; intros maps0 maps H Hnd.
  - simpl in H. now injection H as <-.
  - simpl in H.
    destruct (Py.Qltb 0 (prices_get prices k 0)); [| now apply (IH maps0)].
    destruct k as [| b | q | c0 | items | fields];
      try (now apply (IH maps0)).
    destruct (aggregate_levels self levels (prices_get prices (JStr c0) 0)
                c0) as [m |]; simpl in H; [| discriminate].
    apply (IH _ _ H). now apply dict_set_nodup.
Qed.

Lemma aggregate_levels_returns self levels current c :
  0 < bucket_percent self ->
  Forall (fun l => 0 < level_price l) levels ->
  Py.returns (aggregate_levels self levels current c).
Proof.
  intros Hbp Hprices. unfold aggregate_levels.
  destruct (match levels with [] => true | _ => false end) eqn:Hnil;
    [eexists; reflexivity |].
  destruct (Qle_bool current 0) eqn:Hcur; [eexists; reflexivity |].
  assert (Hpos : 0 < current).
  { apply Qnot_le_lt. intro H. apply Qle_bool_iff in H. congruence. }
  simpl.
  destruct (MapFacts.aggregate_to_clusters_returns self Hpos "long" Hbp
              (@AggregatorCorrectness.Forall_filter _ _ (is_side "long") _
                 Hprices)) as [lc ->].
  destruct (MapFacts.aggregate_to_clusters_returns self Hpos "short" Hbp
              (@AggregatorCorrectness.Forall_filter _ _ (is_side "short") _
                 Hprices)) as [sc ->].
  simpl. eexists. reflexivity.
Qed.

Lemma build_maps_returns self prices groups : forall maps0,
  0 < bucket_percent self ->
  Forall (fun e => Forall (fun l => 0 < level_price l) (snd e)) groups ->
  Py.returns (build_maps self groups prices maps0).
Proof.
  induction groups as [| [k levels] groups IH]; intros maps0 Hbp H; simpl.
  - eexists. reflexivity.
  - inversion H as [| ? ? Hk Hrest]; subst. simpl in Hk.
    destruct (Py.Qltb 0 (prices_get prices k 0)); [| now apply IH].
    destruct k as [| b | q | c0 | items | fields]; try (now apply IH).
    destruct (@aggregate_levels_returns self levels
                (prices_get prices (JStr c0) 0) c0 Hbp Hk) as [m ->].
    simpl. now apply IH.
Qed.

Lemma aggregate_levels_header self levels current c m :
  aggregate_levels self levels current c = Ok m ->
  map_coin m = c /\ current_price m = current.
Proof.
  unfold aggregate_levels.
  destruct (match levels with [] => true | _ => false end
            || Qle_bool current 0).
  - intros [= <-]. split; reflexivity.
  - destruct (_aggregate_to_clusters self (filter (is_side "long") levels)
                current "long") as [lc |]; simpl; [| discriminate].
    destruct (_aggregate_to_clusters self (filter (is_side "short") levels)
                current "short") as [sc |]; simpl; [| discriminate].
    intros [= <-]. split; reflexivity.
Qed.

(** The maps of a call, coin by coin. *)
Lemma maps_per_coin self all_levels prices maps :
  build_maps_from_levels self all_levels prices = Ok maps ->
  NoDup (map fst maps)
  /\ forall c,
       match dict_get c maps with
       | Some m =>
           0 < price_of prices c
           /\ levels_of_coin c all_levels <> []
           /\ aggregate_levels self (levels_of_coin c all_levels)
                (price_of prices c) c = Ok m
       | None =>
           price_of prices c <= 0 \/ levels_of_coin c all_levels = []
       end.
Proof.
  intro H. unfold build_maps_from_levels in H.
  destruct (group_by_coin all_levels []) as [groups |] eqn:Hg;
    simpl in H; [| discriminate].
  pose proof (group_by_coin_grouped all_levels [] grouped_nil Hg)
    as (Hnd & Hsome & Hnone).
  simpl in Hsome, Hnone.
  split; [apply (@build_maps_keys self prices groups [] maps H);
          constructor |].
  intro c.
  pose proof (@build_maps_get self prices groups [] maps Hnd H c) as Hc.
  destruct (dict_get c (string_groups groups)) as [levels |] eqn:Hgc.
  - destruct (Hsome c levels Hgc) as [-> Hne].
    destruct (Py.Qltb 0 (price_of prices c)) eqn:Hp.
    + destruct Hc as (m & -> & Hm).
      apply PyFacts.Qltb_true in Hp. auto.
    + rewrite Hc. simpl. left. now apply PyFacts.Qltb_false.
  - rewrite Hc. simpl. right. now apply Hnone.
Qed.

(** X4.  [build_maps_from_levels] keeps one map per coin, under
    distinct keys.  A coin has a map exactly when some level carries
    it (as a string) and its price in [prices] is positive; a coin
    without a price, or with a price that is not positive, has none.
    The map of a coin is what [aggregate_levels] makes of the levels
    of that coin, in scan order, at that price.  The call returns
    whenever every coin can be hashed, the bucket width is positive
    and so is every level price. *)
Theorem build_maps_from_levels_per_coin self all_levels prices :
  (forall maps,
      build_maps_from_levels self all_levels prices = Ok maps ->
      NoDup (map fst maps)
      /\ forall c,
           match dict_get c maps with
           | Some m =>
               0 < price_of prices c
               /\ levels_of_coin c all_levels <> []
               /\ aggregate_levels self (levels_of_coin c all_levels)
                    (price_of prices c) c = Ok m
           | None =>
               price_of prices c <= 0 \/ levels_of_coin c all_levels = []
           end)
  /\ (Forall (fun l => hashable (level_coin l) = true) all_levels ->
      0 < bucket_percent self ->
      Forall (fun l => 0 < level_price l) all_levels ->
      Py.returns (build_maps_from_levels self all_levels prices)).
Proof.
  split.
  - intros maps H. now apply maps_per_coin.
  - intros Hhash Hbp Hprices. unfold build_maps_from_levels.
    destruct (group_by_coin_returns [] Hhash) as [groups Hg].
    rewrite Hg. simpl. apply build_maps_returns; [exact Hbp |].
    eapply group_by_coin_members; [exact Hprices | constructor | exact Hg].
Qed.

(** The maps of the levels with a spot pair, at the prices of the
    venue: BTC has a map, SOL (no price) and the spot pair (price not
    read) have none. *)
Example maps_of_levels_with_spot :
  exists m,
    build_maps_from_levels Scenarios.default_aggregator
      Cases.levels_with_spot [("BTC", 100); ("ETH", 2500.5)]%string
    = Ok [("BTC"%string, m)]
    /\ total_short_at_risk_usd m == 250000.
Proof.
  eexists. split; vm_compute; reflexivity.
Qed.

End AllCoins.

(** ** Trading signals *)

Module TradingSignals.
Import Json LiquidationAggregator LiquidationMaps MapSpec.

Lemma in_alert_band_iff d :
  in_alert_band d = true <-> 0.5 <= d /\ d <= 3.
Proof.
  unfold in_alert_band. rewrite andb_true_iff, !Qle_bool_iff. tauto.
Qed.

(** The three ways a check of one cluster ends. *)
Lemma check_cluster_cases short_side c current cluster signals :
  (current == 0
   /\ check_cluster short_side c current cluster signals
      = Py.Raise Py.ZeroDivisionError)
  \/ (~ current == 0 /\ in_band short_side current cluster
      /\ check_cluster short_side c current cluster signals
         = Py.Raise Py.AttributeError)
  \/ (~ current == 0 /\ ~ in_band short_side current cluster
      /\ check_cluster short_side c current cluster signals = Ok signals).
Proof.
  unfold check_cluster, in_band, Py.div.
  destruct (Qeq_bool current 0) eqn:E.
  - left. apply Qeq_bool_iff in E. split; [exact E | reflexivity].
  - right.
    assert (Hne : ~ current == 0).
    { intro H. apply Qeq_bool_iff in H. congruence. }
    simpl.
    destruct (in_alert_band _) eqn:Hband.
    + left. apply in_alert_band_iff in Hband.
      split; [exact Hne |]. split; [exact Hband | reflexivity].
    + right. split; [exact Hne |]. split; [| reflexivity].
      intro H. apply in_alert_band_iff in H. congruence.
Qed.

Lemma check_nearest_cases (short_side : bool) c current nearest :
  (check_nearest short_side c current nearest [] = Ok []
   /\ forall cluster, nearest = Some cluster ->
        ~ current == 0 /\ ~ in_band short_side current cluster)
  \/ ((check_nearest short_side c current nearest []
       = Py.Raise Py.ZeroDivisionError
       \/ check_nearest short_side c current nearest []
          = Py.Raise Py.AttributeError)
      /\ exists cluster,
           nearest = Some cluster
           /\ (current == 0 \/ in_band short_side current cluster)).
Proof.
  destruct nearest as [cluster |]; simpl.
  - destruct (check_cluster_cases short_side c current cluster [])
      as [[H0 ->] | [(Hne & Hb & ->) | (Hne & Hb & ->)]].
    + right. split; [now left |]. exists cluster. auto.
    + right. split; [now right |]. exists cluster. auto.
    + left. split; [reflexivity |]. now intros cl [= <-].
  - left. split; [reflexivity | discriminate].
Qed.

Lemma scan_maps_cons c m maps prices signals :
  scan_maps ((c, m) :: maps) prices signals
  = (s1 <- check_nearest true c
             (prices_get prices (JStr c) (current_price m))
             (nearest_short_cluster m) signals ;;
     s2 <- check_nearest false c
             (prices_get prices (JStr c) (current_price m))
             (nearest_long_cluster m) s1 ;;
     scan_maps maps prices s2).
Proof.
  reflexivity.
Qed.

Lemma scan_maps_cases prices maps :
  (scan_maps maps prices [] = Ok []
   /\ forall c m, In (c, m) maps -> quiet prices c m)
  \/ ((scan_maps maps prices [] = Py.Raise Py.ZeroDivisionError
       \/ scan_maps maps prices [] = Py.Raise Py.AttributeError)
      /\ exists c m, In (c, m) maps /\ ~ quiet prices c m).
Proof.
  induction maps as [| [c m] maps IH].
  - left. split; [reflexivity | intros c m []].
  - rewrite scan_maps_cons.
    set (current := prices_get prices (JStr c) (current_price m)).
    assert (Hloud : forall (short_side : bool) cluster,
              (if short_side then nearest_short_cluster m
               else nearest_long_cluster m) = Some cluster ->
              current == 0 \/ in_band short_side current cluster ->
              ~ quiet prices c m).
    { intros short_side cluster Hn Hbad [Hs Hl].
      fold current in Hs, Hl.
      destruct short_side;
        [destruct (Hs _ Hn) | destruct (Hl _ Hn)]; tauto. }
    destruct (check_nearest_cases true c current (nearest_short_cluster m))
      as [[-> Hs] | [Hr (cl & Hcl & Hbad)]];
      cbv beta iota delta [Py.bind].
    + destruct (check_nearest_cases false c current
                  (nearest_long_cluster m))
        as [[-> Hl] | [Hr (cl & Hcl & Hbad)]];
        cbv beta iota delta [Py.bind].
      * destruct IH as [[-> Hq] | [Hr (c' & m' & Hin & Hnq)]].
        -- left. split; [reflexivity |].
           intros c' m' [[= <- <-] | Hin]; [| now apply Hq].
           split; assumption.
        -- right. split; [exact Hr |]. exists c', m'.
           split; [now right | exact Hnq].
      * right. split.
        -- destruct Hr as [-> | ->]; [now left | now right].
        -- exists c, m. split; [now left |].
           now apply (Hloud false cl).
    + right. split.
      * destruct Hr as [-> | ->]; [now left | now right].
      * exists c, m. split; [now left |]. now apply (Hloud true cl).
Qed.

(** X5.  [get_trading_signals] never produces a signal.  It returns
    the empty list exactly when, for every map, each nearest cluster
    lies outside the band of 0.5% to 3% around a price in force that
    is not zero; otherwise it raises: [AttributeError] at the read of
    [config.ALERT_CLUSTER_SIZE_USD], which [Config] does not define, or
    [ZeroDivisionError] at a price of zero. *)
Theorem get_trading_signals_never_signals maps prices :
  (forall signals,
      get_trading_signals maps prices = Ok signals -> signals = [])
  /\ (forall e,
        get_trading_signals maps prices = Py.Raise e ->
        e = Py.AttributeError \/ e = Py.ZeroDivisionError)
  /\ (Py.returns (get_trading_signals maps prices)
      <-> forall c m, In (c, m) maps -> quiet prices c m).
Proof.
  unfold get_trading_signals.
  destruct (scan_maps_cases prices maps)
    as [[-> Hq] | [[-> | ->] (c & m & Hin & Hnq)]]; simpl.
  - split; [now intros s [= <-] |]. split; [discriminate |].
    split; [intros _; exact Hq | intros _; eexists; reflexivity].
  - split; [discriminate |]. split; [intros e [= <-]; now right |].
    split; [intros [s Hs]; discriminate |].
    intro H. destruct (Hnq (H c m Hin)).
  - split; [discriminate |]. split; [intros e [= <-]; now left |].
    split; [intros [s Hs]; discriminate |].
    intro H. destruct (Hnq (H c m Hin)).
Qed.

End TradingSignals.

(** ** The results and the cache of a scan *)

Module ScanState.
Import HyperliquidAPI PositionScanner ScannerSpec CacheSpec ProofTactics.

Lemma visit_position_state st p st' :
  visit_position st p = Ok st' ->
  st_all_positions st'
  = (st_all_positions st ++ filter is_tracked [p])%list
  /\ st_by_coin st' = file_positions (st_by_coin st) (filter is_tracked [p]).
Proof.
  unfold visit_position, is_tracked. simpl. intro H.
  destruct (Py.Qltb (notional_value p) Config.MIN_POSITION_VALUE_USD);
    simpl.
  - injection H as <-. now rewrite app_nil_r.
  - destruct (negb (Json.hashable (HyperliquidAPI.coin p)));
      [discriminate |].
    injection H as <-. split; reflexivity.
Qed.

Lemma file_positions_app idx ps qs :
  file_positions idx (ps ++ qs) = file_positions (file_positions idx ps) qs.
Proof.
  apply fold_left_app.
Qed.

Lemma visit_positions_state ps : forall st st',
  visit_positions st ps = Ok st' ->
  st_all_positions st' = (st_all_positions st ++ filter is_tracked ps)%list
  /\ st_by_coin st' = file_positions (st_by_coin st) (filter is_tracked ps).
Proof.
  induction ps as [| p ps IH]; intros st st' H; simpl in H.
  - injection H as <-. simpl. now rewrite app_nil_r.
  - step_ok H. apply visit_position_state in E as [Ha Hc].
    apply IH in H as [Ha' Hc'].
    change (p :: ps) with ([p] ++ ps)%list.
    rewrite filter_app, file_positions_app, app_assoc.
    rewrite Ha', Hc', Ha, Hc. split; reflexivity.
Qed.

Lemma visit_results_state api ws : forall st st',
  visit_results st (map (scan_wallet api) ws) = Ok st' ->
  st_all_positions st'
  = (st_all_positions st
     ++ filter is_tracked (flat_map (positions_of api) ws))%list
  /\ st_by_coin st'
     = file_positions (st_by_coin st)
         (filter is_tracked (flat_map (positions_of api) ws)).
Proof.
  induction ws as [| w ws IH]; intros st st' H; simpl in H.
  - injection H as <-. simpl. now rewrite app_nil_r.
  - step_ok H. rewrite ScannerFacts.scan_wallet_eq in E. simpl in E.
    apply visit_positions_state in E as [Ha Hc].
    apply IH in H as [Ha' Hc']. simpl.
    rewrite filter_app, file_positions_app, app_assoc.
    rewrite Ha', Hc', Ha, Hc. split; reflexivity.
Qed.

Lemma scan_batches_state api batch_size fuel : forall ws st st',
  (0 < batch_size)%nat ->
  (List.length ws <= fuel)%nat ->
  scan_batches api batch_size fuel ws st = Ok st' ->
  st_all_positions st'
  = (st_all_positions st
     ++ filter is_tracked (flat_map (positions_of api) ws))%list
  /\ st_by_coin st'
     = file_positions (st_by_coin st)
         (filter is_tracked (flat_map (positions_of api) ws)).
Proof.
  induction fuel as [| fuel IH]; intros ws st st' Hb Hlen H.
  - destruct ws; [| simpl in Hlen; lia].
    simpl in H. injection H as <-. simpl. now rewrite app_nil_r.
  - destruct ws as [| w ws'] eqn:Hws.
    + simpl in H. injection H as <-. simpl. now rewrite app_nil_r.
    + rewrite <- Hws in *.
      assert (Hstep : scan_batches api batch_size (S fuel) ws st =
                (st1 <- visit_results st
                          (map (scan_wallet api) (firstn batch_size ws)) ;;
                 scan_batches api batch_size fuel (skipn batch_size ws)
                   st1))
        by (rewrite Hws; reflexivity).
      rewrite Hstep in H. step_ok H.
      apply visit_results_state in E as [Ha Hc].
      apply IH in H as [Ha' Hc']; [| exact Hb |].
      * rewrite Ha', Hc', Ha, Hc.
        rewrite <- file_positions_app, <- app_assoc, <- filter_app,
          <- flat_map_app, firstn_skipn.
        split; reflexivity.
      * rewrite length_skipn.
        assert (List.length ws = S (List.length ws'))
          by (rewrite Hws; reflexivity).
        lia.
Qed.

(** The state a scan ends in. *)
Lemma scan_wallets_state api wallets r :
  scan_wallets api wallets = Ok r ->
  total_wallets_scanned r = List.length (scanned wallets)
  /\ total_positions_found r = List.length (tracked_positions api wallets)
  /\ total_long_exposure_usd r
     = exposure true (tracked_positions api wallets)
  /\ total_short_exposure_usd r
     = exposure false (tracked_positions api wallets)
  /\ positions_by_coin r
     = file_positions [] (tracked_positions api wallets).
Proof.
  unfold scan_wallets. intro H. step_ok H. injection H as <-. simpl.
  apply scan_batches_state in E as [Ha Hc].
  - simpl in Ha, Hc. unfold tracked_positions, scanned.
    rewrite Ha, Hc. repeat split; reflexivity.
  - unfold Config.API_REQUESTS_PER_SECOND. lia.
  - apply Nat.le_refl.
Qed.

(** *** Looking a coin up in the index *)

Lemma cache_get_append c c0 p idx :
  ScannerCache.cache_get (Json.JStr c) (index_append c0 p idx)
  = (ScannerCache.cache_get (Json.JStr c) idx
     ++ if Json.eq_str c0 c then [p] else [])%list.
Proof.
  induction idx as [| [k ps] idx IH]; simpl.
  - now rewrite AllCoins.key_eqb_string.
  - rewrite !AllCoins.key_eqb_string.
    destruct (Json.key_eqb k c0) eqn:E; simpl;
      rewrite AllCoins.key_eqb_string.
    + destruct (Json.eq_str k c) eqn:Ek.
      * destruct k; try discriminate. simpl in Ek.
        apply String.eqb_eq in Ek. subst s.
        rewrite AllCoins.string_key_eqb in E. now rewrite E.
      * destruct (Json.eq_str c0 c) eqn:E0; [| now rewrite app_nil_r].
        destruct c0; try discriminate. simpl in E0.
        apply String.eqb_eq in E0. subst s.
        rewrite AllCoins.key_eqb_string in E. congruence.
    + destruct (Json.eq_str k c) eqn:Ek; [| exact IH].
      destruct (Json.eq_str c0 c) eqn:E0; [| now rewrite app_nil_r].
      destruct k; try discriminate. simpl in Ek.
      apply String.eqb_eq in Ek. subst s.
      rewrite AllCoins.string_key_eqb in E. congruence.
Qed.

Lemma cache_get_filed c ps : forall idx,
  ScannerCache.cache_get (Json.JStr c) (file_positions idx ps)
  = (ScannerCache.cache_get (Json.JStr c) idx
     ++ positions_of_coin c ps)%list.
Proof.
  induction ps as [| p ps IH]; intro idx; simpl.
  - now rewrite app_nil_r.
  - unfold file_positions in *. simpl. rewrite IH, cache_get_append.
    rewrite <- app_assoc. f_equal.
    now destruct (Json.eq_str (HyperliquidAPI.coin p) c).
Qed.

Lemma levels_of_coin_tracked c ps :
  filter (fun l => Json.eq_str (PositionScanner.coin l) c)
    (levels_of_positions ps)
  = flat_map level_if_any (positions_of_coin c (filter is_tracked ps)).
Proof.
  unfold levels_of_positions, positions_of_coin.
  induction ps as [| p ps IH]; simpl; [reflexivity |].
  rewrite filter_app, IH. unfold levels_of_position, is_tracked.
  destruct (Py.Qltb (notional_value p) Config.MIN_POSITION_VALUE_USD);
    simpl; [reflexivity |].
  unfold level_if_any at 2.
  destruct (Json.eq_str (HyperliquidAPI.coin p) c) eqn:E; simpl.
  - unfold level_if_any at 1.
    destruct (liquidation_price p); simpl; [now rewrite E | reflexivity].
  - destruct (liquidation_price p); simpl; [now rewrite E | reflexivity].
Qed.

End ScanState.

Module ScanResults.
Import HyperliquidAPI PositionScanner ScannerSpec CacheSpec ProofTactics.

(** *** Exposure *)






(** X7.  The cache a scan leaves answers by coin.  The positions
    cached for a coin are the kept positions of that coin, in scan
    order, and the liquidation levels returned for the coin are the
    levels of exactly those positions, one for each position that has
    a liquidation price. *)
Theorem cache_answers_by_coin api wallets r sc (c : string) :
  ScannerCache.scan_and_cache api wallets = Ok (r, sc) ->
  ScannerCache.get_positions_for_coin sc c
  = positions_of_coin c (tracked_positions api wallets)
  /\ ScannerCache.get_liquidation_levels_for_coin sc c
     = flat_map level_if_any (ScannerCache.get_positions_for_coin sc c).
Proof.
  unfold ScannerCache.scan_and_cache. intro H. step_ok H.
  injection H as <- <-.
  destruct (ScanState.scan_wallets_state _ _ E) as (_ & _ & _ & _ & Hidx).
  destruct (ScannerFacts.scan_wallets_ok _ _ E) as [_ Hlevels].
  unfold ScannerCache.get_positions_for_coin,
    ScannerCache.get_liquidation_levels_for_coin. simpl.
  rewrite Hidx, Hlevels, ScanState.cache_get_filed. simpl.
  split; [reflexivity |].
  apply ScanState.levels_of_coin_tracked.
Qed.

(** The theorem on a scan of three wallets that hold one BTC position
    each. *)
Lemma cache_answers_by_coin_witness :
  exists r sc,
    ScannerCache.scan_and_cache Cases.sound_venue Cases.three_wallets
    = Ok (r, sc)
    /\ ScannerCache.last_scan_result sc = Some r
    /\ ScannerCache.get_liquidation_levels_for_coin sc "BTC"
       = flat_map level_if_any
           (ScannerCache.get_positions_for_coin sc "BTC"%string).
Proof.
  do 2 eexists. split; [vm_compute; reflexivity |].
  match goal with
  | |- ScannerCache.last_scan_result ?sc = Some ?r /\ _ =>
      destruct (@cache_answers_by_coin Cases.sound_venue
                  Cases.three_wallets r sc "BTC"%string) as [_ Hlv]
  end.
  - vm_compute. reflexivity.
  - split; [reflexivity | exact Hlv].
Defined.

(** *** What the client reports *)




(** A sound position followed by a malformed one: nothing is
    reported. *)
Example half_malformed_wallet_is_empty :
  get_user_positions Cases.half_malformed_venue "0xa"%string = Ok []
  /\ exists p,
       get_user_positions Cases.sound_venue "0xa"%string = Ok [p].
Proof.
  split; [vm_compute; reflexivity |].
  eexists. vm_compute. reflexivity.
Qed.

End ScanResults.

(** ** Current prices *)

Module PriceFacts.
Import Json LiquidationAggregator LiquidationMaps CurrentPrices MapSpec.
Import DictFacts.

Lemma comprehension_cons k v fields prices :
  comprehension ((k, v) :: fields) prices
  = if Lib.startswith k "@" then comprehension fields prices
    else p <- float v ;; comprehension fields (dict_set k p prices).
Proof.
  reflexivity.
Qed.

Lemma comprehension_get fields : forall prices0 prices,
  comprehension fields prices0 = Ok prices ->
  forall k,
    match dict_get k prices with
    | Some p =>
        (Lib.startswith k "@" = false
         /\ exists v, In (k, v) fields /\ float v = Ok p)
        \/ dict_get k prices0 = Some p
    | None =>
        dict_get k prices0 = None
        /\ forall v, In (k, v) fields -> Lib.startswith k "@" = true
    end.
Proof.
  induction fields as [| [k0 v0] fields IH]; intros prices0 prices H k.
  - simpl in H. injection H as <-.
    destruct (dict_get k prices0); [now right |].
    split; [reflexivity | intros v []].
  - rewrite comprehension_cons in H.
    destruct (Lib.startswith k0 "@") eqn:Hat.
    + specialize (IH _ _ H k).
      destruct (dict_get k prices) as [p |].
      * destruct IH as [(Hk & v & Hin & Hv) | IH]; [left | now right].
        split; [exact Hk |]. exists v. split; [now right | exact Hv].
      * destruct IH as [Hnone Hall]. split; [exact Hnone |].
        intros v [[= -> ->] | Hin]; [exact Hat | now apply (Hall v)].
    + destruct (float v0) as [p0 |] eqn:Hf; simpl in H; [| discriminate].
      specialize (IH _ _ H k).
      destruct (string_dec k k0) as [-> | Hne].
      * rewrite dict_get_set_same in IH.
        destruct (dict_get k0 prices) as [p |].
        -- destruct IH as [(Hk & v & Hin & Hv) | [= <-]]; left.
           ++ split; [exact Hk |]. exists v. split; [now right | exact Hv].
           ++ split; [exact Hat |]. exists v0. split; [now left | exact Hf].
        -- destruct IH as [[=] _].
      * rewrite dict_get_set_other in IH by exact Hne.
        destruct (dict_get k prices) as [p |].
        -- destruct IH as [(Hk & v & Hin & Hv) | IH]; [left | now right].
           split; [exact Hk |]. exists v. split; [now right | exact Hv].
        -- destruct IH as [Hnone Hall]. split; [exact Hnone |].
           intros v [[= -> ->] | Hin]; [congruence | now apply (Hall v)].
Qed.

Lemma comprehension_keys fields : forall prices0 prices,
  comprehension fields prices0 = Ok prices ->
  NoDup (map fst prices0) -> NoDup (map fst prices).
Proof.
  induction fields as [| [k0 v0] fields IH]; intros prices0 prices H Hnd.
  - simpl in H. now injection H as <-.
  - rewrite comprehension_cons in H.
    destruct (Lib.startswith k0 "@"); [now apply (IH prices0) |].
    destruct (float v0) as [p0 |]; simpl in H; [| discriminate].
    apply (IH _ _ H). now apply dict_set_nodup.
Qed.


(** What a successful call read. *)
Lemma current_prices_read all_mids prices :
  get_current_prices all_mids = Ok prices ->
  exists fields,
    all_mids = Ok (JObj fields)
    /\ NoDup (map fst prices)
    /\ forall k,
         match dict_get k prices with
         | Some p =>
             Lib.startswith k "@" = false
             /\ exists v, In (k, v) fields /\ float v = Ok p
         | None =>
             forall v, In (k, v) fields -> Lib.startswith k "@" = true
         end.
Proof.
  unfold get_current_prices. intro H.
  destruct all_mids as [mids |]; simpl in H; [| discriminate].
  destruct mids as [| b | q | s | items | fields]; try discriminate.
  simpl in H. exists fields. split; [reflexivity |].
  split; [apply (comprehension_keys _ _ H); constructor |].
  intro k. pose proof (comprehension_get _ _ H k) as Hk.
  destruct (dict_get k prices) as [p |].
  - destruct Hk as [Hk | Hk]; [exact Hk | discriminate].
  - now destruct Hk.
Qed.


(** The prices read from the scenario answer. *)
Example prices_of_all_mids :
  exists prices,
    get_current_prices (Ok Cases.all_mids) = Ok prices
    /\ map fst prices = ["BTC"; "ETH"]%string
    /\ price_of prices "ETH" == 2500.5
    /\ price_of prices "@107" == 0.
Proof.
  eexists. split; [vm_compute; reflexivity |].
  repeat split; vm_compute; reflexivity.
Qed.

(** X10.  One cycle of the collector, from prices to maps: a coin
    whose name starts with [@] (a spot pair) never gets a liquidation
    map, and the map of any other coin is labelled with that coin and
    priced at the positive number read from the venue's answer for
    it. *)
Theorem maps_follow_current_prices self all_mids all_levels prices maps c :
  get_current_prices all_mids = Ok prices ->
  build_maps_from_levels self all_levels prices = Ok maps ->
  (Lib.startswith c "@" = true -> dict_get c maps = None)
  /\ forall m, dict_get c maps = Some m ->
       map_coin m = c
       /\ 0 < current_price m
       /\ exists fields v,
            all_mids = Ok (JObj fields) /\ In (c, v) fields
            /\ float v = Ok (current_price m).
Proof.
  intros Hprices Hmaps.
  destruct (current_prices_read _ Hprices) as (fields & Hmids & _ & Hread).
  destruct (AllCoins.maps_per_coin _ _ _ Hmaps) as [_ Hper].
  specialize (Hper c). specialize (Hread c).
  assert (Hsome : forall m, dict_get c maps = Some m ->
            Lib.startswith c "@" = false
            /\ map_coin m = c /\ 0 < current_price m
            /\ exists v, In (c, v) fields /\ float v = Ok (current_price m)).
  { intros m Hm. rewrite Hm in Hper. destruct Hper as (Hpos & _ & Hagg).
    destruct (AllCoins.aggregate_levels_header _ _ _ _ Hagg) as [Hc Hp].
    unfold price_of, prices_get in Hpos, Hp.
    destruct (dict_get c prices) as [p |].
    - destruct Hread as (Hat & v & Hin & Hv). subst p.
      repeat split; try assumption. now exists v.
    - exfalso. revert Hpos. apply Qlt_irrefl. }
  split.
  - intro Hat. destruct (dict_get c maps) as [m |]; [| reflexivity].
    destruct (Hsome m eq_refl) as [Hat' _]. congruence.
  - intros m Hm. destruct (Hsome m Hm) as (_ & Hc & Hp & v & Hin & Hv).
    repeat split; try assumption. now exists fields, v.
Qed.

(** The theorem on the scenario answer and the levels with a spot
    pair. *)
Lemma maps_follow_current_prices_witness :
  exists prices maps,
    get_current_prices (Ok Cases.all_mids) = Ok prices
    /\ build_maps_from_levels Scenarios.default_aggregator
         Cases.levels_with_spot prices = Ok maps
    /\ map fst prices = ["BTC"; "ETH"]%string
    /\ dict_get "@107" maps = None.
Proof.
  do 2 eexists. split; [vm_compute; reflexivity |].
  split; [vm_compute; reflexivity |].
  match goal with
  | |- map fst ?prices = _ /\ dict_get _ ?maps = None =>
      destruct (@maps_follow_current_prices Scenarios.default_aggregator
                  (Ok Cases.all_mids) Cases.levels_with_spot
                  prices maps "@107"%string) as [Hspot _]
  end.
  - vm_compute. reflexivity.
  - vm_compute. reflexivity.
  - split; [reflexivity | apply Hspot; reflexivity].
Defined.

End PriceFacts.

(** ** The compression migration *)

Module MigrationFacts.
Import Lib MigrateCompress MigrationSpec.
Local Open Scope string_scope.

Section AnyLibraries.
Context {L : Libraries}.

Lemma compressed_is_tagged data c :
  compress_json data = Ok c -> like_prefix "ZLIB:" c = true.
Proof.
  unfold compress_json. intro H.
  destruct (json_dumps data) as [d |]; simpl in H; [| discriminate].
  destruct (decode_ascii _) as [e |]; simpl in H; [| discriminate].
  now injection H as <-.
Qed.

Lemma recompressed_is_tagged s c :
  recompress s = Ok c -> like_prefix "ZLIB:" c = true.
Proof.
  unfold recompress. intro H.
  destruct (json_loads s) as [d |]; simpl in H; [| discriminate].
  now apply (compressed_is_tagged d).
Qed.

Lemma needs_compression_iff r :
  needs_compression r = true
  <-> exists s, clusters_json r = Some s /\ like_prefix "ZLIB:" s = false.
Proof.
  unfold needs_compression. destruct (clusters_json r) as [s |].
  - split.
    + intro H. exists s. split; [reflexivity |].
      now apply negb_true_iff.
    + intros (s' & [= <-] & H). now rewrite H.
  - split; [discriminate | intros (s & [=] & _)].
Qed.

Lemma uncompressed_cons r rest :
  uncompressed (r :: rest)
  = if needs_compression r
    then match clusters_json r with
         | Some s => (id r, s) :: uncompressed rest
         | None => uncompressed rest
         end
    else uncompressed rest.
Proof.
  unfold needs_compression. simpl.
  destruct (clusters_json r) as [s |]; [| reflexivity].
  now destruct (like_prefix "ZLIB:" s).
Qed.

Lemma uncompressed_in t i s :
  In (i, s) (uncompressed t) <->
  exists r, In r t /\ id r = i /\ clusters_json r = Some s
            /\ like_prefix "ZLIB:" s = false.
Proof.
  induction t as [| r t IH].
  - simpl. split; [intros [] | intros (r & [] & _)].
  - rewrite uncompressed_cons.
    destruct (needs_compression r) eqn:Hn.
    + apply needs_compression_iff in Hn as (s0 & Hs0 & Hl0).
      rewrite Hs0. simpl. rewrite IH. split.
      * intros [[= <- <-] | (r' & Hin & H)].
        -- exists r. auto.
        -- exists r'. split; [now right | exact H].
      * intros (r' & [<- | Hin] & Hi & Hs & Hl).
        -- left. congruence.
        -- right. exists r'. auto.
    + rewrite IH. split.
      * intros (r' & Hin & H). exists r'. split; [now right | exact H].
      * intros (r' & [<- | Hin] & Hi & Hs & Hl).
        -- assert (needs_compression r = true)
             by (apply needs_compression_iff; eauto).
           congruence.
        -- exists r'. auto.
Qed.

Lemma uncompressed_ids t i :
  In i (map fst (uncompressed t)) -> In i (map id t).
Proof.
  rewrite in_map_iff. intros ([i' s] & <- & Hin).
  apply uncompressed_in in Hin as (r & Hr & <- & _).
  simpl. now apply in_map.
Qed.

Lemma firstn_in (A : Type) (x : A) : forall k l,
  In x (firstn k l) -> In x l.
Proof.
  induction k as [| k IH]; intros [| a l]; simpl; try tauto.
  intros [H | H]; [now left | right; now apply IH].
Qed.

Lemma limit_in (A : Type) n (l : list A) x : In x (limit n l) -> In x l.
Proof.
  unfold limit. destruct (n <? 0)%Z; [auto |]. apply firstn_in.
Qed.

Lemma limit_nonempty (A : Type) n (l : list A) :
  n <> 0%Z -> l <> [] -> limit n l <> [].
Proof.
  unfold limit. intros Hn Hl. destruct (n <? 0)%Z eqn:E; [exact Hl |].
  apply Z.ltb_ge in E.
  destruct (Z.to_nat n) as [| k] eqn:Hk; [lia |].
  destruct l; [contradiction | discriminate].
Qed.

Lemma limit_prefix (A : Type) n (l : list A) :
  exists k, limit n l = firstn k l.
Proof.
  unfold limit. destruct (n <? 0)%Z.
  - exists (List.length l). now rewrite firstn_all.
  - now exists (Z.to_nat n).
Qed.

(** *** One batch, row by row *)

Lemma row_after_id rows : forall r, id (row_after rows r) = id r.
Proof.
  unfold row_after. induction rows as [| [i s] rows IH]; intro r; simpl.
  - reflexivity.
  - rewrite IH. destruct (recompress s); [| reflexivity].
    now destruct (id r =? i)%Z.
Qed.

Lemma row_after_other rows : forall r,
  ~ In (id r) (map fst rows) -> row_after rows r = r.
Proof.
  unfold row_after. induction rows as [| [i s] rows IH]; intros r H;
    simpl in *.
  - reflexivity.
  - assert (Hne : (id r =? i)%Z = false) by (apply Z.eqb_neq; intuition).
    rewrite Hne. destruct (recompress s); apply IH; intuition.
Qed.

Lemma compress_row_step st i s :
  table (compress_row st (i, s))
  = map (fun r =>
           match recompress s with
           | Py.Ok compressed =>
               if (id r =? i)%Z
               then {| id := id r; clusters_json := Some compressed |}
               else r
           | Py.Raise _ => r
           end) (table st)
  /\ (processed (compress_row st (i, s)) + errors (compress_row st (i, s))
      = S (processed st + errors st))%nat
  /\ (errors st <= errors (compress_row st (i, s)))%nat.
Proof.
  unfold compress_row. simpl.
  destruct (recompress s) as [c |]; simpl.
  - split; [reflexivity | lia].
  - split; [symmetry; apply map_id | lia].
Qed.

Lemma table_after rows : forall st,
  table (fold_left compress_row rows st) = map (row_after rows) (table st)
  /\ (processed (fold_left compress_row rows st)
      + errors (fold_left compress_row rows st)
      = processed st + errors st + List.length rows)%nat
  /\ (errors st <= errors (fold_left compress_row rows st))%nat.
Proof.
  induction rows as [| [i s] rows IH]; intro st.
  - simpl. split; [now rewrite map_id | lia].
  - destruct (IH (compress_row st (i, s))) as (Ht & Hn & He).
    destruct (compress_row_step st i s) as (H1 & H2 & H3).
    simpl fold_left. rewrite Ht, H1, map_map.
    split; [reflexivity |]. simpl List.length. lia.
Qed.

Lemma errors_after rows : forall st,
  Forall (fun selected => Py.returns (recompress (snd selected))) rows ->
  errors (fold_left compress_row rows st) = errors st.
Proof.
  induction rows as [| [i s] rows IH]; intros st H; simpl.
  - reflexivity.
  - inversion H as [| ? ? [c Hc] Hrest]; subst. simpl in Hc.
    rewrite (IH _ Hrest). unfold compress_row. simpl. now rewrite Hc.
Qed.

Lemma migrated_id r : id (migrated r) = id r.
Proof.
  unfold migrated. destruct (clusters_json r) as [s |]; [| reflexivity].
  destruct (like_prefix "ZLIB:" s); [reflexivity |].
  now destruct (recompress s).
Qed.

Lemma migrated_idle r : needs_compression r = false -> migrated r = r.
Proof.
  unfold needs_compression, migrated.
  destruct (clusters_json r) as [s |]; [| reflexivity].
  now destruct (like_prefix "ZLIB:" s).
Qed.

Lemma migrated_done r :
  convertible r -> needs_compression (migrated r) = false.
Proof.
  intro Hc. destruct (needs_compression r) eqn:Hn.
  - apply needs_compression_iff in Hn as (s & Hs & Hl).
    destruct (Hc s Hs Hl) as [c Hrc].
    unfold migrated. rewrite Hs, Hl, Hrc.
    unfold needs_compression. simpl.
    now rewrite (recompressed_is_tagged _ Hrc).
  - now rewrite (migrated_idle _ Hn).
Qed.

Lemma migrated_twice r : convertible r -> migrated (migrated r) = migrated r.
Proof.
  intro Hc. apply migrated_idle. now apply migrated_done.
Qed.

(** The first [k] selected rows, processed on a table of distinct
    keys. *)
Lemma selected_keys_fresh r t k :
  ~ In (id r) (map id t) ->
  ~ In (id r) (map fst (firstn k (uncompressed t))).
Proof.
  intros Hfresh Hin. apply Hfresh. apply uncompressed_ids.
  rewrite in_map_iff in *. destruct Hin as (e & He & Hin).
  exists e. split; [exact He | now apply firstn_in in Hin].
Qed.

Lemma batch_compresses_first t : forall k,
  NoDup (map id t) ->
  map (row_after (firstn k (uncompressed t))) t = compress_first k t.
Proof.
  induction t as [| r t IH]; intros k Hnd; [reflexivity |].
  inversion Hnd as [| ? ? Hfresh Hnd']; subst.
  rewrite uncompressed_cons. cbn [compress_first].
  destruct (needs_compression r) eqn:Hn.
  - apply needs_compression_iff in Hn as (s & Hs & Hl). rewrite Hs.
    destruct k as [| k].
    + cbn [firstn].
      rewrite (map_ext (row_after []) (fun x => x)) by reflexivity.
      apply map_id.
    + cbn [firstn map]. f_equal.
      * unfold row_after. cbn [fold_left fst snd]. rewrite Z.eqb_refl.
        unfold migrated. rewrite Hs, Hl.
        destruct (recompress s) as [c |].
        -- apply (row_after_other (firstn k (uncompressed t))
                    {| id := id r; clusters_json := Some c |}).
           now apply selected_keys_fresh.
        -- apply (row_after_other (firstn k (uncompressed t)) r).
           now apply selected_keys_fresh.
      * rewrite <- (IH k Hnd'). apply map_ext_in. intros a Ha.
        unfold row_after. cbn [fold_left fst snd].
        assert (Hne : (id a =? id r)%Z = false).
        { apply Z.eqb_neq. intros Heq. apply Hfresh. rewrite <- Heq.
          now apply in_map. }
        rewrite Hne. now destruct (recompress s).
  - cbn [map]. f_equal; [| now apply IH].
    apply row_after_other. now apply selected_keys_fresh.
Qed.

Lemma compress_first_remaining t : forall k,
  Forall convertible t ->
  uncompressed (compress_first k t) = skipn k (uncompressed t).
Proof.
  induction t as [| r t IH]; intros k Hc.
  - now destruct k.
  - inversion Hc as [| ? ? Hr Ht]; subst.
    cbn [compress_first]. rewrite (uncompressed_cons r t).
    destruct (needs_compression r) eqn:Hn.
    + pose proof Hn as Hn'.
      apply needs_compression_iff in Hn' as (s & Hs & Hl). rewrite Hs.
      destruct k as [| k].
      * cbn [skipn]. rewrite uncompressed_cons, Hn, Hs. reflexivity.
      * cbn [skipn]. rewrite uncompressed_cons.
        rewrite (migrated_done Hr). now apply IH.
    + rewrite uncompressed_cons, Hn. now apply IH.
Qed.

Lemma compress_first_migrated t : forall k,
  Forall convertible t ->
  map migrated (compress_first k t) = map migrated t.
Proof.
  induction t as [| r t IH]; intros k Hc; [reflexivity |].
  inversion Hc as [| ? ? Hr Ht]; subst.
  cbn [compress_first].
  destruct (needs_compression r); [destruct k as [| k] |]; cbn [map].
  - reflexivity.
  - rewrite (migrated_twice Hr). f_equal. now apply IH.
  - f_equal. now apply IH.
Qed.

Lemma compress_first_ids t : forall k,
  map id (compress_first k t) = map id t.
Proof.
  induction t as [| r t IH]; intro k; [reflexivity |].
  cbn [compress_first].
  destruct (needs_compression r); [destruct k as [| k] |]; cbn [map].
  - reflexivity.
  - rewrite migrated_id. f_equal. apply IH.
  - f_equal. apply IH.
Qed.

Lemma compress_first_convertible t : forall k,
  Forall convertible t -> Forall convertible (compress_first k t).
Proof.
  induction t as [| r t IH]; intros k Hc; [constructor |].
  inversion Hc as [| ? ? Hr Ht]; subst.
  cbn [compress_first].
  destruct (needs_compression r); [destruct k as [| k] |].
  - exact Hc.
  - constructor; [| now apply IH].
    intros s Hs Hl.
    assert (Hn : needs_compression (migrated r) = true)
      by (apply needs_compression_iff; eauto).
    rewrite (migrated_done Hr) in Hn. discriminate.
  - constructor; [exact Hr | now apply IH].
Qed.

Lemma nothing_left t :
  uncompressed t = [] -> map migrated t = t.
Proof.
  induction t as [| r t IH]; [reflexivity |].
  rewrite uncompressed_cons.
  destruct (needs_compression r) eqn:Hn.
  - apply needs_compression_iff in Hn as (s & Hs & Hl). rewrite Hs.
    discriminate.
  - intro H. cbn [map]. rewrite (migrated_idle _ Hn). f_equal. now apply IH.
Qed.

(** The loop on a table whose rows can all be converted. *)
Lemma batches_complete batch_size fuel : forall st,
  batch_size <> 0%Z ->
  NoDup (map id (table st)) ->
  Forall convertible (table st) ->
  (List.length (uncompressed (table st)) < fuel)%nat ->
  exists st',
    batches fuel batch_size st = Some st'
    /\ table st' = map migrated (table st)
    /\ processed st'
       = (processed st + List.length (uncompressed (table st)))%nat
    /\ errors st' = errors st.
Proof.
  induction fuel as [| fuel IH]; intros st Hb Hnd Hc Hlen; [lia |].
  cbn [batches]. unfold select.
  destruct (limit_prefix batch_size (uncompressed (table st))) as [k Hk].
  destruct (limit batch_size (uncompressed (table st)))
    as [| row0 rows0] eqn:Hrows.
  - assert (Hnone : uncompressed (table st) = []).
    { destruct (uncompressed (table st)) as [| e l] eqn:E; [reflexivity |].
      exfalso. apply (@limit_nonempty _ batch_size (e :: l) Hb);
        [discriminate | exact Hrows]. }
    exists st. rewrite Hnone, (nothing_left _ Hnone). simpl.
    repeat split; lia.
  - set (rows := row0 :: rows0) in *.
    set (st1 := fold_left compress_row rows st).
    destruct (table_after rows st) as (Ht & Hn & He).
    fold st1 in Ht, Hn, He.
    assert (Hsel : Forall (fun selected =>
                             Py.returns (recompress (snd selected))) rows).
    { apply Forall_forall. intros [i s] Hin. simpl.
      rewrite <- Hrows in Hin. apply limit_in in Hin.
      apply uncompressed_in in Hin as (r & Hr & _ & Hs & Hl).
      rewrite Forall_forall in Hc. exact (Hc r Hr s Hs Hl). }
    pose proof (errors_after st Hsel) as He'. fold st1 in He'.
    assert (Ht1 : table st1 = compress_first k (table st)).
    { rewrite Ht, Hk. now apply batch_compresses_first. }
    assert (Hk' : List.length rows
                  = Nat.min k (List.length (uncompressed (table st)))).
    { rewrite Hk. apply length_firstn. }
    assert (Hpos : (0 < List.length rows)%nat) by (unfold rows; simpl; lia).
    destruct (IH st1) as (st' & Hrun & Htab & Hproc & Herr).
    + exact Hb.
    + now rewrite Ht1, compress_first_ids.
    + rewrite Ht1. now apply compress_first_convertible.
    + rewrite Ht1, (compress_first_remaining _ Hc), length_skipn. lia.
    + exists st'. split; [exact Hrun |].
      rewrite Htab, Hproc, Herr, He'.
      rewrite Ht1, (compress_first_migrated _ Hc).
      rewrite (compress_first_remaining _ Hc), length_skipn.
      repeat split. lia.
Qed.

(** A row that cannot be converted stays as it is, and is selected
    again. *)
Lemma stuck_row_stays rows t r :
  NoDup (map id t) -> In r t -> stuck r ->
  (forall e, In e rows -> In e (uncompressed t)) ->
  row_after rows r = r.
Proof.
  intros Hnd Hr (s & e & Hs & Hl & He) Hsub.
  assert (Hone : forall i s', In (i, s') rows -> i = id r -> s' = s).
  { intros i s' Hin ->. apply Hsub in Hin.
    apply uncompressed_in in Hin as (r' & Hr' & Hid & Hs' & _).
    assert (r' = r).
    { clear - Hnd Hr Hr' Hid. induction t as [| a t IH]; [destruct Hr |].
      simpl in Hnd. inversion Hnd as [| ? ? Hfresh Hnd']; subst.
      destruct Hr as [-> | Hr], Hr' as [-> | Hr']; auto.
      - exfalso. apply Hfresh. rewrite <- Hid. now apply in_map.
      - exfalso. apply Hfresh. rewrite Hid. now apply in_map. }
    subst r'. congruence. }
  clear Hsub. unfold row_after.
  induction rows as [| [i s'] rows IH]; [reflexivity |].
  cbn [fold_left fst snd].
  destruct (Z.eqb_spec (id r) i) as [Heq | Hne].
  - rewrite (Hone i s' (or_introl eq_refl) (eq_sym Heq)), He.
    apply IH. intros i0 s0 Hin. apply Hone. now right.
  - assert (Hsame : match recompress s' with
                    | Py.Ok _ => r
                    | Py.Raise _ => r
                    end = r) by (now destruct (recompress s')).
    rewrite Hsame. apply IH. intros i0 s0 Hin. apply Hone. now right.
Qed.

Lemma batches_diverge batch_size fuel : forall st r,
  batch_size <> 0%Z ->
  NoDup (map id (table st)) -> In r (table st) -> stuck r ->
  batches fuel batch_size st = None.
Proof.
  induction fuel as [| fuel IH]; intros st r Hb Hnd Hr Hstuck;
    [reflexivity |].
  cbn [batches]. unfold select.
  destruct (limit batch_size (uncompressed (table st)))
    as [| row0 rows0] eqn:Hrows.
  - exfalso. destruct Hstuck as (s & e & Hs & Hl & He).
    apply (@limit_nonempty _ batch_size (uncompressed (table st)) Hb);
      [| exact Hrows].
    intro Hnil.
    assert (Hin : In (id r, s) (uncompressed (table st)))
      by (apply uncompressed_in; exists r; auto).
    rewrite Hnil in Hin. destruct Hin.
  - set (rows := row0 :: rows0) in *.
    destruct (table_after rows st) as (Ht & _ & _).
    apply (IH _ r Hb).
    + rewrite Ht, map_map.
      rewrite (map_ext _ id (row_after_id rows)). exact Hnd.
    + rewrite Ht.
      rewrite <- (@stuck_row_stays rows (table st) r Hnd Hr Hstuck).
      * now apply in_map.
      * intros e He. rewrite <- Hrows in He.
        now apply limit_in in He.
    + exact Hstuck.
Qed.

Lemma all_migrated t :
  Forall convertible t -> uncompressed (map migrated t) = [].
Proof.
  induction 1 as [| r t Hr _ IH]; [reflexivity |].
  cbn [map]. rewrite uncompressed_cons, (migrated_done Hr). exact IH.
Qed.

Lemma tagged_is_like s :
  startswith s "ZLIB:" = true -> like_prefix "ZLIB:" s = true.
Proof.
  intro H.
  do 5 (destruct s as [| ? s]; [discriminate |];
        cbn [startswith] in H; apply andb_true_iff in H as [Hc H];
        apply Ascii.eqb_eq in Hc; subst).
  reflexivity.
Qed.

(** X11.  The live migration of a table of distinct keys whose legacy
    rows can all be read and compressed, run with a batch size other
    than zero: the loop ends (one more batch than there are legacy
    rows is always enough), every row that held plain JSON holds the
    compressed form of the document it held, every other row is as it
    was, no row is left to compress, and the script counts every legacy
    row as processed and none as an error. *)
Theorem migration_compresses_every_row db batch_size fuel :
  NoDup (map id db) -> Forall convertible db -> batch_size <> 0%Z ->
  (List.length (uncompressed db) < fuel)%nat ->
  exists st',
    migrate_compress fuel db false batch_size = Some st'
    /\ table st' = map migrated db
    /\ uncompressed (table st') = []
    /\ map id (table st') = map id db
    /\ processed st' = List.length (uncompressed db)
    /\ errors st' = 0%nat.
Proof.
  intros Hnd Hc Hb Hlen. unfold migrate_compress.
  destruct (List.length (uncompressed db) =? 0)%nat eqn:E.
  - apply Nat.eqb_eq in E.
    assert (Hnone : uncompressed db = [])
      by (now destruct (uncompressed db)).
    eexists. split; [reflexivity |]. simpl.
    rewrite (nothing_left _ Hnone), Hnone. repeat split.
  - destruct (@batches_complete batch_size fuel
                {| table := db; processed := 0; errors := 0 |}
                Hb Hnd Hc Hlen) as (st' & Hrun & Htab & Hproc & Herr).
    simpl in *. exists st'. split; [exact Hrun |].
    rewrite Htab. split; [reflexivity |].
    split; [now apply all_migrated |].
    split; [| split; assumption].
    rewrite map_map. apply map_ext. apply migrated_id.
Qed.

(** X12.  A legacy row that cannot be read or compressed keeps the
    live migration running for ever: on a table of distinct keys with
    such a row, and a batch size other than zero, the loop has not
    ended after any number of batches.  With a batch size of zero the
    migration ends at once and leaves every row as it was, and so does
    a dry run. *)
Theorem migration_never_ends_on_a_corrupt_row db batch_size r :
  NoDup (map id db) -> In r db -> stuck r ->
  (batch_size <> 0%Z ->
   forall fuel, migrate_compress fuel db false batch_size = None)
  /\ (forall fuel,
        migrate_compress (S fuel) db false 0
        = Some {| table := db; processed := 0; errors := 0 |})
  /\ (forall fuel,
        migrate_compress fuel db true batch_size
        = Some {| table := db; processed := 0; errors := 0 |}).
Proof.
  intros Hnd Hr Hstuck.
  assert (Hsome : (List.length (uncompressed db) =? 0)%nat = false).
  { destruct Hstuck as (s & e & Hs & Hl & He).
    assert (Hin : In (id r, s) (uncompressed db))
      by (apply uncompressed_in; exists r; auto).
    destruct (uncompressed db); [destruct Hin | reflexivity]. }
  unfold migrate_compress. rewrite Hsome. split; [| split].
  - intros Hb fuel.
    apply (@batches_diverge batch_size fuel
             {| table := db; processed := 0; errors := 0 |} r Hb Hnd Hr
             Hstuck).
  - intro fuel. reflexivity.
  - intro fuel. reflexivity.
Qed.

(** X13.  Reading a row before and after its migration.  For a legacy
    row whose text [json.loads] reads as [x], and libraries that
    round-trip the document ([json], [zlib] and [base64], as for
    [compress_json]): [decompress_json] of the row as it was is [x];
    the migrated row is marked compressed, and [decompress_json] of it
    is a document equal to [x]. *)
Theorem migrated_row_reads_the_same r s x x' dumped :
  clusters_json r = Some s -> like_prefix "ZLIB:" s = false ->
  json_loads s = Ok x ->
  json_dumps x = Ok dumped ->
  valid_utf8 dumped = true ->
  json_loads dumped = Ok x' ->
  Json.eqb x' x = true ->
  zlib_decompress (zlib_compress 6 dumped) = Ok dumped ->
  is_ascii (b64encode (zlib_compress 6 dumped)) = true ->
  b64decode (b64encode (zlib_compress 6 dumped))
  = Ok (zlib_compress 6 dumped) ->
  HistoricalStorage.decompress_json (clusters_json r) = Ok x
  /\ is_compressed (clusters_json (migrated r)) = true
  /\ exists y,
       HistoricalStorage.decompress_json (clusters_json (migrated r)) = Ok y
       /\ Json.eqb y x = true.
Proof.
  intros Hs Hl Hx Hdumps Hutf8 Hloads Heq Hzlib Hascii Hb64.
  assert (Hplain : startswith s "ZLIB:" = false).
  { destruct (startswith s "ZLIB:") eqn:E; [| reflexivity].
    apply tagged_is_like in E. congruence. }
  assert (Hc : recompress s
               = Ok ("ZLIB:" ++ b64encode (zlib_compress 6 dumped))).
  { unfold recompress. rewrite Hx. simpl.
    unfold compress_json, encode_utf8, decode_ascii.
    rewrite Hdumps. simpl. now rewrite Hascii. }
  split; [| split].
  - rewrite Hs.
    rewrite (StorageCorrectness.decompress_json_untagged _ Hplain).
    now rewrite Hx.
  - unfold migrated. rewrite Hs, Hl, Hc. reflexivity.
  - exists x'. split; [| exact Heq].
    unfold migrated. rewrite Hs, Hl, Hc. cbn [clusters_json].
    rewrite (StorageCorrectness.decompress_json_tagged _
               (StorageCorrectness.tagged_startswith _)).
    rewrite StorageCorrectness.tagged_payload.
    unfold HistoricalStorage.decode_payload, decode_utf8.
    rewrite Hb64. simpl. rewrite Hzlib. simpl. rewrite Hutf8. simpl.
    now rewrite Hloads.
Qed.

End AnyLibraries.

(** The migration of the legacy table with the reference codecs. *)
Lemma migration_compresses_every_row_witness :
  exists st',
    migrate_compress (L := Reference.libraries) 5 Cases.legacy_table
      false 1000 = Some st'
    /\ uncompressed (table st') = []
    /\ processed st' = 1%nat
    /\ errors st' = 0%nat.
Proof.
  destruct (@migration_compresses_every_row Reference.libraries
              Cases.legacy_table 1000 5)
    as (st' & Hrun & _ & Hnone & _ & Hproc & Herr).
  - repeat (constructor; [simpl; intuition discriminate |]). constructor.
  - repeat constructor; intros s Hs Hl; simpl in Hs;
      try discriminate; injection Hs as <-.
    + eexists. vm_compute. reflexivity.
    + vm_compute in Hl. discriminate.
  - discriminate.
  - vm_compute. lia.
  - exists st'. repeat split; assumption.
Defined.

(** The corrupt table with the reference codecs: the loop is still
    running after a thousand batches. *)
Lemma migration_never_ends_on_a_corrupt_row_witness :
  migrate_compress (L := Reference.libraries) 1000 Cases.corrupt_table
    false 1000 = None.
Proof.
  destruct (@migration_never_ends_on_a_corrupt_row Reference.libraries
              Cases.corrupt_table 1000 Cases.corrupt_row)
    as (Hloop & _ & _).
  - repeat (constructor; [simpl; intuition discriminate |]). constructor.
  - right. now left.
  - exists "{not json", Py.JSONDecodeError.
    repeat split; vm_compute; reflexivity.
  - apply Hloop. discriminate.
Defined.

(** The first row of the legacy table, before and after. *)
Lemma migrated_row_reads_the_same_witness :
  exists y,
    HistoricalStorage.decompress_json (L := Reference.libraries)
      (clusters_json
         (migrated (L := Reference.libraries)
            {| id := 1; clusters_json := Some Scenarios.legacy_row |}))
    = Ok y
    /\ Json.eqb y
         (Json.JObj [("long", Json.JArr []); ("short", Json.JArr [])])
       = true.
Proof.
  destruct (@migrated_row_reads_the_same Reference.libraries
              {| id := 1; clusters_json := Some Scenarios.legacy_row |}
              Scenarios.legacy_row
              (Json.JObj [("long", Json.JArr []); ("short", Json.JArr [])])
              (Json.JObj [("long", Json.JArr []); ("short", Json.JArr [])])
              (match Reference.dumps
                       (Json.JObj [("long", Json.JArr []);
                                   ("short", Json.JArr [])]) with
               | Py.Ok d => d
               | Py.Raise _ => EmptyString
               end))
    as (_ & _ & y & Hy & Heq);
    [vm_compute; reflexivity .. |].
  exists y. split; assumption.
Defined.

End MigrationFacts.


(* ================================================================== *)
(** * The validators *)
(* ================================================================== *)

Module ValidationFacts.
Import Validation ValidationSpec.

Lemma Qgtb_true (x y : Q) : Qgtb x y = true <-> y < x.
Proof.
  apply PyFacts.Qltb_true.
Qed.

Lemma Qgtb_false (x y : Q) : Qgtb x y = false <-> x <= y.
Proof.
  apply PyFacts.Qltb_false.
Qed.

Lemma Qle_bool_false (x y : Q) : Qle_bool x y = false <-> y < x.
Proof.
  split; intro H.
  - apply Qnot_le_lt. intro Hle. apply Qle_bool_iff in Hle. congruence.
  - destruct (Qle_bool x y) eqn:E; [| reflexivity].
    apply Qle_bool_iff in E. lra.
Qed.

(** Reading a comparison of the code as an order fact. *)
Ltac order_facts :=
  repeat match goal with
    | H : Qgtb _ _ = true |- _ => apply Qgtb_true in H
    | H : Qgtb _ _ = false |- _ => apply Qgtb_false in H
    | H : Py.Qltb _ _ = true |- _ => apply PyFacts.Qltb_true in H
    | H : Py.Qltb _ _ = false |- _ => apply PyFacts.Qltb_false in H
    | H : Qle_bool _ _ = true |- _ => apply Qle_bool_iff in H
    | H : Qle_bool _ _ = false |- _ => apply Qle_bool_false in H
    end.

Lemma bounds_ordered (c : string) : fst (bounds_of c) < snd (bounds_of c).
Proof.
  unfold bounds_of.
  destruct (LiquidationMaps.dict_get c PRICE_BOUNDS) as [b |] eqn:E;
    [| reflexivity].
  apply DictFacts.dict_get_in in E.
  assert (H : Forall (fun e : string * (Q * Q) =>
                        fst (snd e) < snd (snd e)) PRICE_BOUNDS)
    by (repeat constructor).
  rewrite Forall_forall in H. exact (H _ E).
Qed.




(** X14.  [validate_price].  The result is valid exactly when it
    reports no error, and exactly when the price is a number above
    zero.  A valid price within the bounds of its coin (those of
    [PRICE_BOUNDS], or the default bounds for a coin that is not
    listed) draws no warning, and a valid price outside them draws
    exactly one. *)
Theorem validate_price_verdict (c : string) (price : option Q) :
  consistent (validate_price c price)
  /\ (is_valid (validate_price c price) = true
      <-> exists p, price = Some p /\ 0 < p)
  /\ (forall p, price = Some p -> 0 < p ->
        (fst (bounds_of c) <= p /\ p <= snd (bounds_of c)
         -> warnings (validate_price c price) = [])
        /\ (~ (fst (bounds_of c) <= p /\ p <= snd (bounds_of c))
            -> List.length (warnings (validate_price c price)) = 1%nat)).
Proof.
  unfold consistent.
  destruct price as [p |]; simpl.
  - destruct (Qle_bool p 0) eqn:E; simpl; order_facts.
    + split; [split; discriminate |].
      split.
      * split; [discriminate |]. intros (p' & [= <-] & Hp). lra.
      * intros p' [= <-] Hp. lra.
    + pose proof (bounds_ordered c) as Hb.
      destruct (bounds_of c) as [lo hi]. simpl in *.
      split; [split; reflexivity |].
      split; [split; [intros _; now exists p | reflexivity] |].
      intros p' [= <-] _.
      destruct (Py.Qltb p lo) eqn:E1; destruct (Qgtb p hi) eqn:E2; simpl;
        order_facts; (split; intro H); try reflexivity; lra.
  - split; [split; discriminate |].
    split; [split; [discriminate | intros (p & [=] & _)] |].
    intros p [=].
Qed.



Lemma check_side_raises long_side c current clusters total ws e :
  check_side long_side c current clusters total ws = Py.Raise e ->
  e = Py.TypeError \/ e = Py.AttributeError.
Proof.
  revert total ws.
  induction clusters as [| cluster rest IH]; intros total ws H;
    [discriminate |].
  cbn [check_side] in H. unfold Py.bind in H.
  destruct cluster; cbn [Json.get] in H;
    try (injection H as <-; now right).
  unfold number in H.
  repeat match type of H with
    | context [Json.as_number ?v] =>
        destruct (Json.as_number v);
        [| injection H as <-; now left]
    end.
  exact (IH _ _ H).
Qed.



(** X17.  [validate_liquidation_map] on any dictionary.  An empty
    dictionary is valid and draws one warning.  A dictionary that
    lacks one of the two required keys is invalid, with one error for
    each key it lacks and no warning.  Any other dictionary is valid
    when the call returns; the call raises nothing but [TypeError] and
    [AttributeError]. *)
Theorem validate_liquidation_map_verdict (c : string)
  (d : list (string * Json.value)) (current_price : Q) :
  (d = [] ->
   exists r, validate_liquidation_map c d current_price = Ok r
     /\ is_valid r = true /\ errors r = []
     /\ List.length (warnings r) = 1%nat)
  /\ (d <> [] -> missing_keys d <> [] ->
      exists r, validate_liquidation_map c d current_price = Ok r
        /\ is_valid r = false /\ warnings r = []
        /\ map strings (errors r) = map (fun k => [c; k]) (missing_keys d))
  /\ (forall r, validate_liquidation_map c d current_price = Ok r ->
        consistent r
        /\ (is_valid r = true <-> d = [] \/ missing_keys d = []))
  /\ (forall e, validate_liquidation_map c d current_price = Py.Raise e ->
        e = Py.TypeError \/ e = Py.AttributeError).
Proof.
  unfold consistent.
  destruct d as [| kv d'].
  - cbn [validate_liquidation_map].
    split; [intros _; eexists; repeat split |].
    split; [intros H; now destruct H |].
    split; [| discriminate].
    intros r [= <-]. cbn [is_valid errors].
    repeat split; auto.
  - split; [discriminate |].
    unfold validate_liquidation_map.
    fold (missing_keys (kv :: d')).
    destruct (missing_keys (kv :: d')) as [| k ks] eqn:Hm.
    + split; [intros _ H; now destruct H |].
      cbn [Json.get]. unfold Py.bind.
      split.
      * intros r H.
        repeat match type of H with
          | match ?x with
            | Ok _ => _
            | Py.Raise _ => _
            end = _ => destruct x; [| discriminate]
          end.
        injection H as <-. cbn [is_valid errors].
        repeat split; auto.
      * intros e H.
        repeat match type of H with
          | match ?x with
            | Ok _ => _
            | Py.Raise _ => _
            end = _ =>
              let E := fresh "E" in
              destruct x eqn:E;
              [| injection H as <-;
                 first [ now apply check_side_raises in E
                       | unfold Json.iter in E;
                         repeat match type of E with
                           | match ?v with _ => _ end = _ => destruct v
                           end;
                         try discriminate; injection E as <-; now left ]]
          end.
        discriminate.
    + split.
      * intros _ _. eexists. split; [reflexivity |].
        cbn [is_valid warnings errors]. repeat split.
        rewrite !map_map. reflexivity.
      * split; [| discriminate].
        intros r [= <-]. cbn [is_valid errors map].
        repeat split; try discriminate.
        intros [H | H]; discriminate.
Qed.


Lemma validate_price_errors (c : string) (p : Q) :
  errors (validate_price c (Some p)) = [] <-> 0 < p.
Proof.
  cbn [validate_price].
  destruct (Qle_bool p 0) eqn:E; order_facts.
  - split; [discriminate | lra].
  - destruct (bounds_of c). split; [intros _; exact E | reflexivity].
Qed.

Lemma negative_none (data : list (string * Json.value)) (k : string)
  (b : option Q) :
  negative (match Json.lookup k data with
            | Some x => x
            | None => Json.JNum 0
            end) = Ok b ->
  (b = None <-> holds (fun x => 0 <= x) data k).
Proof.
  unfold holds, negative, number, Py.bind.
  destruct (Json.lookup k data) as [v |].
  - destruct v; cbn [Json.as_number]; intro H; try discriminate;
      injection H as <-.
    + split; [intros _ v x [= <-] [=] | reflexivity].
    + match goal with
      | |- context [Py.Qltb ?x 0] =>
          destruct (Py.Qltb x 0) eqn:E; order_facts;
          (split; [intros H v y [= <-] [= <-]; (discriminate || lra) |])
      end; intro H; [| reflexivity].
      specialize (H _ _ eq_refl eq_refl). lra.
    + match goal with
      | |- context [Py.Qltb ?x 0] =>
          destruct (Py.Qltb x 0) eqn:E; order_facts;
          (split; [intros H v y [= <-] [= <-]; (discriminate || lra) |])
      end; intro H; [| reflexivity].
      specialize (H _ _ eq_refl eq_refl). lra.
  - cbn [Json.as_number]. intros [= <-].
    split; [intros _ v x [=] | reflexivity].
Qed.

Lemma negative_raises (v : Json.value) (e : Py.exn) :
  negative v = Py.Raise e -> e = Py.TypeError.
Proof.
  unfold negative, number, Py.bind.
  destruct v; cbn [Json.as_number]; intro H; try discriminate;
    now injection H.
Qed.

Lemma number_raises (v : Json.value) (e : Py.exn) :
  number v = Py.Raise e -> e = Py.TypeError.
Proof.
  unfold number. destruct (Json.as_number v); [discriminate |].
  now intros [= <-].
Qed.

Lemma validate_price_value_raises (c : string) (v : Json.value)
  (e : Py.exn) :
  validate_price_value c v = Py.Raise e -> e = Py.TypeError.
Proof.
  unfold validate_price_value, number, Py.bind.
  destruct v; cbn [Json.as_number]; intro H; try discriminate;
    now injection H.
Qed.

(** X19.  [validate_market_data] on any dictionary.  When the mark
    price or the funding rate is absent or [None], the result is
    invalid, with one error for each of them and no warning.  A result
    that the call returns is valid exactly when it reports no error,
    and exactly when both fields are there, the mark price is above
    zero and neither the open interest nor the value under
    [volume_24h] is negative: the funding rate only draws a warning.
    The call raises nothing but [TypeError]. *)
Theorem validate_market_data_verdict (c : string)
  (data : list (string * Json.value)) :
  (missing_fields data <> [] ->
   exists r, validate_market_data c data = Ok r
     /\ is_valid r = false /\ warnings r = []
     /\ map strings (errors r)
        = map (fun field => [c; field]) (missing_fields data))
  /\ (forall r, validate_market_data c data = Ok r ->
        consistent r
        /\ (is_valid r = true
            <-> missing_fields data = []
                /\ holds (fun p => 0 < p) data "mark_price"
                /\ holds (fun x => 0 <= x) data "open_interest_usd"
                /\ holds (fun x => 0 <= x) data "volume_24h"))
  /\ (forall e, validate_market_data c data = Py.Raise e ->
        e = Py.TypeError).
Proof.
  unfold consistent, validate_market_data.
  fold (missing_fields data).
  destruct (missing_fields data) as [| k ks] eqn:Hm.
  - split; [intro H; now destruct H |].
    cbn [Json.get].
    assert (Hmark : exists mv, Json.lookup "mark_price" data = Some mv
                               /\ mv <> Json.JNull).
    { unfold missing_fields in Hm. cbn [filter] in Hm.
      unfold missing_field in Hm at 1.
      destruct (Json.lookup "mark_price" data) as [mv |];
        [| destruct (missing_field data "funding_rate"); discriminate].
      exists mv. split; [reflexivity |]. intros ->.
      destruct (missing_field data "funding_rate"); discriminate. }
    destruct Hmark as (mv & Em & Hnull). rewrite Em.
    set (fv := match Json.lookup "funding_rate" data with
               | Some x => x
               | None => Json.JNum 0
               end).
    split.
    + intros r H. unfold Py.bind in H.
      destruct (validate_price_value c mv) as [pr |] eqn:Ep;
        [| discriminate].
      destruct (number fv) as [f |]; [| discriminate].
      destruct (negative _) as [bo |] eqn:Eo in H; [| discriminate].
      destruct (negative _) as [bv |] eqn:Ev in H; [| discriminate].
      injection H as <-. cbn [is_valid errors].
      apply negative_none in Eo. apply negative_none in Ev.
      assert (Hp : errors pr = []
                   <-> holds (fun p => 0 < p) data "mark_price").
      { unfold validate_price_value, number, Py.bind in Ep.
        unfold holds. rewrite Em.
        destruct (Json.as_number mv) as [p |] eqn:En.
        - assert (pr = validate_price c (Some p)) as ->
            by (destruct mv; try discriminate; now injection Ep).
          rewrite validate_price_errors.
          split; [intros H v x [= <-]; rewrite En; now intros [= <-] |].
          intro H. exact (H _ _ eq_refl En).
        - destruct mv; try discriminate. now destruct Hnull. }
      rewrite <- Hp, <- Eo, <- Ev.
      destruct (errors pr); destruct bo; destruct bv;
        cbn [report List.app]; repeat split; intros;
        try discriminate; try reflexivity;
        repeat match goal with
          | H : _ /\ _ |- _ => destruct H
          end; discriminate.
    + intros e H. unfold Py.bind in H.
      destruct (validate_price_value c mv) as [pr |] eqn:Ep;
        [| injection H as <-;
           exact (validate_price_value_raises _ _ Ep)].
      destruct (number fv) as [f |] eqn:Ef;
        [| injection H as <-; exact (number_raises _ Ef)].
      destruct (negative _) as [bo |] eqn:Eo in H;
        [| injection H as <-; exact (negative_raises _ Eo)].
      destruct (negative _) as [bv |] eqn:Ev in H;
        [| injection H as <-; exact (negative_raises _ Ev)].
      discriminate.
  - split.
    + intros _. eexists. split; [reflexivity |].
      cbn [is_valid warnings errors]. repeat split.
      rewrite !map_map. reflexivity.
    + split; [| discriminate].
      intros r [= <-]. cbn [is_valid errors map].
      repeat split; try discriminate.
      intros [H _]. discriminate.
Qed.

End ValidationFacts.

(* ================================================================== *)
(** * Retention of the rows the collector writes *)
(* ================================================================== *)

Module RetentionFacts.
Import Clock Sqlite DbMaintenance RetentionSpec.
Local Open Scope string_scope.
Local Open Scope Z_scope.

(** ** Texts *)

Lemma append_assoc (a b c : string) : (a ++ b) ++ c = a ++ b ++ c.
Proof.
  induction a as [| x a IH]; [reflexivity |].
  cbn [append]. now rewrite IH.
Qed.

(** Byte order on texts with heads of the same length is decided by
    the heads, then by the tails. *)
Lemma compare_append (a b x y : string) :
  String.length a = String.length b ->
  String.compare (a ++ x) (b ++ y)
  = match String.compare a b with
    | Eq => String.compare x y
    | o => o
    end.
Proof.
  revert b. induction a as [| c a IH]; intros [| d b] H;
    try discriminate; [reflexivity |].
  cbn [append String.compare].
  destruct (Ascii.compare c d); try reflexivity.
  apply IH. now injection H.
Qed.

Lemma compare_refl (s : string) : String.compare s s = Eq.
Proof.
  apply OrderedTypeEx.String_as_OT.cmp_eq. reflexivity.
Qed.

Lemma compare_trans (a b c : string) :
  String.compare a b = Lt -> String.compare b c = Lt ->
  String.compare a c = Lt.
Proof.
  intros H1 H2.
  apply OrderedTypeEx.String_as_OT.cmp_lt.
  apply OrderedTypeEx.String_as_OT.cmp_lt in H1, H2.
  exact (OrderedTypeEx.String_as_OT.lt_trans _ _ _ H1 H2).
Qed.

Lemma ltb_compare (a b : string) :
  String.ltb a b = true <-> String.compare a b = Lt.
Proof.
  unfold String.ltb. destruct (String.compare a b); split;
    (reflexivity || discriminate).
Qed.

Lemma string_of_uint_digits (u : Decimal.uint) :
  all_digits (NilEmpty.string_of_uint u) = true.
Proof.
  induction u; cbn [NilEmpty.string_of_uint all_digits]; try reflexivity;
    rewrite IHu; reflexivity.
Qed.

Lemma pad_digits (width : nat) (n : Z) :
  all_digits (pad width n) = true /\ pad width n <> EmptyString.
Proof.
  unfold pad.
  set (digits := NilZero.string_of_uint (N.to_uint (Z.to_N n))).
  assert (H : all_digits digits = true /\ digits <> EmptyString).
  { unfold digits, NilZero.string_of_uint.
    destruct (N.to_uint (Z.to_N n)) eqn:E;
      try (split; [apply (string_of_uint_digits (_ u)) | discriminate]).
    split; [reflexivity | discriminate]. }
  generalize (width - String.length digits)%nat. intro k.
  induction k as [| k IH]; [exact H |].
  split; [| discriminate]. cbn [all_digits]. now destruct IH as [-> _].
Qed.

Lemma skip_digits_append (a rest : string) :
  all_digits a = true -> skip_digits (a ++ rest) = skip_digits rest.
Proof.
  induction a as [| c a IH]; [reflexivity |].
  cbn [all_digits append skip_digits].
  intro H. apply andb_prop in H as [-> H]. now apply IH.
Qed.

(** ** The parsers on a text with something after it *)

Lemma two_digits_append (s rest r : string) (v : Z) :
  two_digits s = Some (v, rest) -> two_digits (s ++ r) = Some (v, rest ++ r).
Proof.
  destruct s as [| a [| b s]]; try discriminate.
  cbn [two_digits append].
  destruct (Json.is_digit a && Json.is_digit b); [| discriminate].
  now intros [= <- <-].
Qed.

Lemma expect_append (c : ascii) (s rest r : string) :
  expect c s = Some rest -> expect c (s ++ r) = Some (rest ++ r).
Proof.
  destruct s as [| x s]; [discriminate |].
  cbn [expect append]. destruct (Ascii.eqb x c); [| discriminate].
  now intros [= <-].
Qed.

Lemma date_prefix_append (s rest r : string) :
  date_prefix s = Some rest -> date_prefix (s ++ r) = Some (rest ++ r).
Proof.
  unfold date_prefix.
  destruct (two_digits s) as [[y1 r0] |] eqn:E0; [| discriminate].
  rewrite (@two_digits_append _ _ r _ E0).
  destruct (two_digits r0) as [[y2 r1] |] eqn:E1; [| discriminate].
  rewrite (@two_digits_append _ _ r _ E1).
  destruct (expect "-" r1) as [r2 |] eqn:E2; [| discriminate].
  rewrite (@expect_append _ _ _ r E2).
  destruct (two_digits r2) as [[mo r3] |] eqn:E3; [| discriminate].
  rewrite (@two_digits_append _ _ r _ E3).
  destruct (expect "-" r3) as [r4 |] eqn:E4; [| discriminate].
  rewrite (@expect_append _ _ _ r E4).
  destruct (two_digits r4) as [[d r5] |] eqn:E5; [| discriminate].
  rewrite (@two_digits_append _ _ r _ E5).
  destruct (negb _); [discriminate |].
  now intros [= <-].
Qed.

Lemma minute_of_day_parts (ts : string) :
  minute_of_day ts
  = match date_prefix ts with
    | None => None
    | Some r5 => time_part r5
    end.
Proof.
  unfold minute_of_day, date_prefix.
  destruct (two_digits ts) as [[y1 r0] |]; [| reflexivity].
  destruct (two_digits r0) as [[y2 r1] |]; [| reflexivity].
  destruct (expect "-" r1) as [r2 |]; [| reflexivity].
  destruct (two_digits r2) as [[mo r3] |]; [| reflexivity].
  destruct (expect "-" r3) as [r4 |]; [| reflexivity].
  destruct (two_digits r4) as [[d r5] |]; [| reflexivity].
  destruct (negb _); [reflexivity |].
  unfold time_part, fraction.
  destruct r5 as [| sep r6]; [reflexivity |].
  destruct (negb _); [reflexivity |].
  destruct (two_digits r6) as [[h r7] |]; [| reflexivity].
  destruct (expect ":" r7) as [r8 |]; [| reflexivity].
  destruct (two_digits r8) as [[mi r9] |]; [| reflexivity].
  destruct (negb _); [reflexivity |].
  destruct (expect ":" r9) as [r10 |]; [| reflexivity].
  destruct (two_digits r10) as [[s r11] |]; [| reflexivity].
  destruct (negb _); [reflexivity |].
  destruct r11 as [| c [| f r12]]; try reflexivity.
  - destruct c as [[] [] [] [] [] [] [] []]; reflexivity.
  - destruct c as [[] [] [] [] [] [] [] []]; try reflexivity.
    destruct (Json.is_digit f); reflexivity.
Qed.

(** ** The days of the range and the numbers below 60 *)

Lemma range_checked_ok :
  days_checked (Z.to_nat (end_day - first_day)) first_day
    (date_of first_day) = true.
Proof.
  vm_compute. reflexivity.
Qed.

Lemma numbers_checked_ok : numbers_checked 60 0 = true.
Proof.
  vm_compute. reflexivity.
Qed.

Lemma days_checked_at (n : nat) (d : Z) (k : Z) :
  days_checked n d (date_of d) = true ->
  0 <= k < Z.of_nat n ->
  date_shape (date_of (d + k)) = true
  /\ String.compare (date_of (d + k)) (date_of (d + k + 1)) = Lt.
Proof.
  revert d k. induction n as [| n IH]; intros d k H Hk; [lia |].
  cbn [days_checked] in H.
  apply andb_prop in H as [H Hrest]. apply andb_prop in H as [Hs Hlt].
  destruct (Z.eq_dec k 0) as [-> | Hne].
  - rewrite Z.add_0_r. split; [exact Hs | now apply ltb_compare].
  - replace (d + k) with (d + 1 + (k - 1)) by lia.
    apply IH; [exact Hrest | lia].
Qed.

Lemma day_in_range (d : Z) :
  first_day <= d < end_day ->
  date_shape (date_of d) = true
  /\ String.compare (date_of d) (date_of (d + 1)) = Lt.
Proof.
  intro H.
  replace d with (first_day + (d - first_day)) by lia.
  exact (@days_checked_at _ _ (d - first_day) range_checked_ok
           ltac:(lia)).
Qed.

Lemma numbers_checked_at (n : nat) (k i : Z) :
  numbers_checked n k = true -> 0 <= i < Z.of_nat n ->
  two_checked (k + i) = true.
Proof.
  revert k i. induction n as [| n IH]; intros k i H Hi; [lia |].
  cbn [numbers_checked] in H. apply andb_prop in H as [H0 Hrest].
  destruct (Z.eq_dec i 0) as [-> | Hne].
  - now rewrite Z.add_0_r.
  - replace (k + i) with (k + 1 + (i - 1)) by lia.
    apply IH; [exact Hrest | lia].
Qed.

Lemma number_below_60 (n : Z) :
  0 <= n < 60 ->
  two_digits (pad 2 n) = Some (n, EmptyString)
  /\ String.eqb (pad 2 n) "12" = (n =? 12)
  /\ String.eqb (pad 2 n) "00" = (n =? 0).
Proof.
  intro H.
  assert (C : two_checked (0 + n) = true)
    by exact (@numbers_checked_at _ _ n numbers_checked_ok ltac:(lia)).
  rewrite Z.add_0_l in C.
  unfold two_checked in C.
  apply andb_prop in C as [C C3]. apply andb_prop in C as [C1 C2].
  apply Bool.eqb_prop in C2, C3.
  destruct (two_digits (pad 2 n)) as [[v [| ? ?]] |]; try discriminate.
  apply Z.eqb_eq in C1. subst v. auto.
Qed.

(** Dates in the range are ordered as their days. *)
Lemma dates_increase (d1 d2 : Z) :
  first_day <= d1 -> d1 < d2 -> d2 <= end_day ->
  String.compare (date_of d1) (date_of d2) = Lt.
Proof.
  intros H1 Hlt H2.
  replace d2 with (d1 + 1 + Z.of_nat (Z.to_nat (d2 - d1 - 1))) by lia.
  assert (Hn : d1 + 1 + Z.of_nat (Z.to_nat (d2 - d1 - 1)) <= end_day)
    by lia.
  induction (Z.to_nat (d2 - d1 - 1)) as [| n IH].
  - rewrite Z.add_0_r. apply day_in_range. lia.
  - apply compare_trans
      with (b := date_of (d1 + 1 + Z.of_nat n)); [apply IH; lia |].
    replace (d1 + 1 + Z.of_nat (S n))
      with (d1 + 1 + Z.of_nat n + 1) by lia.
    apply day_in_range. lia.
Qed.

Lemma date_order (d1 d2 : Z) :
  first_day <= d1 < end_day -> first_day <= d2 < end_day ->
  String.compare (date_of d1) (date_of d2) = (d1 ?= d2).
Proof.
  intros H1 H2.
  destruct (Z.compare_spec d1 d2) as [-> | Hlt | Hgt].
  - apply compare_refl.
  - apply dates_increase; lia.
  - rewrite String.compare_antisym.
    rewrite (@dates_increase d2 d1); [reflexivity | lia ..].
Qed.

Lemma date_length (d : Z) :
  first_day <= d < end_day -> String.length (date_of d) = 10%nat.
Proof.
  intro H. destruct (day_in_range H) as [Hs _].
  unfold date_shape in Hs. apply andb_prop in Hs as [_ Hs].
  now apply Nat.eqb_eq.
Qed.

Lemma date_is_read (d : Z) (r : string) :
  first_day <= d < end_day -> date_prefix (date_of d ++ r) = Some r.
Proof.
  intro H. destruct (day_in_range H) as [Hs _].
  unfold date_shape in Hs. apply andb_prop in Hs as [Hs _].
  destruct (date_prefix (date_of d)) as [[| ? ?] |] eqn:E;
    try discriminate.
  exact (@date_prefix_append _ _ r E).
Qed.

(** ** The texts of the collector and of SQLite *)

Lemma civil_date (t : instant) :
  date_text (civil_of_instant t) = date_of (t / day).
Proof.
  unfold civil_of_instant, date_of.
  destruct (date_of_days (t / day)) as [[y m] dd]. reflexivity.
Qed.

Lemma civil_time (t : instant) :
  time_text (civil_of_instant t)
  = pad 2 (hour_of t) ++ ":" ++ pad 2 (minute_of t) ++ ":"
    ++ pad 2 (t mod day mod 60).
Proof.
  unfold civil_of_instant.
  destruct (date_of_days (t / day)) as [[y m] dd]. reflexivity.
Qed.

(** What [isoformat] prints after the seconds. *)
Lemma isoformat_text (t : instant) (us : Z) (aware : bool) :
  isoformat t us aware
  = date_of (t / day)
    ++ String "T"
         (pad 2 (hour_of t) ++ String ":"
            (pad 2 (minute_of t) ++ String ":"
               (pad 2 (t mod day mod 60)
                ++ (if us =? 0 then EmptyString else "." ++ pad 6 us)
                ++ (if aware then "+00:00" else EmptyString)))).
Proof.
  unfold isoformat. rewrite civil_date, civil_time.
  cbn [append]. rewrite !append_assoc. cbn [append].
  rewrite !append_assoc. reflexivity.
Qed.

Lemma datetime_now_text (now : instant) (k : Z) :
  datetime_now now k
  = date_of (day_of now - k)
    ++ String " " (time_text (civil_of_instant (now - k * day))).
Proof.
  unfold datetime_now. rewrite civil_date.
  replace ((now - k * day) / day) with (day_of now - k);
    [reflexivity |].
  unfold day_of.
  replace (now - k * day) with (now + (- k) * day) by lia.
  rewrite Z.div_add by (unfold day; lia). lia.
Qed.

(** The text of the collector against a cutoff of SQLite: the dates
    decide, and on the same date the [T] comes after the blank. *)
Lemma text_before_cutoff (now written us : Z) (aware : bool) (k : Z) :
  first_day <= day_of written < end_day ->
  first_day <= day_of now - k < end_day ->
  text_lt (isoformat written us aware) (datetime_now now k)
  = (day_of written <? day_of now - k).
Proof.
  intros Hw Hc. unfold text_lt, String.ltb.
  rewrite isoformat_text, datetime_now_text.
  rewrite compare_append
    by (unfold day_of in *; now rewrite !date_length).
  fold (day_of written). rewrite date_order by assumption.
  destruct (Z.compare_spec (day_of written) (day_of now - k))
    as [E | E | E].
  - rewrite E, Z.ltb_irrefl. reflexivity.
  - symmetry. now apply Z.ltb_lt.
  - symmetry. apply Z.ltb_ge. lia.
Qed.

Lemma time_part_read (A B C rest : string) (h mi s : Z) :
  two_digits A = Some (h, EmptyString) ->
  two_digits B = Some (mi, EmptyString) ->
  two_digits C = Some (s, EmptyString) ->
  0 <= h < 24 -> 0 <= mi < 60 -> 0 <= s < 60 ->
  zone (fraction rest) = Some 0 ->
  time_part (String "T" (A ++ String ":" (B ++ String ":" (C ++ rest))))
  = Some ((h * 60 + mi) mod 1440).
Proof.
  intros HA HB HC Hh Hmi Hs Hz. unfold time_part.
  change (Ascii.eqb "T" " ") with false.
  change (Ascii.eqb "T" "T") with true.
  cbn [orb negb].
  rewrite (@two_digits_append _ _ _ _ HA). cbn [append expect].
  rewrite Ascii.eqb_refl.
  rewrite (@two_digits_append _ _ _ _ HB). cbn [append expect].
  rewrite Ascii.eqb_refl.
  rewrite (@two_digits_append _ _ _ _ HC). cbn [append].
  replace (h <=? 24) with true by (symmetry; apply Z.leb_le; lia).
  replace (mi <=? 59) with true by (symmetry; apply Z.leb_le; lia).
  replace (s <=? 59) with true by (symmetry; apply Z.leb_le; lia).
  cbn [andb negb]. rewrite Hz. now rewrite Z.sub_0_r.
Qed.

Lemma zone_after_seconds (us : Z) (aware : bool) :
  zone (fraction ((if us =? 0 then EmptyString else "." ++ pad 6 us)
                  ++ (if aware then "+00:00" else EmptyString)))
  = Some 0.
Proof.
  destruct (us =? 0).
  - destruct aware; vm_compute; reflexivity.
  - destruct (pad_digits 6 us) as [Hd Hne].
    destruct (pad 6 us) as [| f digits]; [now destruct Hne |].
    cbn [all_digits] in Hd. apply andb_prop in Hd as [Hf Hd].
    cbn [append]. unfold fraction. rewrite Hf.
    rewrite (@skip_digits_append _ _ Hd).
    destruct aware; vm_compute; reflexivity.
Qed.

Lemma time_fields (t : instant) :
  0 <= hour_of t < 24 /\ 0 <= minute_of t < 60 /\ 0 <= t mod day mod 60 < 60
  /\ (hour_of t * 60 + minute_of t) mod 1440 = t mod day / 60
  /\ t mod day / 60 / 60 = hour_of t
  /\ (t mod day / 60) mod 60 = minute_of t.
Proof.
  unfold hour_of, minute_of, day.
  pose proof (Z.mod_pos_bound t 86400 ltac:(lia)) as Hr.
  set (r := t mod 86400) in *. clearbody r.
  assert (Hq : r / 3600 = r / 60 / 60)
    by (rewrite Z.div_div by lia; reflexivity).
  pose proof (Z.div_mod (r / 60) 60 ltac:(lia)) as Hdm.
  pose proof (Z.mod_pos_bound (r / 60) 60 ltac:(lia)) as Hm.
  pose proof (Z.mod_pos_bound r 60 ltac:(lia)) as Hs.
  assert (H60 : 0 <= r / 60 < 1440)
    by (split; [apply Z.div_pos; lia
               | apply Z.div_lt_upper_bound; lia]).
  assert (Hh : 0 <= r / 60 / 60 < 24)
    by (split; [apply Z.div_pos; lia
               | apply Z.div_lt_upper_bound; lia]).
  rewrite Hq.
  repeat split; try lia.
  replace (r / 60 / 60 * 60 + (r / 60) mod 60) with (r / 60) by lia.
  apply Z.mod_small. lia.
Qed.

(** SQLite reads the hour and the minute the collector wrote. *)
Lemma minute_of_day_read (t us : Z) (aware : bool) :
  first_day <= day_of t < end_day ->
  minute_of_day (isoformat t us aware) = Some (t mod day / 60).
Proof.
  intro Hr.
  destruct (time_fields t) as (Hh & Hm & Hs & Hq & _).
  rewrite isoformat_text, minute_of_day_parts.
  rewrite date_is_read by exact Hr.
  destruct (@number_below_60 (hour_of t) ltac:(lia)) as (H1 & _).
  destruct (number_below_60 Hm) as (H2 & _).
  destruct (number_below_60 Hs) as (H3 & _).
  rewrite (@time_part_read _ _ _ _ _ _ _ H1 H2 H3 Hh Hm Hs
             (zone_after_seconds us aware)).
  now rewrite Hq.
Qed.

Lemma hour_differs (t us : Z) (aware : bool) :
  first_day <= day_of t < end_day ->
  differs (strftime_H (isoformat t us aware)) "12"
  = negb (hour_of t =? 12).
Proof.
  intro Hr. unfold strftime_H. rewrite minute_of_day_read by exact Hr.
  destruct (time_fields t) as (Hh & _ & _ & _ & Hq & _).
  cbn [option_map differs]. rewrite Hq.
  now destruct (@number_below_60 (hour_of t) ltac:(lia)) as (_ & -> & _).
Qed.

Lemma minute_differs (t us : Z) (aware : bool) :
  first_day <= day_of t < end_day ->
  differs (strftime_M (isoformat t us aware)) "00"
  = negb (minute_of t =? 0).
Proof.
  intro Hr. unfold strftime_M. rewrite minute_of_day_read by exact Hr.
  destruct (time_fields t) as (_ & Hm & _ & _ & _ & Hq).
  cbn [option_map differs]. rewrite Hq.
  now destruct (number_below_60 Hm) as (_ & _ & ->).
Qed.

(** ** What a run does to a table *)

Lemma filter_twice (A : Type) (p q : A -> bool) (l : list A) :
  filter p (filter q l) = filter (fun x => q x && p x) l.
Proof.
  induction l as [| x l IH]; [reflexivity |].
  cbn [filter]. destruct (q x); cbn [filter andb]; now rewrite IH.
Qed.

Lemma live_table (now : instant) (table : list row) :
  delete_where (non_hourly_1_to_7_days now)
    (delete_where (non_noon_7_to_30_days now)
       (delete_where (older_than_30_days now) table))
  = filter (survives now) table.
Proof.
  unfold delete_where. rewrite !filter_twice.
  apply filter_ext. intro r. unfold survives. now rewrite andb_assoc.
Qed.


Lemma day_shift (now k : Z) : day_of (now - k * day) = day_of now - k.
Proof.
  unfold day_of.
  replace (now - k * day) with (now + (- k) * day) by lia.
  rewrite Z.div_add by (unfold day; lia). lia.
Qed.

(** The three clauses on a row the collector stamped. *)
Lemma survives_by_day (now written us : Z) (aware : bool) (c : string) :
  in_range written -> in_range now -> in_range (now - 30 * day) ->
  (survives now {| timestamp := isoformat written us aware; coin := c |}
   = true
   <-> kept_by_day now written).
Proof.
  unfold in_range. intros Hw Hn H30. rewrite day_shift in H30.
  unfold survives, older_than_30_days, non_noon_7_to_30_days,
    non_hourly_1_to_7_days, text_ge.
  cbn [timestamp].
  change (String.ltb ?a ?b) with (text_lt a b).
  rewrite !text_before_cutoff by (assumption || lia).
  rewrite hour_differs, minute_differs by assumption.
  unfold kept_by_day.
  destruct (Z.ltb_spec (day_of written) (day_of now - 30));
    destruct (Z.ltb_spec (day_of written) (day_of now - 7));
    destruct (Z.ltb_spec (day_of written) (day_of now - 1));
    destruct (Z.eqb_spec (hour_of written) 12);
    destruct (Z.eqb_spec (minute_of written) 0);
    cbn [negb andb]; split; intro K; try discriminate;
    try reflexivity; try lia;
    try (repeat split; intros; lia);
    destruct K as (K1 & K2 & K3); try lia.
Qed.


(** X21.  Rows stamped by the collector ([datetime.isoformat()], with
    or without the UTC offset) are retained by calendar day.  For
    instants between 2000 and 2100, a live run at [now] keeps such a
    row exactly when it is dated at most 30 days before the day of the
    run and, dated more than 7 days before, is of hour 12 and, dated 2
    to 7 days before, is of minute 0.  So a row written in the last 24
    hours always stays, and a row 31 days old or older always goes. *)
Theorem collector_rows_are_kept_by_day (now written us : Z)
  (aware : bool) (c : string) (db : database) :
  in_range written -> in_range now -> in_range (now - 30 * day) ->
  let r := {| timestamp := isoformat written us aware; coin := c |} in
  (In r (snapshots (run_maintenance now false db))
   <-> In r (snapshots db) /\ kept_by_day now written)
  /\ (In r (price_history (run_maintenance now false db))
      <-> In r (price_history db) /\ kept_by_day now written)
  /\ (now - written <= day -> kept_by_day now written)
  /\ (31 * day <= now - written -> ~ kept_by_day now written).
Proof.
  intros Hw Hn H30 r.
  pose proof (@survives_by_day now written us aware c Hw Hn H30) as Hk.
  fold r in Hk.
  assert (Hs : snapshots (run_maintenance now false db)
               = filter (survives now) (snapshots db)).
  { unfold run_maintenance. cbn [snapshots].
    rewrite !RetentionCorrectness.live_step. apply live_table. }
  assert (Hp : price_history (run_maintenance now false db)
               = filter (survives now) (price_history db)).
  { unfold run_maintenance. cbn [price_history]. apply live_table. }
  rewrite Hs, Hp, !filter_In, Hk.
  split; [reflexivity |]. split; [reflexivity |].
  unfold kept_by_day, day_of, day.
  split; intro H.
  - assert (now / 86400 - 1 <= written / 86400).
    { replace (now / 86400 - 1) with ((now - 1 * 86400) / 86400)
        by (replace (now - 1 * 86400) with (now + (- 1) * 86400) by lia;
            rewrite Z.div_add by lia; lia).
      apply Z.div_le_mono; lia. }
    repeat split; intros; lia.
  - intros (H1 & _).
    assert (written / 86400 <= now / 86400 - 31).
    { replace (now / 86400 - 31) with ((now - 31 * 86400) / 86400)
        by (replace (now - 31 * 86400) with (now + (- 31) * 86400)
              by lia;
            rewrite Z.div_add by lia; lia).
      apply Z.div_le_mono; lia. }
    lia.
Qed.

Lemma collector_rows_are_kept_by_day_witness :
  in_range Scenarios.written_31st_day
  /\ in_range Scenarios.run_at_15
  /\ in_range (Scenarios.run_at_15 - 30 * day)
  /\ (In Scenarios.row_31st_day
        (snapshots
           (run_maintenance Scenarios.run_at_15 false
              {| snapshots := [Scenarios.row_31st_day];
                 price_history := [] |}))
      <-> In Scenarios.row_31st_day [Scenarios.row_31st_day]
          /\ kept_by_day Scenarios.run_at_15 Scenarios.written_31st_day).
Proof.
  assert (H1 : in_range Scenarios.written_31st_day)
    by (vm_compute; split; [discriminate | reflexivity]).
  assert (H2 : in_range Scenarios.run_at_15)
    by (vm_compute; split; [discriminate | reflexivity]).
  assert (H3 : in_range (Scenarios.run_at_15 - 30 * day))
    by (vm_compute; split; [discriminate | reflexivity]).
  split; [exact H1 |]. split; [exact H2 |]. split; [exact H3 |].
  exact (proj1 (@collector_rows_are_kept_by_day Scenarios.run_at_15
                  Scenarios.written_31st_day 250000 true "BTC"
                  {| snapshots := [Scenarios.row_31st_day];
                     price_history := [] |} H1 H2 H3)).
Defined.

End RetentionFacts.

(* ================================================================== *)
(** * The retry wrappers *)
(* ================================================================== *)

Module RetryFacts.
Import Retry RetrySpec.

Section Wrapper.
Variables A E : Type.
Variable class_of : E -> exception_class.
Variable sync : bool.
Variable p : policy.
Variable exceptions : list exception_class.
Variable func : nat -> outcome A E.

Abbreviation attempts := (attempts class_of sync p exceptions func).
Abbreviation wrapper := (wrapper class_of sync p exceptions func).
Abbreviation caught := (caught class_of exceptions).
Abbreviation fails_until := (fails_until class_of exceptions func).

Lemma seq_snoc (k : nat) : seq 0 (S k) = (seq 0 k ++ [k])%list.
Proof.
  now rewrite seq_S.
Qed.

Lemma fails_until_next (k : nat) (e : E) :
  fails_until k -> func k = Raises A e -> caught e = true ->
  fails_until (S k).
Proof.
  intros Hk He Hc j Hj.
  destruct (Nat.eq_dec j k) as [-> | Hne]; [now exists e |].
  apply Hk. lia.
Qed.

(** The loop, entered for call number [k] with [n] iterations left. *)
Lemma attempts_from (n k : nat) (last : option E) :
  (0 < n)%nat ->
  max_attempts p = Z.of_nat (n + k) ->
  fails_until k ->
  let r := attempts n (Z.of_nat k + 1)%Z k (backoff p k) last
             (map (backoff p) (seq 0 k)) in
  exists k',
    (k <= k' < n + k)%nat
    /\ calls r = S k'
    /\ fails_until k'
    /\ sleeps r = map (backoff p) (seq 0 k')
    /\ match func k' with
       | Returns _ a => final r = Returned E (Some a)
       | Raises _ e =>
           if caught e && (S k' <? n + k)%nat then
             sleep sync (backoff p k') = false
             /\ final r = Raised A (SleepValueError E)
           else final r = Raised A (Reraised e)
       end.
Proof.
  revert k last.
  induction n as [| n IH]; intros k last Hn Hmax Hfail; [lia |].
  cbn [Retry.attempts].
  destruct (func k) as [a | e] eqn:Ek.
  - exists k. cbn [calls sleeps final]. rewrite Ek.
    repeat split; try lia; assumption.
  - destruct (caught e) eqn:Ec.
    + destruct (Z.of_nat k + 1 =? max_attempts p)%Z eqn:Elast.
      * apply Z.eqb_eq in Elast.
        exists k. cbn [calls sleeps final]. rewrite Ek, Ec.
        replace (S k <? S n + k)%nat with false
          by (symmetry; apply Nat.ltb_ge; lia).
        repeat split; try lia; assumption.
      * apply Z.eqb_neq in Elast.
        destruct (sleep sync (backoff p k)) eqn:Es.
        -- assert (H0 : (0 < n)%nat) by lia.
           assert (Hm : max_attempts p = Z.of_nat (n + S k)) by lia.
           pose proof (fails_until_next Hfail Ek Ec) as Hf.
           specialize (IH (S k) (Some e) H0 Hm Hf).
           replace (Z.of_nat (S k) + 1)%Z with (Z.of_nat k + 1 + 1)%Z
             in IH by lia.
           rewrite seq_snoc, map_app in IH. cbn [map backoff] in IH.
           destruct IH as (k' & Hk' & IH).
           exists k'. replace (S n + k)%nat with (n + S k)%nat by lia.
           split; [lia | exact IH].
        -- exists k. cbn [calls sleeps final]. rewrite Ek, Ec.
           replace (S k <? S n + k)%nat with true
             by (symmetry; apply Nat.ltb_lt; lia).
           repeat split; try lia; assumption.
    + exists k. cbn [calls sleeps final]. rewrite Ek, Ec.
      repeat split; try lia; assumption.
Qed.

(** A wrapped call with [max_attempts] at least 1. *)
Lemma wrapper_run :
  (1 <= max_attempts p)%Z ->
  exists k,
    (Z.of_nat (S k) <= max_attempts p)%Z
    /\ calls wrapper = S k
    /\ fails_until k
    /\ sleeps wrapper = map (backoff p) (seq 0 k)
    /\ match func k with
       | Returns _ a => final wrapper = Returned E (Some a)
       | Raises _ e =>
           if caught e && (Z.of_nat (S k) <? max_attempts p)%Z then
             sleep sync (backoff p k) = false
             /\ final wrapper = Raised A (SleepValueError E)
           else final wrapper = Raised A (Reraised e)
       end.
Proof.
  intro Hmax. unfold Retry.wrapper.
  assert (Hfail : fails_until 0) by (intros j Hj; lia).
  destruct (@attempts_from (Z.to_nat (max_attempts p)) 0%nat None
              ltac:(lia) ltac:(lia) Hfail)
    as (k & Hk & Hc & Hf & Hs & Hr).
  exists k. split; [lia |]. split; [exact Hc |]. split; [exact Hf |].
  split; [exact Hs |].
  destruct (func k) as [a | e]; [exact Hr |].
  replace (Z.of_nat (S k) <? max_attempts p)%Z
    with (S k <? Z.to_nat (max_attempts p) + 0)%nat; [exact Hr |].
  destruct (Nat.ltb_spec (S k) (Z.to_nat (max_attempts p) + 0));
    symmetry; [apply Z.ltb_lt | apply Z.ltb_ge]; lia.
Qed.



Lemma min_le_r (a b : Q) : Retry.min a b <= b.
Proof.
  unfold Retry.min. destruct (Py.Qltb b a) eqn:Hlt.
  - apply Qle_refl.
  - apply PyFacts.Qltb_false in Hlt. exact Hlt.
Qed.

Lemma min_le_l (a b : Q) : Retry.min a b <= a.
Proof.
  unfold Retry.min. destruct (Py.Qltb b a) eqn:Hlt.
  - apply PyFacts.Qltb_true in Hlt. now apply Qlt_le_weak.
  - apply Qle_refl.
Qed.


Lemma later_sleeps_capped (k : nat) :
  Forall (fun d => d <= max_delay p) (tl (map (backoff p) (seq 0 k))).
Proof.
  destruct k as [| k]; [constructor |].
  cbn [seq map tl]. apply Forall_forall. intros d Hd.
  apply in_map_iff in Hd as (i & <- & Hi). apply in_seq in Hi.
  destruct i as [| i]; [lia |]. cbn [backoff]. apply min_le_r.
Qed.

(** X23.  The edges of a wrapped call.  With [max_attempts] at most 0
    the function is not called at all and the wrapper returns [None];
    this is the only way it returns [None] of its own.  The function
    is never called more than [max_attempts] times, there is one sleep
    between two calls, and every sleep but the first is at most
    [max_delay].  Under [retry_sync], a negative [initial_delay] makes
    the first retry fail: the [ValueError] of [time.sleep] leaves the
    wrapper and the function is not called again. *)
Theorem wrapper_edges :
  ((max_attempts p <= 0)%Z ->
   wrapper = {| final := Returned E None; calls := 0; sleeps := [] |})
  /\ (Z.of_nat (calls wrapper) <= Z.max 0 (max_attempts p))%Z
  /\ List.length (sleeps wrapper) = Nat.pred (calls wrapper)
  /\ (final wrapper = Returned E None <-> (max_attempts p <= 0)%Z)
  /\ Forall (fun d => d <= max_delay p) (tl (sleeps wrapper))
  /\ (forall e, sync = true -> initial_delay p < 0 ->
        (2 <= max_attempts p)%Z ->
        func 0%nat = Raises A e -> caught e = true ->
        final wrapper = Raised A (SleepValueError E)
        /\ calls wrapper = 1%nat).
Proof.
  assert (Hnone : (max_attempts p <= 0)%Z ->
                  wrapper = {| final := Returned E None; calls := 0;
                               sleeps := [] |}).
  { intro H. unfold Retry.wrapper.
    replace (Z.to_nat (max_attempts p)) with 0%nat by lia. reflexivity. }
  assert (Hneg : forall e, sync = true -> initial_delay p < 0 ->
                   (2 <= max_attempts p)%Z ->
                   func 0%nat = Raises A e -> caught e = true ->
                   final wrapper = Raised A (SleepValueError E)
                   /\ calls wrapper = 1%nat).
  { intros e Hsync Hneg H2 He Hce.
    unfold Retry.wrapper.
    destruct (Z.to_nat (max_attempts p)) as [| n] eqn:En; [lia |].
    cbn [Retry.attempts]. rewrite He, Hce.
    replace (1 =? max_attempts p)%Z with false
      by (symmetry; apply Z.eqb_neq; lia).
    unfold sleep. rewrite Hsync.
    replace (Py.Qltb (initial_delay p) 0) with true
      by (symmetry; now apply PyFacts.Qltb_true).
    cbn [negb final calls]. split; reflexivity. }
  split; [exact Hnone |].
  enough (Hmain :
            (Z.of_nat (calls wrapper) <= Z.max 0 (max_attempts p))%Z
            /\ List.length (sleeps wrapper) = Nat.pred (calls wrapper)
            /\ (final wrapper = Returned E None
                <-> (max_attempts p <= 0)%Z)
            /\ Forall (fun d => d <= max_delay p) (tl (sleeps wrapper)))
    by (destruct Hmain as (M1 & M2 & M3 & M4);
        repeat (split; [assumption |]); exact Hneg).
  clear Hneg.
  destruct (Z_le_gt_dec (max_attempts p) 0) as [H0 | H1].
  - rewrite (Hnone H0). cbn [calls sleeps final tl List.length Nat.pred].
    repeat split; try lia; try constructor; try assumption.
  - destruct (@wrapper_run ltac:(lia)) as (k & Hk & Hc & Hf & Hs & Hr).
    rewrite Hc, Hs. cbn [Nat.pred].
    split; [lia |].
    split; [now rewrite length_map, length_seq |].
    split.
    + split; [| lia].
      intro Hfin. destruct (func k) as [a | e].
      * rewrite Hr in Hfin. discriminate.
      * destruct (caught e && _); [destruct Hr as [_ Hr] |];
          rewrite Hr in Hfin; discriminate.
    + apply later_sleeps_capped.
Qed.




(** X25.  With the default [exceptions], the errors the module itself
    defines are not retried: when the first call raises a
    [RetryableError], an [APIError], a [RateLimitError] or a
    [DataValidationError], the wrapper raises it at once, after one
    call and without sleeping.  A [ConnectionError] or a
    [TimeoutError] is caught. *)
Theorem own_errors_are_not_retried (e : E) :
  exceptions = RETRYABLE_EXCEPTIONS ->
  (1 <= max_attempts p)%Z ->
  func 0%nat = Raises A e ->
  (In (class_of e)
     [RetryableError; APIError; RateLimitError; DataValidationError] ->
   wrapper = {| final := Raised A (Reraised e); calls := 1;
                sleeps := [] |})
  /\ (In (class_of e) [ConnectionError; TimeoutError; AsyncioTimeoutError]
      -> caught e = true).
Proof.
  intros Hx Hmax He. split; intro Hin.
  - unfold Retry.wrapper.
    destruct (Z.to_nat (max_attempts p)) as [| n] eqn:En; [lia |].
    cbn [Retry.attempts]. rewrite He.
    replace (caught e) with false; [reflexivity |].
    unfold Retry.caught. rewrite Hx.
    cbn [In] in Hin.
    destruct Hin as [<- | [<- | [<- | [<- | []]]]]; reflexivity.
  - unfold Retry.caught. rewrite Hx. cbn [In] in Hin.
    destruct Hin as [<- | [<- | [<- | []]]]; reflexivity.
Qed.

End Wrapper.



Lemma own_errors_are_not_retried_witness :
  wrapper (fun c => c) false defaults RETRYABLE_EXCEPTIONS Cases.rejected
  = {| final := Raised string (Reraised APIError); calls := 1;
       sleeps := [] |}.
Proof.
  assert (H : (1 <= max_attempts defaults)%Z)
    by (vm_compute; discriminate).
  apply (@own_errors_are_not_retried string exception_class (fun c => c)
           false defaults RETRYABLE_EXCEPTIONS Cases.rejected APIError
           eq_refl H eq_refl).
  right. left. reflexivity.
Defined.

End RetryFacts.

(* ================================================================== *)
(** * Order book liquidity *)
(* ================================================================== *)

Module MarketFacts.
Import MarketData MarketSpec.

(** ** Depth *)

(** Two loops over the same levels, one adding at least what the
    other adds. *)
Lemma fold_le (f g : Q -> OrderBookLevel -> Q)
  (levels : list OrderBookLevel) (a b : Q) :
  sound_side levels ->
  (forall x y l, 0 <= price l -> 0 <= size l -> x <= y -> f x l <= g y l) ->
  a <= b ->
  fold_left f levels a <= fold_left g levels b.
Proof.
  intros Hs Hfg. revert a b.
  induction Hs as [| l levels [Hp Hz] _ IH]; intros a b Hab;
    [exact Hab |].
  cbn [fold_left]. apply IH. now apply Hfg.
Qed.

Lemma value_nonneg (l : OrderBookLevel) :
  0 <= price l -> 0 <= size l -> 0 <= size l * price l.
Proof.
  intros Hp Hs. now apply Qmult_le_0_compat.
Qed.

Lemma fold_same (levels : list OrderBookLevel) (a : Q) :
  fold_left (fun total _ => total) levels a = a.
Proof.
  induction levels as [| l levels IH]; [reflexivity | exact IH].
Qed.

Lemma depth_nonneg (levels : list OrderBookLevel) (mid pct : Q)
  (is_bid : bool) :
  sound_side levels -> 0 <= calc_depth levels mid pct is_bid.
Proof.
  intro Hs. unfold calc_depth.
  rewrite <- (fold_same levels 0) at 1.
  apply fold_le; [exact Hs | | apply Qle_refl].
  intros x y l Hp Hz Hxy.
  pose proof (value_nonneg l Hp Hz) as Hv.
  repeat match goal with
    | |- context [if ?c then _ else _] => destruct c
    end; lra.
Qed.

Lemma percent_le (p q : Q) : p <= q -> p / 100 <= q / 100.
Proof.
  intro H. unfold Qdiv. apply Qmult_le_compat_r; [exact H |].
  unfold Qle. simpl. lia.
Qed.

Lemma scale_le (mid x y : Q) : 0 <= mid -> x <= y -> mid * x <= mid * y.
Proof.
  intros Hm Hxy.
  setoid_replace (mid * x) with (x * mid) by ring.
  setoid_replace (mid * y) with (y * mid) by ring.
  now apply Qmult_le_compat_r.
Qed.

(** A wider band holds at least the depth of a narrower one. *)
Lemma depth_grows (levels : list OrderBookLevel) (mid p q : Q)
  (is_bid : bool) :
  sound_side levels -> 0 <= mid -> p <= q ->
  calc_depth levels mid p is_bid <= calc_depth levels mid q is_bid.
Proof.
  intros Hs Hm Hpq. unfold calc_depth.
  apply fold_le; [exact Hs | | apply Qle_refl].
  intros x y l Hp Hz Hxy.
  pose proof (value_nonneg l Hp Hz) as Hv.
  pose proof (percent_le Hpq) as Hpc.
  assert (Hlo : mid * (1 - q / 100) <= mid * (1 - p / 100))
    by (apply scale_le; [exact Hm | lra]).
  assert (Hhi : mid * (1 + p / 100) <= mid * (1 + q / 100))
    by (apply scale_le; [exact Hm | lra]).
  destruct is_bid; cbn [andb negb].
  - destruct (Qle_bool (mid * (1 - p / 100)) (price l)) eqn:E1;
      destruct (Qle_bool (mid * (1 - q / 100)) (price l)) eqn:E2;
      try lra.
    exfalso. apply Qle_bool_iff in E1.
    assert (Hc : Qle_bool (mid * (1 - q / 100)) (price l) = true)
      by (apply Qle_bool_iff; lra).
    congruence.
  - destruct (Qle_bool (price l) (mid * (1 + p / 100))) eqn:E1;
      destruct (Qle_bool (price l) (mid * (1 + q / 100))) eqn:E2;
      try lra.
    exfalso. apply Qle_bool_iff in E1.
    assert (Hc : Qle_bool (price l) (mid * (1 + q / 100)) = true)
      by (apply Qle_bool_iff; lra).
    congruence.
Qed.

(** ** Imbalance *)

Lemma imbalance_bounds (bid ask : Q) :
  0 <= bid -> 0 <= ask ->
  - (1) <= imbalance bid ask /\ imbalance bid ask <= 1
  /\ (0 < imbalance bid ask <-> ask < bid)
  /\ (imbalance bid ask == 0 <-> bid == ask).
Proof.
  intros Hb Ha. unfold imbalance.
  destruct (Py.Qltb 0 (bid + ask)) eqn:E.
  - apply PyFacts.Qltb_true in E.
    split; [apply Qle_shift_div_l; [exact E | lra] |].
    split; [apply Qle_shift_div_r; [exact E | lra] |].
    split.
    + split; intro H.
      * destruct (Qlt_le_dec ask bid) as [Hlt | Hge]; [exact Hlt |].
        exfalso.
        assert ((bid - ask) / (bid + ask) <= 0)
          by (apply Qle_shift_div_r; [exact E | lra]).
        lra.
      * apply Qlt_shift_div_l; [exact E | lra].
    + split; intro H.
      * assert (H1 : (bid - ask) / (bid + ask) <= 0) by lra.
        assert (H2 : 0 <= (bid - ask) / (bid + ask)) by lra.
        destruct (Qlt_le_dec ask bid) as [Hlt | Hge].
        -- exfalso.
           assert (0 < (bid - ask) / (bid + ask))
             by (apply Qlt_shift_div_l; [exact E | lra]).
           lra.
        -- destruct (Qlt_le_dec bid ask) as [Hlt' | Hge']; [| lra].
           exfalso.
           assert ((bid - ask) / (bid + ask) < 0)
             by (apply Qlt_shift_div_r; [exact E | lra]).
           lra.
      * setoid_replace (bid - ask) with 0 by lra.
        unfold Qdiv. ring.
  - apply PyFacts.Qltb_false in E.
    split; [lra |]. split; [lra |].
    split; [split; intro H; lra |].
    split; intro H; lra.
Qed.

(** ** [fetch_liquidity] *)

Lemma two_sided_cases (b : book) :
  two_sided b
  \/ (~ two_sided b
      /\ forall now c mark, fetch_liquidity now b c mark = Ok None).
Proof.
  destruct b as [[[| bid bids] [| ask asks]] |];
    try (right; split;
         [intros (? & ? & ? & ? & [=]) | reflexivity]).
  left. now exists bid, bids, ask, asks.
Qed.

(** X26.  The cases of [fetch_liquidity].  It returns [None] exactly
    when the book is missing or has an empty side.  It raises nothing
    but [ZeroDivisionError], and raises it exactly when both sides are
    there and the mid price in force (the mark price if one is given
    and is not zero, else the middle of the best bid and the best ask)
    is zero.  A mark price of zero counts as none.  Metrics that are
    returned carry the coin, the time of the call and the prices of
    the first bid and the first ask. *)
Theorem fetch_liquidity_cases (now : Clock.instant) (b : book)
  (c : string) (mark : option Q) :
  (fetch_liquidity now b c mark = Ok None <-> ~ two_sided b)
  /\ (forall e, fetch_liquidity now b c mark = Py.Raise e ->
        e = Py.ZeroDivisionError)
  /\ (fetch_liquidity now b c mark = Py.Raise Py.ZeroDivisionError
      <-> two_sided b /\ Py.or_default mark (middle b) == 0)
  /\ fetch_liquidity now b c (Some 0) = fetch_liquidity now b c None
  /\ (forall l, fetch_liquidity now b c mark = Ok (Some l) ->
        coin l = c /\ timestamp l = now
        /\ exists bid bids ask asks,
             b = Some (bid :: bids, ask :: asks)
             /\ best_bid l = price bid /\ best_ask l = price ask).
Proof.
  destruct (two_sided_cases b) as [(bid & bids & ask & asks & ->)
                                  | [Hno Hnone]].
  - assert (Hyes : two_sided (Some (bid :: bids, ask :: asks)))
      by (now exists bid, bids, ask, asks).
    cbn [fetch_liquidity middle]. unfold Py.div, Py.bind.
    set (mid := Py.or_default mark ((price bid + price ask) / 2)).
    destruct (Qeq_bool mid 0) eqn:E.
    + apply Qeq_bool_iff in E.
      split; [split; [discriminate | contradiction] |].
      split; [now intros e [= <-] |].
      split; [split; [now intros _ | reflexivity] |].
      split; [reflexivity | discriminate].
    + assert (Hne : ~ mid == 0)
        by (intro H; apply Qeq_bool_iff in H; congruence).
      split; [split; [discriminate | contradiction] |].
      split; [discriminate |].
      split; [split; [discriminate | now intros [_ H]] |].
      split; [reflexivity |].
      intros l [= <-]. cbn [coin timestamp best_bid best_ask].
      split; [reflexivity |]. split; [reflexivity |].
      now exists bid, bids, ask, asks.
  - rewrite !Hnone.
    split; [split; [now intros _ | reflexivity] |].
    split; [discriminate |].
    split; [split; [discriminate | now intros [H _]] |].
    split; [reflexivity | discriminate].
Qed.

Lemma half_nonneg (x : Q) : 0 <= x -> 0 <= x / 2.
Proof.
  intro H. apply Qle_shift_div_l; [reflexivity | lra].
Qed.

(** X27.  The metrics of a book without negative prices or sizes,
    under a mark price that is not negative.  The depths of each side
    are not negative and grow with the band: within 0.5% at most within
    1% at most within 2%.  Both imbalances lie between -1 and 1, and
    are positive exactly when the bids outweigh the asks.  When the
    best bid is not above the best ask the spread is not negative. *)
Theorem liquidity_is_ordered (now : Clock.instant)
  (bids asks : list OrderBookLevel) (c : string) (mark : option Q)
  (l : OrderBookLiquidity) :
  sound_side bids -> sound_side asks ->
  (forall m, mark = Some m -> 0 <= m) ->
  fetch_liquidity now (Some (bids, asks)) c mark = Ok (Some l) ->
  (0 <= bid_depth_0_5_pct l
   /\ bid_depth_0_5_pct l <= bid_depth_1_pct l
   /\ bid_depth_1_pct l <= bid_depth_2_pct l)
  /\ (0 <= ask_depth_0_5_pct l
      /\ ask_depth_0_5_pct l <= ask_depth_1_pct l
      /\ ask_depth_1_pct l <= ask_depth_2_pct l)
  /\ (- (1) <= imbalance_0_5_pct l /\ imbalance_0_5_pct l <= 1)
  /\ (- (1) <= imbalance_1_pct l /\ imbalance_1_pct l <= 1)
  /\ (0 < imbalance_0_5_pct l
      <-> ask_depth_0_5_pct l < bid_depth_0_5_pct l)
  /\ (0 < imbalance_1_pct l <-> ask_depth_1_pct l < bid_depth_1_pct l)
  /\ (best_bid l <= best_ask l -> 0 <= spread_percent l).
Proof.
  intros Hb Ha Hmark H.
  destruct bids as [| bid bids]; [discriminate |].
  destruct asks as [| ask asks]; [discriminate |].
  cbn [fetch_liquidity] in H. unfold Py.bind in H.
  set (mid := Py.or_default mark ((price bid + price ask) / 2)) in *.
  assert (Hmid : 0 <= mid).
  { unfold mid, Py.or_default.
    assert (Hhalf : 0 <= (price bid + price ask) / 2).
    { apply half_nonneg.
      apply Forall_inv in Hb. apply Forall_inv in Ha.
      destruct Hb, Ha. lra. }
    destruct mark as [m |]; [| exact Hhalf].
    destruct (Qeq_bool m 0); [exact Hhalf | now apply Hmark]. }
  destruct (Py.div (price ask - price bid) mid) as [spread |] eqn:Ed;
    [| discriminate].
  apply PyFacts.div_ok in Ed as [Hne ->].
  injection H as <-.
  cbn [bid_depth_0_5_pct bid_depth_1_pct bid_depth_2_pct
       ask_depth_0_5_pct ask_depth_1_pct ask_depth_2_pct
       imbalance_0_5_pct imbalance_1_pct best_bid best_ask
       spread_percent].
  assert (H051 : 0.5 <= 1) by (unfold Qle; simpl; lia).
  assert (H12 : 1 <= 2) by (unfold Qle; simpl; lia).
  pose proof (@depth_nonneg _ mid 0.5 true Hb) as B0.
  pose proof (@depth_nonneg _ mid 1 true Hb) as B1.
  pose proof (@depth_nonneg _ mid 0.5 false Ha) as A0.
  pose proof (@depth_nonneg _ mid 1 false Ha) as A1.
  split; [split; [exact B0 |];
          split; now apply depth_grows |].
  split; [split; [exact A0 |];
          split; now apply depth_grows |].
  destruct (imbalance_bounds B0 A0) as (I1 & I2 & I3 & _).
  destruct (imbalance_bounds B1 A1) as (J1 & J2 & J3 & _).
  split; [now split |]. split; [now split |].
  split; [exact I3 |]. split; [exact J3 |].
  intro Hspread.
  assert (Hpos : 0 < mid).
  { destruct (Qlt_le_dec 0 mid) as [Hlt | Hle]; [exact Hlt |].
    exfalso. apply Hne. lra. }
  assert (0 <= (price ask - price bid) / mid)
    by (apply Qle_shift_div_l; [exact Hpos | lra]).
  lra.
Qed.

Lemma liquidity_is_ordered_witness :
  exists l,
    fetch_liquidity 0%Z Cases.order_book "BTC" None = Ok (Some l)
    /\ bid_depth_0_5_pct l <= bid_depth_1_pct l
    /\ bid_depth_1_pct l <= bid_depth_2_pct l.
Proof.
  eexists. split; [vm_compute; reflexivity |].
  match goal with
  | |- ?x <= ?y /\ ?y' <= ?z =>
      match x with
      | bid_depth_0_5_pct ?l =>
          assert (Hb : sound_side
                         [{| price := 99.9; size := 2; num_orders := 3 |};
                          {| price := 99; size := 1; num_orders := 1 |}])
            by (repeat constructor; cbn; unfold Qle; simpl; lia);
          assert (Ha : sound_side
                         [{| price := 100.1; size := 1; num_orders := 1 |};
                          {| price := 103; size := 5; num_orders := 2 |}])
            by (repeat constructor; cbn; unfold Qle; simpl; lia);
          assert (Hm : forall m, @None Q = Some m -> 0 <= m)
            by discriminate;
          assert (Hr : fetch_liquidity 0%Z Cases.order_book "BTC" None
                       = Ok (Some l))
            by (vm_compute; reflexivity);
          destruct (@liquidity_is_ordered 0%Z _ _ "BTC" None l Hb Ha Hm
                      Hr) as ((_ & H1 & H2) & _);
          split; [exact H1 | exact H2]
      end
  end.
Defined.

(** ** [fetch_liquidity_batch] *)

Lemma fetch_liquidity_unmarked (now : Clock.instant) (b : book)
  (c : string) :
  (~ two_sided b /\ fetch_liquidity now b c None = Ok None)
  \/ (two_sided b /\ middle b == 0
      /\ fetch_liquidity now b c None = Py.Raise Py.ZeroDivisionError)
  \/ (two_sided b /\ ~ middle b == 0
      /\ exists l, fetch_liquidity now b c None = Ok (Some l)
                   /\ coin l = c).
Proof.
  destruct (two_sided_cases b) as [Hyes | [Hno Hnone]];
    [| left; split; [exact Hno | apply Hnone]].
  right. destruct Hyes as (bid & bids & ask & asks & ->).
  assert (Hyes : two_sided (Some (bid :: bids, ask :: asks)))
    by (now exists bid, bids, ask, asks).
  cbn [fetch_liquidity middle Py.or_default]. unfold Py.div, Py.bind.
  destruct (Qeq_bool ((price bid + price ask) / 2) 0) eqn:E.
  - left. apply Qeq_bool_iff in E. now repeat split.
  - right. split; [exact Hyes |].
    split; [intro H; apply Qeq_bool_iff in H; congruence |].
    eexists. split; reflexivity.
Qed.

Lemma batch_cases (clock : nat -> Clock.instant) (books : string -> book)
  (coins : list string) (k : nat)
  (results : list (string * OrderBookLiquidity)) :
  NoDup (map fst results) ->
  (forall out, batch clock books coins k results = Ok out ->
     NoDup (map fst out)
     /\ (forall c, In c (map fst out)
                   <-> In c (map fst results)
                       \/ (In c coins /\ two_sided (books c)))
     /\ (forall c l, LiquidationMaps.dict_get c out = Some l ->
           LiquidationMaps.dict_get c results = Some l
           \/ (In c coins /\ coin l = c
               /\ exists k',
                    fetch_liquidity (clock k') (books c) c None
                    = Ok (Some l))))
  /\ (forall e, batch clock books coins k results = Py.Raise e ->
        e = Py.ZeroDivisionError)
  /\ (Py.returns (batch clock books coins k results)
      <-> forall c, In c coins -> two_sided (books c) ->
                    ~ middle (books c) == 0).
Proof.
  revert k results.
  induction coins as [| c rest IH]; intros k results Hnd.
  - cbn [batch]. split.
    + intros out [= <-]. split; [exact Hnd |].
      split; [intro c; cbn [In]; tauto |]. intros c l H. now left.
    + split; [discriminate |].
      split; [intros _ c [] | intros _; now exists results].
  - cbn [batch]. unfold Py.bind.
    destruct (fetch_liquidity_unmarked (clock k) (books c) c)
      as [[Hno ->] | [(Hyes & Hz & ->) | (Hyes & Hnz & l & Hfl & Hl)]];
      [| | rewrite Hfl].
    + destruct (IH (S k) results Hnd) as (IH1 & IH2 & IH3).
      split.
      * intros out Hout. destruct (IH1 out Hout) as (N & K & G).
        split; [exact N |]. split.
        -- intro c'. rewrite K. cbn [In]. split.
           ++ intros [H | [H1 H2]]; auto.
           ++ intros [H | [[<- | H1] H2]]; auto. contradiction.
        -- intros c' l H. destruct (G c' l H) as [H' | (H1 & H2)];
             [now left |].
           right. split; [now right | exact H2].
      * split; [exact IH2 |]. rewrite IH3. split.
        -- intros H c' [<- | Hin] Hts; [contradiction | now apply H].
        -- intros H c' Hin. apply H. now right.
    + split; [discriminate |].
      split; [now intros e [= <-] |].
      split; [intros [out H]; discriminate |].
      intro H. exfalso. apply (H c); [now left | exact Hyes | exact Hz].
    + assert (Hnd' : NoDup (map fst (LiquidationMaps.dict_set c l results)))
        by now apply DictFacts.dict_set_nodup.
      destruct (IH (S k) (LiquidationMaps.dict_set c l results) Hnd')
        as (IH1 & IH2 & IH3).
      split.
      * intros out Hout. destruct (IH1 out Hout) as (N & K & G).
        split; [exact N |]. split.
        -- intro c'. rewrite K, DictFacts.dict_set_in_keys. cbn [In].
           split.
           ++ intros [[-> | H] | [H1 H2]]; auto.
           ++ intros [H | [[<- | H1] H2]]; auto.
        -- intros c' l' H. destruct (G c' l' H) as [H' | (H1 & H2)].
           ++ destruct (String.eqb_spec c' c) as [-> | Hne].
              ** rewrite DictFacts.dict_get_set_same in H'.
                 injection H' as <-. right.
                 split; [now left |]. split; [exact Hl |].
                 exists k. exact Hfl.
              ** rewrite DictFacts.dict_get_set_other in H' by exact Hne.
                 now left.
           ++ right. split; [now right | exact H2].
      * split; [exact IH2 |]. rewrite IH3. split.
        -- intros H c' [<- | Hin] Hts; [exact Hnz | now apply H].
        -- intros H c' Hin. apply H. now right.
Qed.

(** X28.  [fetch_liquidity_batch].  The batch returns exactly when no
    coin of the list has a book with both sides whose best bid and best
    ask cancel out; otherwise the [ZeroDivisionError] of that coin
    ends the whole batch, and nothing else is ever raised.  A returned
    dictionary has one entry for each coin of the list whose book has
    both sides, and none for the others; the entry of a coin carries
    that coin and is what [fetch_liquidity] computes for it. *)
Theorem fetch_liquidity_batch_cases (clock : nat -> Clock.instant)
  (books : string -> book) (coins : list string) :
  (Py.returns (fetch_liquidity_batch clock books coins)
   <-> forall c, In c coins -> two_sided (books c) ->
                 ~ middle (books c) == 0)
  /\ (forall e, fetch_liquidity_batch clock books coins = Py.Raise e ->
        e = Py.ZeroDivisionError)
  /\ (forall out, fetch_liquidity_batch clock books coins = Ok out ->
        NoDup (map fst out)
        /\ (forall c, In c (map fst out)
                      <-> In c coins /\ two_sided (books c))
        /\ (forall c l, LiquidationMaps.dict_get c out = Some l ->
              coin l = c
              /\ exists k,
                   fetch_liquidity (clock k) (books c) c None
                   = Ok (Some l))).
Proof.
  unfold fetch_liquidity_batch.
  destruct (@batch_cases clock books coins 0%nat [] (NoDup_nil _))
    as (H1 & H2 & H3).
  split; [exact H3 |]. split; [exact H2 |].
  intros out Hout. destruct (H1 out Hout) as (N & K & G).
  split; [exact N |]. split.
  - intro c. rewrite K. cbn [map In]. tauto.
  - intros c l H. destruct (G c l H) as [H' | (_ & Hc & Hk)];
      [discriminate | now split].
Qed.

End MarketFacts.

(* ================================================================== *)
(** * The wallet registry *)
(* ================================================================== *)

Module DiscoveryFacts.
Import WalletDiscovery DiscoverySpec.

Lemma init_coherent : coherent init.
Proof.
  unfold coherent, init.
  cbn [active_wallets wallet_last_seen wallet_trade_count map].
  repeat split; try constructor; try tauto. intros w n [].
Qed.

Section Discovery.
Variable lower : string -> string.
Variable clock : nat -> datetime.

Abbreviation add_wallet := (add_wallet lower clock).
Abbreviation add_users := (add_users lower clock).
Abbreviation add_trades := (add_trades lower clock).
Abbreviation discover_from_trades := (discover_from_trades lower clock).
Abbreviation get_wallets := (get_wallets clock).

Lemma tracked_in (w : string) (s : list string) :
  tracked w s = true <-> In w s.
Proof.
  unfold tracked. rewrite existsb_exists. split.
  - intros (x & Hx & E). apply String.eqb_eq in E. now subst.
  - intro H. exists w. split; [exact H | apply String.eqb_refl].
Qed.

Lemma set_add_in (w x : string) (s : list string) :
  In x (set_add w s) <-> x = w \/ In x s.
Proof.
  unfold set_add. destruct (tracked w s) eqn:E.
  - apply tracked_in in E. split; [now right |].
    intros [-> | H]; assumption.
  - rewrite in_app_iff. cbn [In]. split.
    + intros [H | [<- | []]]; auto.
    + intros [-> | H]; auto.
Qed.

Lemma set_add_nodup (w : string) (s : list string) :
  NoDup s -> NoDup (set_add w s).
Proof.
  intro H. unfold set_add. destruct (tracked w s) eqn:E; [exact H |].
  apply NoDup_app; [exact H | repeat constructor; intros [] | ].
  intros x Hx [<- | []].
  apply tracked_in in Hx. congruence.
Qed.

Lemma set_add_length (w : string) (s : list string) :
  Z.of_nat (List.length (set_add w s))
  = (Z.of_nat (List.length s) + if tracked w s then 0 else 1)%Z.
Proof.
  unfold set_add. destruct (tracked w s); [lia |].
  rewrite length_app. cbn [List.length]. lia.
Qed.

Lemma in_dict_set (V : Type) (k k' : string) (v v' : V)
  (d : list (string * V)) :
  In (k', v') (LiquidationMaps.dict_set k v d) ->
  (k' = k /\ v' = v) \/ In (k', v') d.
Proof.
  induction d as [| [x y] d IH]; cbn [LiquidationMaps.dict_set].
  - intros [[= <- <-] | []]. now left.
  - destruct (String.eqb k x) eqn:E.
    + apply String.eqb_eq in E. subst x.
      intros [[= <- <-] | H]; [now left | right; now right].
    + intros [H | H]; [right; now left |].
      destruct (IH H) as [H' | H']; [now left | right; now right].
Qed.

Lemma sum_after_sighting (w : string) (counts : list (string * Z)) :
  Py.sumZ (map snd (LiquidationMaps.dict_set w
                      (trade_count w counts + 1)%Z counts))
  = (Py.sumZ (map snd counts) + 1)%Z.
Proof.
  unfold trade_count.
  induction counts as [| [x n] counts IH];
    cbn [LiquidationMaps.dict_set LiquidationMaps.dict_get map snd].
  - reflexivity.
  - destruct (String.eqb w x) eqn:E; cbn [map snd].
    + rewrite !PyFacts.sumZ_cons. lia.
    + rewrite !PyFacts.sumZ_cons, IH. lia.
Qed.

Lemma trade_count_nonneg (w : string) (counts : list (string * Z)) :
  (forall x n, In (x, n) counts -> (1 <= n)%Z) ->
  (0 <= trade_count w counts)%Z.
Proof.
  intro H. unfold trade_count.
  destruct (LiquidationMaps.dict_get w counts) as [n |] eqn:E; [| lia].
  apply DictFacts.dict_get_in in E. specialize (H _ _ E). lia.
Qed.

(** One sighting. *)
Lemma add_wallet_step (wallet : string) (self : discovery) :
  coherent self ->
  coherent (snd (add_wallet wallet self))
  /\ (fst (add_wallet wallet self) = true
      <-> ~ In (lower wallet) (active_wallets self))
  /\ In (lower wallet) (active_wallets (snd (add_wallet wallet self)))
  /\ (forall w, In w (active_wallets self) ->
                In w (active_wallets (snd (add_wallet wallet self))))
  /\ Z.of_nat (List.length
                 (active_wallets (snd (add_wallet wallet self))))
     = (Z.of_nat (List.length (active_wallets self))
        + if fst (add_wallet wallet self) then 1 else 0)%Z
  /\ sightings (snd (add_wallet wallet self)) = (sightings self + 1)%Z
  /\ clock_reads (snd (add_wallet wallet self)) = S (clock_reads self).
Proof.
  intros (N1 & N2 & N3 & K1 & K2 & C).
  unfold WalletDiscovery.add_wallet, sightings.
  cbn [fst snd active_wallets wallet_last_seen wallet_trade_count
       clock_reads].
  split.
  - unfold coherent.
    cbn [active_wallets wallet_last_seen wallet_trade_count].
    split; [now apply set_add_nodup |].
    split; [now apply DictFacts.dict_set_nodup |].
    split; [now apply DictFacts.dict_set_nodup |].
    split; [intro w; rewrite set_add_in, DictFacts.dict_set_in_keys;
            now rewrite K1 |].
    split; [intro w; rewrite set_add_in, DictFacts.dict_set_in_keys;
            now rewrite K2 |].
    intros w n H. apply in_dict_set in H as [[_ ->] | H].
    + pose proof (@trade_count_nonneg (lower wallet) _ C). lia.
    + exact (C _ _ H).
  - split.
    + rewrite negb_true_iff, <- tracked_in.
      now destruct (tracked (lower wallet) (active_wallets self)).
    + split; [apply set_add_in; now left |].
      split; [intros w H; apply set_add_in; now right |].
      split; [rewrite set_add_length;
              now destruct (tracked (lower wallet) (active_wallets self)) |].
      split; [apply sum_after_sighting | reflexivity].
Qed.


Lemma grows_refl (self : discovery) (n : Z) :
  coherent self -> grows self self (Ok n) n.
Proof.
  intro H. unfold grows.
  split; [exact H |]. split; [auto |].
  split; [intros n' [= <-]; lia |]. split; [discriminate | lia].
Qed.

Lemma add_users_grows (users : list Json.value) (n0 : Z)
  (self : discovery) :
  coherent self ->
  grows self (snd (add_users users n0 self))
    (fst (add_users users n0 self)) n0.
Proof.
  revert n0 self.
  induction users as [| user rest IH]; intros n0 self Hc.
  - cbn [WalletDiscovery.add_users fst snd]. now apply grows_refl.
  - destruct user as [| b | q | u | l | f];
      try (cbn [WalletDiscovery.add_users fst snd]; unfold grows;
           split; [exact Hc |]; split; [auto |];
           split; [discriminate |];
           split; [intros e [= <-]; now left | lia]).
    cbn [WalletDiscovery.add_users].
    destruct (add_wallet_step u Hc) as (Hc' & Hnew & _ & Hkeep & Hlen
                                        & Hs & Ht).
    destruct (WalletDiscovery.add_wallet lower clock u self)
      as [is_new self'] eqn:Ea.
    cbn [fst snd] in *.
    specialize (IH (if is_new then n0 + 1 else n0)%Z self' Hc').
    destruct IH as (G1 & G2 & G3 & G4 & G5).
    unfold grows. split; [exact G1 |].
    split; [intros w Hw; apply G2, Hkeep, Hw |].
    split.
    + intros n Hn. rewrite (G3 n Hn), Hlen. destruct is_new; lia.
    + split; [exact G4 |]. lia.
Qed.

Lemma add_trades_grows (trades : list Json.value) (n0 : Z)
  (self : discovery) :
  coherent self ->
  grows self (snd (add_trades trades n0 self))
    (fst (add_trades trades n0 self)) n0.
Proof.
  revert n0 self.
  induction trades as [| trade rest IH]; intros n0 self Hc.
  - cbn [WalletDiscovery.add_trades fst snd]. now apply grows_refl.
  - cbn [WalletDiscovery.add_trades].
    destruct (Py.bind (Json.get trade "users" (Json.JArr [])) _)
      as [users | e] eqn:Eu.
    + pose proof (add_users_grows users n0 Hc) as Hu.
      destruct (WalletDiscovery.add_users lower clock users n0 self)
        as [[n | e] self'] eqn:Ea; cbn [fst snd] in *;
        [| exact Hu].
      destruct Hu as (U1 & U2 & U3 & U4 & U5).
      destruct (IH n self' U1) as (G1 & G2 & G3 & G4 & G5).
      unfold grows. split; [exact G1 |].
      split; [intros w Hw; apply G2, U2, Hw |].
      split.
      * intros m Hm. rewrite (G3 m Hm), (U3 n eq_refl). lia.
      * split; [exact G4 |]. lia.
    + cbn [fst snd]. unfold grows.
      split; [exact Hc |]. split; [auto |].
      split; [discriminate |]. split; [| lia].
      intros e' [= <-]. unfold Py.bind in Eu.
      destruct (Json.get trade "users" (Json.JArr [])) as [v |] eqn:Eg.
      * unfold Json.iter in Eu.
        destruct v; try discriminate; injection Eu as <-; now right.
      * injection Eu as <-. unfold Json.get in Eg.
        destruct trade; try discriminate; injection Eg as <-; now left.
Qed.

(** X29.  The wallet registry stays coherent.  In the registry of a
    new [WalletDiscovery], and after any [add_wallet] or
    [discover_from_trades] on a coherent registry, the set of active
    wallets, the last sightings and the trade counts are about the
    same wallets, each once, and every count is at least 1; this holds
    also when [discover_from_trades] raises half-way.  [add_wallet]
    returns [True] exactly when the lower-cased wallet was not tracked,
    and counts the sighting either way.  No call drops a wallet, and
    the number [discover_from_trades] returns is the number of wallets
    the set grew by. *)
Theorem registry_stays_coherent :
  coherent init
  /\ forall self, coherent self ->
       (forall wallet,
          coherent (snd (add_wallet wallet self))
          /\ (fst (add_wallet wallet self) = true
              <-> ~ In (lower wallet) (active_wallets self))
          /\ In (lower wallet)
               (active_wallets (snd (add_wallet wallet self)))
          /\ sightings (snd (add_wallet wallet self))
             = (sightings self + 1)%Z)
       /\ (forall trades,
             grows self (snd (discover_from_trades trades self))
               (fst (discover_from_trades trades self)) 0).
Proof.
  split; [exact init_coherent |].
  intros self Hc. split.
  - intro wallet.
    destruct (add_wallet_step wallet Hc) as (H1 & H2 & H3 & _ & _ & H6 & _).
    split; [exact H1 |]. split; [exact H2 |].
    split; [exact H3 | exact H6].
  - intro trades. unfold WalletDiscovery.discover_from_trades.
    destruct (Json.iter trades) as [items | e] eqn:Ei.
    + now apply add_trades_grows.
    + cbn [fst snd]. unfold grows.
      split; [exact Hc |]. split; [auto |].
      split; [discriminate |]. split; [| lia].
      intros e' [= <-]. unfold Json.iter in Ei.
      destruct trades; try discriminate; injection Ei as <-; now right.
Qed.

Lemma touch_counts_same (wallets : list string)
  (counts : list (string * Z)) :
  (forall w, In w wallets -> In w (map fst counts)) ->
  touch_counts wallets counts = counts.
Proof.
  unfold touch_counts. induction wallets as [| w rest IH]; intro H;
    [reflexivity |].
  cbn [fold_left].
  destruct (LiquidationMaps.dict_get w counts) as [n |] eqn:E.
  - apply IH. intros x Hx. apply H. now right.
  - exfalso. apply DictFacts.dict_get_none in E. apply E, H. now left.
Qed.

Lemma cutoff_cases (now h : Z) :
  let t := (now - h * 3600000000)%Z in
  ((0 <= t <= datetime_max)%Z /\ cutoff now h = Ok t)
  \/ (~ (0 <= t <= datetime_max)%Z
      /\ cutoff now h = Py.Raise Py.OverflowError).
Proof.
  intro t. unfold cutoff. fold t.
  destruct (Z.ltb_spec t 0); destruct (Z.ltb_spec datetime_max t);
    cbn [orb]; [right | right | right | left]; split;
    try reflexivity; lia.
Qed.

(** X30.  [get_wallets] on a coherent registry.  The call changes
    nothing but the clock.  It raises [OverflowError] when the cutoff,
    now minus [max_age_hours], falls outside the range of [datetime],
    and otherwise returns, each once, exactly the active wallets with
    at least [min_trades] sightings whose last sighting is after the
    cutoff; with [min_trades] at most 1 the age alone decides.  A
    wallet that was just added is selected by [get_wallets(1, h)]
    exactly when its sighting is less than [h] hours old. *)
Theorem get_wallets_selects (self : discovery) (min_trades h : Z) :
  coherent self ->
  let t := (clock (clock_reads self) - h * 3600000000)%Z in
  let r := fst (get_wallets min_trades h self) in
  let self' := snd (get_wallets min_trades h self) in
  (active_wallets self' = active_wallets self
   /\ wallet_last_seen self' = wallet_last_seen self
   /\ wallet_trade_count self' = wallet_trade_count self)
  /\ (~ (0 <= t <= datetime_max)%Z -> r = Py.Raise Py.OverflowError)
  /\ ((0 <= t <= datetime_max)%Z ->
      exists ws,
        r = Ok ws /\ NoDup ws
        /\ (forall w,
              In w ws
              <-> In w (active_wallets self)
                  /\ (min_trades
                      <= trade_count w (wallet_trade_count self))%Z
                  /\ exists seen,
                       LiquidationMaps.dict_get w (wallet_last_seen self)
                       = Some seen /\ (t < seen)%Z)
        /\ ((min_trades <= 1)%Z ->
            forall w,
              In w ws
              <-> exists seen,
                    LiquidationMaps.dict_get w (wallet_last_seen self)
                    = Some seen /\ (t < seen)%Z))
  /\ (forall wallet ws,
        fst (get_wallets 1 h (snd (add_wallet wallet self))) = Ok ws ->
        (In (lower wallet) ws
         <-> (clock (S (clock_reads self)) - h * 3600000000
              < clock (clock_reads self))%Z)).
Proof.
  assert (Hsel : forall st m, coherent st ->
            forall ws, fst (get_wallets m h st) = Ok ws ->
            forall w,
              In w ws
              <-> In w (active_wallets st)
                  /\ (m <= trade_count w (wallet_trade_count st))%Z
                  /\ exists seen,
                       LiquidationMaps.dict_get w (wallet_last_seen st)
                       = Some seen
                       /\ (clock (clock_reads st) - h * 3600000000
                           < seen)%Z).
  { intros st m Hst ws Hws w.
    unfold WalletDiscovery.get_wallets in Hws.
    destruct (cutoff_cases (clock (clock_reads st)) h) as [[_ E] | [_ E]];
      rewrite E in Hws; [| discriminate].
    cbn [fst] in Hws. injection Hws as <-.
    rewrite filter_In, andb_true_iff, Z.leb_le.
    split.
    - intros (Hin & Hm & Hs). split; [exact Hin |]. split; [exact Hm |].
      destruct (LiquidationMaps.dict_get w (wallet_last_seen st))
        as [seen |]; [| discriminate].
      exists seen. split; [reflexivity | now apply Z.ltb_lt].
    - intros (Hin & Hm & seen & -> & Hs). split; [exact Hin |].
      split; [exact Hm | now apply Z.ltb_lt]. }
  intros Hc t r self'.
  pose proof Hc as (N1 & N2 & N3 & K1 & K2 & C).
  split.
  - unfold self', WalletDiscovery.get_wallets.
    destruct (cutoff (clock (clock_reads self)) h);
      cbn [snd active_wallets wallet_last_seen wallet_trade_count];
      repeat split.
    apply touch_counts_same. intros w Hw. now apply K2.
  - destruct (cutoff_cases (clock (clock_reads self)) h)
      as [[Hin E] | [Hout E]]; fold t in Hin || fold t in Hout.
    + split; [intro H; contradiction |].
      split.
      * intros _.
        assert (Hr : r = Ok (filter
                   (fun w =>
                      (min_trades
                       <=? trade_count w (wallet_trade_count self))%Z
                      && match LiquidationMaps.dict_get w
                                 (wallet_last_seen self) with
                         | Some seen => (t <? seen)%Z
                         | None => false
                         end)
                   (active_wallets self))).
        { unfold r, WalletDiscovery.get_wallets. now rewrite E. }
        eexists. split; [exact Hr |].
        split; [now apply NoDup_filter |].
        split; [apply (Hsel self min_trades Hc); exact Hr |].
        intros Hmin w.
        rewrite (Hsel self min_trades Hc _ Hr w). fold t.
        split; [intros (_ & _ & H); exact H |].
        intros (seen & Hs & Hlt).
        assert (Hw : In w (active_wallets self)).
        { apply K1. apply DictFacts.dict_get_in in Hs.
          change w with (fst (w, seen)). now apply in_map. }
        split; [exact Hw |]. split; [| now exists seen].
        apply K2 in Hw. apply in_map_iff in Hw as ([w' n] & Hk & Hw).
        cbn [fst] in Hk. subst w'.
        unfold trade_count.
        rewrite (DictFacts.in_dict_get _ _ _ N3 Hw).
        specialize (C _ _ Hw). lia.
      * intros wallet ws Hws.
        destruct (add_wallet_step wallet Hc) as (Hc1 & _ & Hin1 & _ & _
                                                 & _ & Ht).
        rewrite (Hsel _ 1%Z Hc1 ws Hws (lower wallet)).
        rewrite Ht.
        unfold WalletDiscovery.add_wallet at 2 3.
        cbn [snd wallet_last_seen wallet_trade_count].
        rewrite DictFacts.dict_get_set_same.
        unfold trade_count at 1. rewrite DictFacts.dict_get_set_same.
        pose proof (@trade_count_nonneg (lower wallet) _ C) as Hn.
        split.
        -- intros (_ & _ & seen & [= <-] & Hlt). exact Hlt.
        -- intro Hlt. split; [exact Hin1 |]. split; [lia |].
           eexists. split; [reflexivity | exact Hlt].
    + split; [intros _; unfold r, WalletDiscovery.get_wallets;
              now rewrite E |].
      split; [intro H; contradiction |].
      intros wallet ws Hws.
      destruct (add_wallet_step wallet Hc) as (Hc1 & _ & Hin1 & _ & _
                                               & _ & Ht).
      rewrite (Hsel _ 1%Z Hc1 ws Hws (lower wallet)).
      rewrite Ht.
      unfold WalletDiscovery.add_wallet at 2 3.
      cbn [snd wallet_last_seen wallet_trade_count].
      rewrite DictFacts.dict_get_set_same.
      unfold trade_count at 1. rewrite DictFacts.dict_get_set_same.
      pose proof (@trade_count_nonneg (lower wallet) _ C) as Hn.
      split.
      * intros (_ & _ & seen & [= <-] & Hlt). exact Hlt.
      * intro Hlt. split; [exact Hin1 |]. split; [lia |].
        eexists. split; [reflexivity | exact Hlt].
Qed.

End Discovery.

Lemma get_wallets_selects_witness :
  coherent Cases.one_sighting
  /\ exists ws,
       fst (get_wallets Cases.ticking 1 24 Cases.one_sighting) = Ok ws
       /\ (forall w, In w ws <-> w = "0xabc"%string).
Proof.
  assert (Hc : coherent Cases.one_sighting)
    by exact (proj1 (@add_wallet_step Cases.lower_ascii Cases.ticking
                       "0xAbC" init init_coherent)).
  split; [exact Hc |].
  destruct (@get_wallets_selects Cases.lower_ascii Cases.ticking
              Cases.one_sighting 1 24 Hc) as (_ & _ & H & _).
  destruct H as (ws & Hr & _ & _ & Hage);
    [vm_compute; split; discriminate |].
  exists ws. split; [exact Hr |].
  intro w. rewrite (Hage ltac:(lia) w).
  change (wallet_last_seen Cases.one_sighting)
    with [("0xabc"%string, Cases.ticking 0)].
  cbn [LiquidationMaps.dict_get].
  destruct (String.eqb_spec w "0xabc") as [-> | Hne].
  - split; [reflexivity |]. intros _. eexists. split; [reflexivity |].
    vm_compute. reflexivity.
  - split; [intros (seen & [=] & _) | contradiction].
Defined.

End DiscoveryFacts.
